(** * PricePoint Intel: the geospatial and statistical analytics engine

    A shallow embedding of [geospatial/proximity.py], [geospatial/variance.py]
    and [geospatial/benchmarking.py].

    Modelling conventions.
    - A Python [float] is a real number ([R]); rounding error, NaN and signed
      zeros are outside the model.  [float("inf")] is kept as a separate
      constructor of [xfloat].
    - The exceptions that only float arithmetic produces are outside the
      model too: the [ValueError] of [math.sqrt(1 - a)] in
      [haversine_distance] when rounding carries [a] above 1 (nearly
      antipodal points), the [OverflowError] of [math.exp] for a large
      positive exponent (a negative decay factor), of [** 2] on prices near
      the largest float, and of [datetime - timedelta] outside the range of
      [datetime].  The functions that contain these operations are total in
      the model; what is proved of their results is to be read of the calls
      that return.
    - The comparisons [<], [<=], [==] of Python are the boolean functions
      [Rltb], [Rleb], [Reqb].
    - A division whose divisor no guard in the source protects is [fdiv], which
      raises [ZeroDivisionError] on a zero divisor; a division behind a guard
      that makes the divisor non-zero is the plain [/] of [R].
    - A [dict] record read with [.get(key, default)] is a Rocq record whose
      fields are options; a [dict] used for grouping is an association list in
      insertion order, the order in which Python iterates over it.
    - [list.sort] and [sorted] are stable; they are modelled by a stable
      insertion sort. *)

From Stdlib Require Import Reals Lra Lia List String ZArith Bool.
From Stdlib Require Import Permutation Sorted.
Import ListNotations.

Local Open Scope R_scope.

(** ** Python numbers *)

Module PyNum.

Definition Rltb (a b : R) : bool := if Rlt_dec a b then true else false.
Definition Rleb (a b : R) : bool := if Rle_dec a b then true else false.
Definition Reqb (a b : R) : bool := if Req_dec_T a b then true else false.

(** [a >= b] and [a > b] are [b <= a] and [b < a]. *)
Definition Rgeb (a b : R) : bool := Rleb b a.
Definition Rgtb (a b : R) : bool := Rltb b a.

(** Truth value of a float: every number except zero. *)
Definition truthy (x : R) : bool := negb (Reqb x 0).

(** [float("inf")] next to the finite floats. *)
Inductive xfloat : Type :=
| Finite (x : R)
| Infinity.

(** The built-ins [sum], [min] and [max] over a non-empty list of floats.
    [sum] starts from 0 and adds from the left. *)
Definition py_sum (l : list R) : R := fold_left Rplus l 0.

Definition py_min (l : list R) : R :=
  match l with
  | [] => 0
  | x :: l' => fold_left Rmin l' x
  end.

Definition py_max (l : list R) : R :=
  match l with
  | [] => 0
  | x :: l' => fold_left Rmax l' x
  end.

(** [round(x, ndigits)]: to the nearest multiple of [10^-ndigits], a tie
    going to the even neighbour. *)
Definition round_half_even (x : R) : Z :=
  let f := Int_part x in
  let r := x - IZR f in
  if Rltb r (1 / 2) then f
  else if Rltb (1 / 2) r then (f + 1)%Z
  else if Z.even f then f else (f + 1)%Z.

Definition py_round (x : R) (ndigits : nat) : R :=
  IZR (round_half_even (x * 10 ^ ndigits)) / 10 ^ ndigits.

End PyNum.
Export PyNum.

(** ** Python exceptions *)

Module PyExn.

(** [ZeroDivisionError] (a float division by zero) and [StopIteration]
    ([next] on an exhausted iterator) are the exceptions the modelled code
    can raise on typed input.  [InvalidCoordinate] and [InvalidDistance] are
    the error
    kinds the documentation names; they are listed so that statements about
    them can be written. *)
Inductive exn : Type :=
| ZeroDivisionError
| StopIteration
| InvalidCoordinate
| InvalidDistance.

Inductive result (A : Type) : Type :=
| Ok (a : A)
| Raise (e : exn).
Arguments Ok {A} a.
Arguments Raise {A} e.

Definition bind {A B : Type} (m : result A) (k : A -> result B) : result B :=
  match m with
  | Ok a => k a
  | Raise e => Raise e
  end.

(** Float division. *)
Definition fdiv (a b : R) : result R :=
  if Reqb b 0 then Raise ZeroDivisionError else Ok (a / b).

(** A loop that appends one computed item per element, or stops at the
    first exception. *)
Fixpoint mapM {A B : Type} (f : A -> result B) (l : list A) : result (list B) :=
  match l with
  | [] => Ok []
  | x :: l' =>
      bind (f x) (fun y => bind (mapM f l') (fun ys => Ok (y :: ys)))
  end.

End PyExn.
Export PyExn.

Notation "x <- m ;; k" := (bind m (fun x => k))
  (at level 61, m at next level, right associativity).

(** ** Stable sorting *)

Module StableSort.
Section Sort.
Context {A : Type}.

(** [leb x y]: [x] may stand before [y]. *)
Variable leb : A -> A -> bool.

(** [x] comes from the left of everything already in [l], so it goes in
    front of the first element it may stand before. *)
Fixpoint insert (x : A) (l : list A) : list A :=
  match l with
  | [] => [x]
  | y :: l' => if leb x y then x :: l else y :: insert x l'
  end.

Fixpoint sort (l : list A) : list A :=
  match l with
  | [] => []
  | x :: l' => insert x (sort l')
  end.
End Sort.

(** [l.sort(key=k)] and [l.sort(key=k, reverse=True)] on float keys. *)
Definition sort_by_key {A : Type} (key : A -> R) : list A -> list A :=
  sort (fun x y => Rleb (key x) (key y)).

Definition sort_by_key_reverse {A : Type} (key : A -> R) : list A -> list A :=
  sort (fun x y => Rleb (key y) (key x)).

(** The same on integer keys. *)
Definition sort_by_nat_key {A : Type} (key : A -> nat) : list A -> list A :=
  sort (fun x y => Nat.leb (key x) (key y)).
End StableSort.
Export StableSort.

(** ** Values of a serialised mapping *)

Inductive pyval : Type :=
| PNone
| PStr (s : string)
| PInt (n : Z)
| PFloat (x : R).

Definition opt_str (o : option string) : pyval :=
  match o with
  | Some s => PStr s
  | None => PNone
  end.

(** [d[key]] on a mapping written as a list of items. *)
Fixpoint item {V : Type} (key : string) (d : list (string * V)) : option V :=
  match d with
  | [] => None
  | (k, v) :: d' => if String.eqb k key then Some v else item key d'
  end.

(** [x.get(key, default)] on an optional field. *)
Definition get {V : Type} (field : option V) (default : V) : V :=
  match field with
  | Some v => v
  | None => default
  end.

(** * proximity.py *)

Module Proximity.

Definition EARTH_RADIUS_KM : R := 6371.

Record Coordinate : Type := mkCoordinate {
  latitude : R;
  longitude : R;
}.

Definition validate (c : Coordinate) : bool :=
  (Rleb (-90) (latitude c) && Rleb (latitude c) 90)
  && (Rleb (-180) (longitude c) && Rleb (longitude c) 180).

Record ProximityScore : Type := mkProximityScore {
  ps_vendor_id : string;
  ps_vendor_name : string;
  ps_center_id : string;
  ps_center_name : string;
  ps_market_id : option string;
  ps_distance_km : R;
  ps_proximity_score : R;
  ps_travel_time_estimate_hours : option R;
  ps_shipping_cost_factor : option R;
}.

(** [round(x, n) if x else None] on an optional float. *)
Definition round_if_truthy (o : option R) (ndigits : nat) : pyval :=
  match o with
  | Some x => if truthy x then PFloat (py_round x ndigits) else PNone
  | None => PNone
  end.

Definition ProximityScore_to_dict (self : ProximityScore)
  : list (string * pyval) :=
  [ ("vendor_id", PStr (ps_vendor_id self));
    ("vendor_name", PStr (ps_vendor_name self));
    ("center_id", PStr (ps_center_id self));
    ("center_name", PStr (ps_center_name self));
    ("market_id", opt_str (ps_market_id self));
    ("distance_km", PFloat (py_round (ps_distance_km self) 2));
    ("proximity_score", PFloat (py_round (ps_proximity_score self) 2));
    ("travel_time_estimate_hours",
      round_if_truthy (ps_travel_time_estimate_hours self) 2);
    ("shipping_cost_factor",
      round_if_truthy (ps_shipping_cost_factor self) 3) ]%string.

Record VendorCoverage : Type := mkVendorCoverage {
  vc_vendor_id : string;
  vc_vendor_name : string;
  vc_market_id : string;
  vc_region_name : string;
  vc_nearest_center_distance_km : xfloat;
  vc_average_distance_km : xfloat;
  vc_coverage_score : R;
  vc_center_count : nat;
  vc_centers : list ProximityScore;
}.

(** [math.radians] and [math.atan2]. *)
Definition radians (deg : R) : R := deg * PI / 180.

Definition atan2 (y x : R) : R :=
  if Rltb 0 x then atan (y / x)
  else if Rltb x 0 then
    if Rleb 0 y then atan (y / x) + PI else atan (y / x) - PI
  else if Rltb 0 y then PI / 2
  else if Rltb y 0 then - (PI / 2)
  else 0.

(** In exact arithmetic [0 <= a <= 1], so both square roots are defined;
    the [ValueError] that [math.sqrt(1 - a)] raises when rounding carries
    [a] above 1 has no counterpart here. *)
Definition haversine_distance (lat1 lon1 lat2 lon2 : R) : R :=
  let lat1_rad := radians lat1 in
  let lat2_rad := radians lat2 in
  let delta_lat := radians (lat2 - lat1) in
  let delta_lon := radians (lon2 - lon1) in
  let a := sin (delta_lat / 2) ^ 2
           + cos lat1_rad * cos lat2_rad * sin (delta_lon / 2) ^ 2 in
  let c := 2 * atan2 (sqrt a) (sqrt (1 - a)) in
  EARTH_RADIUS_KM * c.

(** The division is reached only when [0 < distance_km < max_distance_km].
    [math.exp] is the total [exp] of [R]: its [OverflowError], which needs a
    negative decay factor, has no counterpart here. *)
Definition calculate_proximity_score
  (distance_km max_distance_km decay_factor : R) : R :=
  if Rleb distance_km 0 then 100
  else if Rgeb distance_km max_distance_km then 0
  else
    let normalized_distance := distance_km / max_distance_km in
    let score := 100 * exp (- decay_factor * normalized_distance) in
    Rmax 0 (Rmin 100 score).

Definition estimate_travel_time (distance_km average_speed_kmh : R)
  : result R :=
  if Rleb distance_km 0 then Ok 0
  else fdiv distance_km average_speed_kmh.

Definition calculate_shipping_cost_factor
  (distance_km base_cost_per_km min_factor : R) : R :=
  min_factor + distance_km * base_cost_per_km.

(** Default values of the keyword arguments. *)
Definition default_max_distance_km : R := 500.
Definition default_decay_factor : R := 2.
Definition default_average_speed_kmh : R := 60.
Definition default_base_cost_per_km : R := 5 / 1000.
Definition default_min_factor : R := 1.

(** The analyzer object: the three attributes set by [__init__]. *)
Record ProximityAnalyzer : Type := mkProximityAnalyzer {
  max_distance_km : R;
  decay_factor : R;
  average_speed_kmh : R;
}.

Definition default_analyzer : ProximityAnalyzer :=
  mkProximityAnalyzer default_max_distance_km default_decay_factor
    default_average_speed_kmh.

(** The market, vendor and distribution-center mappings, by the keys the
    analyzer reads. *)
Record Market : Type := mkMarket {
  m_latitude : option R;
  m_longitude : option R;
  m_market_id : option string;
  m_region_name : option string;
}.

Record Vendor : Type := mkVendor {
  v_vendor_id : option string;
  v_vendor_name : option string;
}.

Record Center : Type := mkCenter {
  dc_vendor_id : option string;
  dc_center_id : option string;
  dc_center_name : option string;
  dc_latitude : option R;
  dc_longitude : option R;
}.

Definition calculate_proximity (self : ProximityAnalyzer)
  (market_lat market_lon center_lat center_lon : R)
  (vendor_id vendor_name center_id center_name : string)
  (market_id : option string) : result ProximityScore :=
  let distance :=
    haversine_distance market_lat market_lon center_lat center_lon in
  let score :=
    calculate_proximity_score distance (max_distance_km self)
      (decay_factor self) in
  travel_time <- estimate_travel_time distance (average_speed_kmh self) ;;
  let cost_factor :=
    calculate_shipping_cost_factor distance default_base_cost_per_km
      default_min_factor in
  Ok (mkProximityScore vendor_id vendor_name center_id center_name market_id
        distance score (Some travel_time) (Some cost_factor)).

(** [dc.get("vendor_id") != vendor_id]. *)
Definition other_vendor (dc : Center) (vendor_id : string) : bool :=
  match dc_vendor_id dc with
  | Some v => negb (String.eqb v vendor_id)
  | None => true
  end.

(** The loop of [analyze_vendor_coverage] that fills [proximity_scores]. *)
Fixpoint collect_scores (self : ProximityAnalyzer) (market : Market)
  (vendor : Vendor) (distribution_centers : list Center)
  : result (list ProximityScore) :=
  match distribution_centers with
  | [] => Ok []
  | dc :: rest =>
      let vendor_id := get (v_vendor_id vendor) EmptyString in
      if other_vendor dc vendor_id then
        collect_scores self market vendor rest
      else
        score <- calculate_proximity self
                   (get (m_latitude market) 0) (get (m_longitude market) 0)
                   (get (dc_latitude dc) 0) (get (dc_longitude dc) 0)
                   vendor_id (get (v_vendor_name vendor) EmptyString)
                   (get (dc_center_id dc) EmptyString)
                   (get (dc_center_name dc) EmptyString)
                   (Some (get (m_market_id market) EmptyString)) ;;
        scores <- collect_scores self market vendor rest ;;
        Ok (score :: scores)
  end.

(** [[1.0 / (i + 1) for i in range(n)]]. *)
Definition rank_weights (n : nat) : list R :=
  map (fun i => 1 / (INR i + 1)) (seq 0 n).

(** The coverage score of a non-empty list of scores already sorted by
    distance. *)
Definition weighted_score (proximity_scores : list ProximityScore) : R :=
  let weights := rank_weights (List.length proximity_scores) in
  let weight_sum := py_sum weights in
  py_sum (map (fun pw => ps_proximity_score (fst pw) * snd pw)
            (combine proximity_scores weights))
  / weight_sum.

Definition analyze_vendor_coverage (self : ProximityAnalyzer)
  (market : Market) (vendor : Vendor) (distribution_centers : list Center)
  : result VendorCoverage :=
  let market_id := get (m_market_id market) EmptyString in
  let region_name := get (m_region_name market) EmptyString in
  let vendor_id := get (v_vendor_id vendor) EmptyString in
  let vendor_name := get (v_vendor_name vendor) EmptyString in
  proximity_scores <- collect_scores self market vendor distribution_centers ;;
  match proximity_scores with
  | [] =>
      Ok (mkVendorCoverage vendor_id vendor_name market_id region_name
            Infinity Infinity 0 0 [])
  | _ :: _ =>
      let proximity_scores := sort_by_key ps_distance_km proximity_scores in
      let distances := map ps_distance_km proximity_scores in
      let nearest_distance := py_min distances in
      let avg_distance := py_sum distances / INR (List.length distances) in
      Ok (mkVendorCoverage vendor_id vendor_name market_id region_name
            (Finite nearest_distance) (Finite avg_distance)
            (weighted_score proximity_scores)
            (List.length proximity_scores) proximity_scores)
  end.



(** One entry of the list returned by [find_coverage_gaps]. *)
Record CoverageGap : Type := mkCoverageGap {
  gap_market_id : string;
  gap_region_name : string;
  gap_vendor_id : string;
  gap_vendor_name : string;
  gap_coverage_score : R;
  gap_nearest_center_distance_km : xfloat;
  gap_center_count : nat;
  gap_severity : string;
}.

Definition default_min_coverage_score : R := 30.

Definition gap_severity_of (coverage_score : R) : string :=
  if Rltb coverage_score 10 then "critical"%string
  else if Rltb coverage_score 20 then "high"%string
  else "medium"%string.

(** The inner loop of [find_coverage_gaps], over the vendors. *)
Fixpoint vendor_gaps (self : ProximityAnalyzer) (market : Market)
  (vendors : list Vendor) (distribution_centers : list Center)
  (min_coverage_score : R) : result (list CoverageGap) :=
  match vendors with
  | [] => Ok []
  | vendor :: rest =>
      let market_id := get (m_market_id market) EmptyString in
      let region_name := get (m_region_name market) EmptyString in
      let vendor_id := get (v_vendor_id vendor) EmptyString in
      let vendor_name := get (v_vendor_name vendor) EmptyString in
      coverage <- analyze_vendor_coverage self market vendor
                    distribution_centers ;;
      gaps <- vendor_gaps self market rest distribution_centers
                min_coverage_score ;;
      if Rltb (vc_coverage_score coverage) min_coverage_score
      then
        Ok (mkCoverageGap market_id region_name vendor_id vendor_name
              (vc_coverage_score coverage)
              (vc_nearest_center_distance_km coverage)
              (vc_center_count coverage)
              (gap_severity_of (vc_coverage_score coverage))
            :: gaps)
      else Ok gaps
  end.

(** The outer loop, over the markets. *)
Fixpoint market_gaps (self : ProximityAnalyzer) (markets : list Market)
  (vendors : list Vendor) (distribution_centers : list Center)
  (min_coverage_score : R) : result (list CoverageGap) :=
  match markets with
  | [] => Ok []
  | market :: rest =>
      gaps <- vendor_gaps self market vendors distribution_centers
                min_coverage_score ;;
      more <- market_gaps self rest vendors distribution_centers
                min_coverage_score ;;
      Ok (gaps ++ more)
  end.

Definition find_coverage_gaps (self : ProximityAnalyzer)
  (markets : list Market) (vendors : list Vendor)
  (distribution_centers : list Center) (min_coverage_score : R)
  : result (list CoverageGap) :=
  gaps <- market_gaps self markets vendors distribution_centers
            min_coverage_score ;;
  Ok (sort_by_key gap_coverage_score gaps).

(** The one entry of the list returned by
    [calculate_optimal_center_locations]. *)
Record Suggestion : Type := mkSuggestion {
  sg_rank : nat;
  sg_latitude : R;
  sg_longitude : R;
  sg_average_coverage_score : R;
  sg_markets_covered : nat;
  sg_total_markets : nat;
}.

(** [weights.get(m.get("market_id", ""), 1.0)]. *)
Definition market_weight (weights : list (string * R)) (m : Market) : R :=
  get (item (get (m_market_id m) EmptyString) weights) 1.

(** The division by [total_weight] comes after the test
    [total_weight == 0].  The default weights map every market identifier
    to 1.0; the argument [num_locations] is not read.  The distance and the
    score of each market are total here, as [haversine_distance] and
    [calculate_proximity_score] are in the model. *)
Definition calculate_optimal_center_locations (self : ProximityAnalyzer)
  (markets : list Market) (weights : option (list (string * R)))
  (num_locations : nat) : list Suggestion :=
  match markets with
  | [] => []
  | _ :: _ =>
      let weights :=
        match weights with
        | Some w => w
        | None => map (fun m => (get (m_market_id m) EmptyString, 1)) markets
        end in
      let total_weight := py_sum (map (market_weight weights) markets) in
      if Reqb total_weight 0 then []
      else
        let weighted_lat :=
          py_sum (map (fun m => get (m_latitude m) 0 * market_weight weights m)
                    markets)
          / total_weight in
        let weighted_lon :=
          py_sum (map (fun m => get (m_longitude m) 0 * market_weight weights m)
                    markets)
          / total_weight in
        let score_of m :=
          calculate_proximity_score
            (haversine_distance weighted_lat weighted_lon
               (get (m_latitude m) 0) (get (m_longitude m) 0))
            (max_distance_km self) (decay_factor self) in
        let total_coverage :=
          fold_left (fun acc m => acc + score_of m * market_weight weights m)
            markets 0 in
        let avg_coverage :=
          if Rgtb total_weight 0 then total_coverage / total_weight else 0 in
        [mkSuggestion 1 (py_round weighted_lat 6) (py_round weighted_lon 6)
           (py_round avg_coverage 2)
           (List.length (filter (fun m => Rgtb (score_of m) 30) markets))
           (List.length markets)]
  end.

End Proximity.

(** ** Grouping dictionaries *)

(** A [dict] with string keys, as the list of its items in insertion order. *)
Definition dict (V : Type) : Type := list (string * V).

(** [d[k] = f(d.get(k))]: a key already present keeps its place, a new key
    goes to the end. *)
Fixpoint dict_update {V : Type} (k : string) (f : option V -> V) (d : dict V)
  : dict V :=
  match d with
  | [] => [(k, f None)]
  | (k', v) :: d' =>
      if String.eqb k' k then (k', f (Some v)) :: d'
      else (k', v) :: dict_update k f d'
  end.

(** The same for a [dict] whose keys are tuples [(market_id, sku_id)]. *)
Definition pair_eqb (a b : string * string) : bool :=
  String.eqb (fst a) (fst b) && String.eqb (snd a) (snd b).

Definition pair_dict (V : Type) : Type := list ((string * string) * V).

Fixpoint pair_update {V : Type} (k : string * string) (f : option V -> V)
  (d : pair_dict V) : pair_dict V :=
  match d with
  | [] => [(k, f None)]
  | (k', v) :: d' =>
      if pair_eqb k' k then (k', f (Some v)) :: d'
      else (k', v) :: pair_update k f d'
  end.

Fixpoint pair_item {V : Type} (k : string * string) (d : pair_dict V)
  : option V :=
  match d with
  | [] => None
  | (k', v) :: d' => if pair_eqb k' k then Some v else pair_item k d'
  end.

(** [len(set(...))] over optional identifiers: the number of distinct
    values, [None] counting as one. *)
Definition option_string_dec (a b : option string) : {a = b} + {a <> b}.
Proof. decide equality. apply string_dec. Defined.

Definition distinct (l : list (option string)) : nat :=
  List.length (nodup option_string_dec l).

(** * variance.py *)

Module Variance.

Inductive AnomalyType : Type :=
| PRICE_SPIKE
| PRICE_DROP
| REGIONAL_VARIANCE
| COMPETITOR_GAP
| HISTORICAL_DEVIATION
| CURRENCY_MISMATCH.

Definition AnomalyType_value (t : AnomalyType) : string :=
  match t with
  | PRICE_SPIKE => "price_spike"
  | PRICE_DROP => "price_drop"
  | REGIONAL_VARIANCE => "regional_variance"
  | COMPETITOR_GAP => "competitor_gap"
  | HISTORICAL_DEVIATION => "historical_deviation"
  | CURRENCY_MISMATCH => "currency_mismatch"
  end.

Inductive Severity : Type :=
| LOW
| MEDIUM
| HIGH
| CRITICAL.

Definition Severity_value (s : Severity) : string :=
  match s with
  | LOW => "low"
  | MEDIUM => "medium"
  | HIGH => "high"
  | CRITICAL => "critical"
  end.

Record PricingVariance : Type := mkPricingVariance {
  pv_sku_id : string;
  pv_product_name : string;
  pv_base_region_id : string;
  pv_base_region_name : string;
  pv_base_price : R;
  pv_currency_code : string;
  pv_comparison_region_id : string;
  pv_comparison_region_name : string;
  pv_comparison_price : R;
  pv_absolute_variance : R;
  pv_percentage_variance : R;
  pv_normalized_variance : R;
}.

(** A point in time; only its order of creation and its rendering matter. *)
Definition datetime : Type := Z.

Record AnomalyFlag : Type := mkAnomalyFlag {
  af_anomaly_id : string;
  af_sku_id : string;
  af_product_name : string;
  af_vendor_id : string;
  af_vendor_name : string;
  af_market_id : option string;
  af_region_name : option string;
  af_anomaly_type : AnomalyType;
  af_severity : Severity;
  af_expected_price : option R;
  af_actual_price : R;
  af_variance_percentage : R;
  af_z_score : option R;
  af_description : string;
  af_detected_at : datetime;
}.

(** The mapping returned by [calculate_statistics], by its seven keys. *)
Record Statistics : Type := mkStatistics {
  st_mean : R;
  st_median : R;
  st_std_dev : R;
  st_min : R;
  st_max : R;
  st_range : R;
  st_cv : R;
}.

(** [n] is at least 1 past the emptiness test, so [/ n] is defined, and the
    indices [n // 2 - 1] and [n // 2] are within [sorted_prices]; [n - 1] is
    divided by only when [n > 1].  The sum, the mean and the variance are
    exact: the float mean of equal prices can differ from them in the last
    digit, and [** 2] overflows on prices near the largest float. *)
Definition calculate_statistics (prices : list R) : Statistics :=
  match prices with
  | [] => mkStatistics 0 0 0 0 0 0 0
  | _ :: _ =>
      let n := List.length prices in
      let sorted_prices := sort Rleb prices in
      let mean := py_sum prices / INR n in
      let median :=
        if (n mod 2 =? 0)%nat
        then (nth (n / 2 - 1) sorted_prices 0 + nth (n / 2) sorted_prices 0) / 2
        else nth (n / 2) sorted_prices 0 in
      let std_dev :=
        if (1 <? n)%nat
        then
          let variance :=
            py_sum (map (fun p => (p - mean) ^ 2) prices) / INR (n - 1) in
          sqrt variance
        else 0 in
      let min_price := py_min prices in
      let max_price := py_max prices in
      let price_range := max_price - min_price in
      let cv := if Rgtb mean 0 then std_dev / mean else 0 in
      mkStatistics mean median std_dev min_price max_price price_range cv
  end.

Definition calculate_z_score (value mean std_dev : R) : R :=
  if Reqb std_dev 0 then 0 else (value - mean) / std_dev.

Definition determine_severity (z_score : option R) (variance_percentage : R)
  : Severity :=
  let abs_z :=
    match z_score with
    | Some z => if truthy z then Rabs z else 0
    | None => 0
    end in
  let abs_var := Rabs variance_percentage in
  if Rgeb abs_z 4 || Rgeb abs_var 50 then CRITICAL
  else if Rgeb abs_z 3 || Rgeb abs_var 30 then HIGH
  else if Rgeb abs_z 2 || Rgeb abs_var 15 then MEDIUM
  else LOW.

(** The detector object: the three attributes set by [__init__]; an absent
    table of adjustment factors is the empty one. *)
Record VarianceDetector : Type := mkVarianceDetector {
  z_score_threshold : R;
  variance_threshold_pct : R;
  regional_adjustments : dict R;
}.

Definition default_detector : VarianceDetector :=
  mkVarianceDetector 2 15 [].

(** A pricing record, by the keys the detector reads. *)
Record PricingRecord : Type := mkPricingRecord {
  rec_sku_id : option string;
  rec_market_id : option string;
  rec_vendor_id : option string;
  rec_vendor_name : option string;
  rec_product_name : option string;
  rec_region_name : option string;
  rec_currency_code : option string;
  rec_unit_price : option R;
}.

(** [[r.get("unit_price", 0) for r in records if r.get("unit_price")]]. *)
Definition has_price (r : PricingRecord) : bool :=
  match rec_unit_price r with
  | Some p => truthy p
  | None => false
  end.

Definition priced (records : list PricingRecord) : list R :=
  map (fun r => get (rec_unit_price r) 0) (filter has_price records).

(** The first loop of [calculate_regional_variance]: records by SKU, then by
    market. *)
Definition group_by_sku_market (pricing_data : list PricingRecord)
  : dict (dict (list PricingRecord)) :=
  fold_left
    (fun sku_prices record =>
       let sku_id := get (rec_sku_id record) EmptyString in
       let market_id := get (rec_market_id record) EmptyString in
       dict_update sku_id
         (fun markets =>
            dict_update market_id
              (fun records => get records [] ++ [record])
              (get markets []))
         sku_prices)
    pricing_data [].

(** Average price and region name per market; a market without a priced
    record gets no entry. *)
Definition region_avg (markets : dict (list PricingRecord))
  : dict (R * string) :=
  flat_map
    (fun entry =>
       let market_id := fst entry in
       let records := snd entry in
       match priced records, records with
       | _ :: _, first :: _ =>
           let prices := priced records in
           let region_name := get (rec_region_name first) market_id in
           [(market_id, (py_sum prices / INR (List.length prices), region_name))]
       | _, _ => []
       end)
    markets.

(** [base_region_id and base_region_id in region_avg_prices], with the entry
    found. *)
Definition supplied_base (base_region_id : option string)
  (region_avg_prices : dict (R * string)) : option (R * string) :=
  match base_region_id with
  | Some b => if String.eqb b EmptyString then None else item b region_avg_prices
  | None => None
  end.

(** One [PricingVariance], for a market that is not the base. *)
Definition variance_of (self : VarianceDetector)
  (sku_id product_name currency base_region_id base_name : string)
  (base_price : R) (entry : string * (R * string)) : result PricingVariance :=
  let market_id := fst entry in
  let price := fst (snd entry) in
  let region_name := snd (snd entry) in
  let absolute_var := price - base_price in
  let pct_var :=
    if Rgtb base_price 0 then absolute_var / base_price * 100 else 0 in
  let adjustment := get (item market_id (regional_adjustments self)) 1 in
  normalized_var <- fdiv pct_var adjustment ;;
  Ok (mkPricingVariance sku_id product_name base_region_id base_name
        base_price currency market_id region_name price absolute_var pct_var
        normalized_var).

(** The body of the loop over SKUs.  It returns the variances of this SKU
    together with the value the local variable [base_region_id] has
    afterwards: the loop assigns to it when it falls back on the global
    average. *)
Definition sku_variances (self : VarianceDetector)
  (base_region_id : option string) (sku_id : string)
  (markets : dict (list PricingRecord))
  : result (option string * list PricingVariance) :=
  if (List.length markets <? 2)%nat then Ok (base_region_id, [])
  else
    first_record <- match markets with
                    | (_, r :: _) :: _ => Ok r
                    | _ => Raise StopIteration
                    end ;;
    let product_name := get (rec_product_name first_record) sku_id in
    let currency := get (rec_currency_code first_record) "USD"%string in
    let region_avg_prices := region_avg markets in
    if (List.length region_avg_prices <? 2)%nat then Ok (base_region_id, [])
    else
      let base :=
        match supplied_base base_region_id region_avg_prices with
        | Some (base_price, base_name) =>
            (get base_region_id EmptyString, (base_price, base_name))
        | None =>
            let all_prices := map (fun e => fst (snd e)) region_avg_prices in
            ("global_avg"%string,
             (py_sum all_prices / INR (List.length all_prices),
              "Global Average"%string))
        end in
      let base_region_id := fst base in
      let base_price := fst (snd base) in
      let base_name := snd (snd base) in
      variances <- mapM
                     (variance_of self sku_id product_name currency
                        base_region_id base_name base_price)
                     (filter
                        (fun e => negb (String.eqb (fst e) base_region_id))
                        region_avg_prices) ;;
      Ok (Some base_region_id, variances).

Fixpoint sku_loop (self : VarianceDetector) (base_region_id : option string)
  (sku_prices : dict (dict (list PricingRecord)))
  : result (list PricingVariance) :=
  match sku_prices with
  | [] => Ok []
  | (sku_id, markets) :: rest =>
      r <- sku_variances self base_region_id sku_id markets ;;
      variances <- sku_loop self (fst r) rest ;;
      Ok (snd r ++ variances)
  end.

Definition calculate_regional_variance (self : VarianceDetector)
  (pricing_data : list PricingRecord) (base_region_id : option string)
  : result (list PricingVariance) :=
  sku_loop self base_region_id (group_by_sku_market pricing_data).

Definition severity_order (s : Severity) : nat :=
  match s with
  | CRITICAL => 0
  | HIGH => 1
  | MEDIUM => 2
  | LOW => 3
  end.

(** [severity.value in ("high", "critical")]. *)
Definition high_or_critical (s : Severity) : bool :=
  existsb (String.eqb (Severity_value s)) ["high"; "critical"]%string.

Section Detection.

(** What the run-time supplies: the identifier drawn by the [n]-th call of
    [uuid.uuid4], the clock read by the [n]-th record created, the rendering
    of a time and the rendering of a float with a number of decimals. *)
Variable uuid4 : nat -> string.
Variable now : nat -> datetime.
Variable isoformat : datetime -> string.
Variable fmt : nat -> R -> string.

Definition AnomalyFlag_to_dict (self : AnomalyFlag) : list (string * pyval) :=
  [ ("anomaly_id", PStr (af_anomaly_id self));
    ("sku_id", PStr (af_sku_id self));
    ("product_name", PStr (af_product_name self));
    ("vendor_id", PStr (af_vendor_id self));
    ("vendor_name", PStr (af_vendor_name self));
    ("market_id", opt_str (af_market_id self));
    ("region_name", opt_str (af_region_name self));
    ("anomaly_type", PStr (AnomalyType_value (af_anomaly_type self)));
    ("severity", PStr (Severity_value (af_severity self)));
    ("expected_price", Proximity.round_if_truthy (af_expected_price self) 2);
    ("actual_price", PFloat (py_round (af_actual_price self) 2));
    ("variance_percentage", PFloat (py_round (af_variance_percentage self) 2));
    ("z_score", Proximity.round_if_truthy (af_z_score self) 2);
    ("description", PStr (af_description self));
    ("detected_at", PStr (isoformat (af_detected_at self))) ]%string.

(** A flag about to be created: it still awaits the number of its creation,
    which fixes its identifier and its time stamp. *)
Definition pending : Type := nat -> AnomalyFlag.

Definition issue (flags : list pending) : list AnomalyFlag :=
  map (fun nf => snd nf (fst nf)) (combine (seq 0 (List.length flags)) flags).

(** The first loop of [detect_anomalies]: records by SKU. *)
Definition group_by_sku (pricing_data : list PricingRecord)
  : dict (list PricingRecord) :=
  fold_left
    (fun sku_data record =>
       dict_update (get (rec_sku_id record) EmptyString)
         (fun records => get records [] ++ [record]) sku_data)
    pricing_data [].

(** The body of the loop over the records of one SKU. *)
Definition observation_flag (self : VarianceDetector)
  (sku_id product_name : string) (stats : Statistics) (record : PricingRecord)
  : list pending :=
  let price := get (rec_unit_price record) 0 in
  if Rleb price 0 then []
  else
    let vendor_id := get (rec_vendor_id record) EmptyString in
    let vendor_name := get (rec_vendor_name record) vendor_id in
    let market_id := rec_market_id record in
    let region_name := rec_region_name record in
    let z_score := calculate_z_score price (st_mean stats) (st_std_dev stats) in
    let variance_pct :=
      if Rgtb (st_mean stats) 0
      then (price - st_mean stats) / st_mean stats * 100
      else 0 in
    if Rgeb (Rabs z_score) (z_score_threshold self)
       || Rgeb (Rabs variance_pct) (variance_threshold_pct self)
    then
      let kind :=
        if Rgtb z_score 0
        then (PRICE_SPIKE,
              ("Price " ++ fmt 2 price ++ " is " ++ fmt 1 variance_pct
               ++ "% above market average (" ++ fmt 2 (st_mean stats)
               ++ ")")%string)
        else (PRICE_DROP,
              ("Price " ++ fmt 2 price ++ " is " ++ fmt 1 (Rabs variance_pct)
               ++ "% below market average (" ++ fmt 2 (st_mean stats)
               ++ ")")%string)
      in
      let severity := determine_severity (Some z_score) variance_pct in
      [fun n =>
         mkAnomalyFlag (uuid4 n) sku_id product_name vendor_id vendor_name
           market_id region_name (fst kind) severity (Some (st_mean stats))
           price variance_pct (Some z_score) (snd kind) (now n)]
    else [].

(** The body of the loop over SKUs. *)
Definition sku_flags (self : VarianceDetector)
  (entry : string * list PricingRecord) : list pending :=
  let sku_id := fst entry in
  let records := snd entry in
  match records with
  | [] => []
  | first :: _ =>
      let product_name := get (rec_product_name first) sku_id in
      let prices := priced records in
      if (List.length prices <? 2)%nat then []
      else
        let stats := calculate_statistics prices in
        flat_map (observation_flag self sku_id product_name stats) records
  end.

(** The body of the loop over the regional variances. *)
Definition regional_flag (self : VarianceDetector) (variance : PricingVariance)
  : list pending :=
  if Rgeb (Rabs (pv_percentage_variance variance))
       (variance_threshold_pct self)
  then
    let severity :=
      determine_severity None (pv_percentage_variance variance) in
    if high_or_critical severity
    then
      [fun n =>
         mkAnomalyFlag (uuid4 n) (pv_sku_id variance)
           (pv_product_name variance) EmptyString "Multiple Vendors"%string
           (Some (pv_comparison_region_id variance))
           (Some (pv_comparison_region_name variance))
           REGIONAL_VARIANCE severity (Some (pv_base_price variance))
           (pv_comparison_price variance) (pv_percentage_variance variance)
           None
           ("Regional price variance: " ++ pv_comparison_region_name variance
            ++ " is " ++ fmt 1 (pv_percentage_variance variance)
            ++ "% different from " ++ pv_base_region_name variance)%string
           (now n)]
    else []
  else [].

(** The anomalies in the order of their discovery, before the final sort. *)
Definition discover (self : VarianceDetector)
  (pricing_data : list PricingRecord) : result (list AnomalyFlag) :=
  let per_observation :=
    flat_map (sku_flags self) (group_by_sku pricing_data) in
  regional_variances <- calculate_regional_variance self pricing_data None ;;
  Ok (issue (per_observation ++ flat_map (regional_flag self) regional_variances)).

Definition detect_anomalies (self : VarianceDetector)
  (pricing_data : list PricingRecord)
  (historical_data : option (list PricingRecord))
  : result (list AnomalyFlag) :=
  anomalies <- discover self pricing_data ;;
  Ok (sort_by_nat_key (fun x => severity_order (af_severity x)) anomalies).

End Detection.

(** One [RegionalStats] per market and SKU. *)
Record RegionalStats : Type := mkRegionalStats {
  rs_market_id : string;
  rs_region_name : string;
  rs_sku_id : string;
  rs_vendor_count : nat;
  rs_mean_price : R;
  rs_median_price : R;
  rs_std_deviation : R;
  rs_min_price : R;
  rs_max_price : R;
  rs_price_range : R;
  rs_coefficient_of_variation : R;
}.

(** The first loop of [calculate_regional_stats]: records by
    [(market_id, sku_id)]. *)
Definition group_by_market_sku (pricing_data : list PricingRecord)
  : pair_dict (list PricingRecord) :=
  fold_left
    (fun grouped record =>
       let market_id := get (rec_market_id record) EmptyString in
       let sku_id := get (rec_sku_id record) EmptyString in
       pair_update (market_id, sku_id)
         (fun records => get records [] ++ [record]) grouped)
    pricing_data [].

(** The body of the loop over the groups: a group without a priced record
    is skipped. *)
Definition regional_stats_entry
  (entry : (string * string) * list PricingRecord) : list RegionalStats :=
  let market_id := fst (fst entry) in
  let sku_id := snd (fst entry) in
  let records := snd entry in
  match priced records, records with
  | _ :: _, first :: _ =>
      let prices := priced records in
      let region_name := get (rec_region_name first) market_id in
      let stats := calculate_statistics prices in
      [mkRegionalStats market_id region_name sku_id
         (distinct (map rec_vendor_id records))
         (st_mean stats) (st_median stats) (st_std_dev stats) (st_min stats)
         (st_max stats) (st_range stats) (st_cv stats)]
  | _, _ => []
  end.

Definition calculate_regional_stats (self : VarianceDetector)
  (pricing_data : list PricingRecord) : list RegionalStats :=
  flat_map regional_stats_entry (group_by_market_sku pricing_data).

(** One entry of the list returned by [get_high_variance_skus]. *)
Record HighVariance : Type := mkHighVariance {
  hv_sku_id : string;
  hv_product_name : string;
  hv_vendor_count : nat;
  hv_region_count : nat;
  hv_mean_price : R;
  hv_min_price : R;
  hv_max_price : R;
  hv_price_range : R;
  hv_coefficient_of_variation : R;
  hv_price_spread_pct : R;
}.

Definition default_threshold_cv : R := 2 / 10.

(** The body of the loop over SKUs: a SKU with fewer than two priced records
    is skipped, and so is one below the threshold. *)
Definition high_variance_entry (threshold_cv : R)
  (entry : string * list PricingRecord) : list HighVariance :=
  let sku_id := fst entry in
  let records := snd entry in
  let prices := priced records in
  if (List.length prices <? 2)%nat then []
  else
    match records with
    | [] => []
    | first :: _ =>
        let stats := calculate_statistics prices in
        if Rgeb (st_cv stats) threshold_cv
        then
          [mkHighVariance sku_id (get (rec_product_name first) sku_id)
             (distinct (map rec_vendor_id records))
             (distinct (map rec_market_id records))
             (py_round (st_mean stats) 2) (py_round (st_min stats) 2)
             (py_round (st_max stats) 2) (py_round (st_range stats) 2)
             (py_round (st_cv stats) 4)
             (if Rgtb (st_mean stats) 0
              then py_round (st_range stats / st_mean stats * 100) 2
              else 0)]
        else []
    end.

Definition get_high_variance_skus (self : VarianceDetector)
  (pricing_data : list PricingRecord) (threshold_cv : R)
  : list HighVariance :=
  sort_by_key_reverse hv_coefficient_of_variation
    (flat_map (high_variance_entry threshold_cv) (group_by_sku pricing_data)).

End Variance.

(** * benchmarking.py *)

Module Benchmarking.

(** [price_range] is not zero past the test [max_price == min_price]; the
    division by [avg_price] has no guard. *)
Definition calculate_competitiveness_score
  (vendor_price min_price max_price avg_price : R) : result R :=
  if Reqb max_price min_price then Ok 50
  else
    let price_range := max_price - min_price in
    let normalized_position := (vendor_price - min_price) / price_range in
    let score := (1 - normalized_position) * 100 in
    score <- (if Rltb vendor_price avg_price
              then
                ratio <- fdiv (avg_price - vendor_price) avg_price ;;
                let below_avg_bonus := ratio * 20 in
                Ok (Rmin 100 (score + below_avg_bonus))
              else Ok score) ;;
    Ok (Rmax 0 (Rmin 100 score)).

(** [sorted_values] is not empty past the emptiness test. *)
Definition calculate_percentile_rank (value : R) (values : list R) : R :=
  match values with
  | [] => 50
  | _ :: _ =>
      let sorted_values := sort Rleb values in
      let n := List.length sorted_values in
      let count_below :=
        List.length (filter (fun v => Rltb v value) sorted_values) in
      INR count_below / INR n * 100
  end.

Record RegionalBenchmark : Type := mkRegionalBenchmark {
  bm_benchmark_id : string;
  bm_sku_id : option string;
  bm_category_id : option string;
  bm_market_id : string;
  bm_region_name : string;
  bm_avg_price : R;
  bm_min_price : R;
  bm_max_price : R;
  bm_median_price : R;
  bm_std_deviation : R;
  bm_sample_size : nat;
  bm_vendor_count : nat;
  bm_price_trend : string;
  bm_trend_percentage : R;
  bm_benchmark_period_start : Variance.datetime;
  bm_benchmark_period_end : Variance.datetime;
  bm_currency_code : string;
}.

Record VendorBenchmarkComparison : Type := mkVendorBenchmarkComparison {
  cmp_vendor_id : string;
  cmp_vendor_name : string;
  cmp_market_id : string;
  cmp_region_name : string;
  cmp_sku_id : string;
  cmp_product_name : string;
  cmp_vendor_price : R;
  cmp_benchmark_avg : R;
  cmp_benchmark_min : R;
  cmp_benchmark_max : R;
  cmp_price_position : string;
  cmp_variance_from_avg_pct : R;
  cmp_percentile_rank : R;
  cmp_competitiveness_score : R;
}.

(** The lookup table of [compare_vendor_to_benchmark], keyed by
    [(market_id, sku_id)]: a later benchmark replaces an earlier one with
    the same key. *)
Definition key_eqb (a b : string * string) : bool :=
  String.eqb (fst a) (fst b) && String.eqb (snd a) (snd b).

Fixpoint lookup_set (k : string * string) (bm : RegionalBenchmark)
  (d : list ((string * string) * RegionalBenchmark))
  : list ((string * string) * RegionalBenchmark) :=
  match d with
  | [] => [(k, bm)]
  | (k', v) :: d' =>
      if key_eqb k' k then (k', bm) :: d' else (k', v) :: lookup_set k bm d'
  end.

Fixpoint lookup_get (k : string * string)
  (d : list ((string * string) * RegionalBenchmark))
  : option RegionalBenchmark :=
  match d with
  | [] => None
  | (k', v) :: d' => if key_eqb k' k then Some v else lookup_get k d'
  end.

Definition benchmark_lookup (benchmarks : list RegionalBenchmark)
  : list ((string * string) * RegionalBenchmark) :=
  fold_left
    (fun d bm =>
       match bm_sku_id bm with
       | Some sku_id =>
           if String.eqb sku_id EmptyString then d
           else lookup_set (bm_market_id bm, sku_id) bm d
       | None => d
       end)
    benchmarks [].

(** The body of the loop over the vendor's records: no comparison, or
    one. *)
Definition compare_record
  (lookup : list ((string * string) * RegionalBenchmark))
  (record : Variance.PricingRecord) : result (list VendorBenchmarkComparison) :=
  let vendor_id := get (Variance.rec_vendor_id record) EmptyString in
  let vendor_name := get (Variance.rec_vendor_name record) vendor_id in
  let market_id := get (Variance.rec_market_id record) "global"%string in
  let sku_id := get (Variance.rec_sku_id record) EmptyString in
  let product_name := get (Variance.rec_product_name record) sku_id in
  let vendor_price := get (Variance.rec_unit_price record) 0 in
  let region_name := get (Variance.rec_region_name record) market_id in
  if Rleb vendor_price 0 then Ok []
  else
    match lookup_get (market_id, sku_id) lookup with
    | None => Ok []
    | Some benchmark =>
        let variance_pct :=
          if Rgtb (bm_avg_price benchmark) 0
          then (vendor_price - bm_avg_price benchmark)
               / bm_avg_price benchmark * 100
          else 0 in
        let position :=
          if Rltb variance_pct (-5) then "below_market"%string
          else if Rgtb variance_pct 5 then "above_market"%string
          else "at_market"%string in
        let price_range := bm_max_price benchmark - bm_min_price benchmark in
        let percentile :=
          if Rgtb price_range 0
          then (vendor_price - bm_min_price benchmark) / price_range * 100
          else 50 in
        comp_score <- calculate_competitiveness_score vendor_price
                        (bm_min_price benchmark) (bm_max_price benchmark)
                        (bm_avg_price benchmark) ;;
        Ok [mkVendorBenchmarkComparison vendor_id vendor_name market_id
              region_name sku_id product_name vendor_price
              (bm_avg_price benchmark) (bm_min_price benchmark)
              (bm_max_price benchmark) position variance_pct percentile
              comp_score]
    end.

Fixpoint compare_records
  (lookup : list ((string * string) * RegionalBenchmark))
  (vendor_pricing : list Variance.PricingRecord)
  : result (list VendorBenchmarkComparison) :=
  match vendor_pricing with
  | [] => Ok []
  | record :: rest =>
      comparison <- compare_record lookup record ;;
      comparisons <- compare_records lookup rest ;;
      Ok (comparison ++ comparisons)
  end.

Definition compare_vendor_to_benchmark
  (vendor_pricing : list Variance.PricingRecord)
  (benchmarks : list RegionalBenchmark)
  : result (list VendorBenchmarkComparison) :=
  compare_records (benchmark_lookup benchmarks) vendor_pricing.

(** The benchmarker object: the two attributes set by [__init__]. *)
Record MarketBenchmarker : Type := mkMarketBenchmarker {
  default_period_days : Z;
  min_sample_size : Z;
}.

Definition default_benchmarker : MarketBenchmarker :=
  mkMarketBenchmarker 30 3.

(** [record.get("market_id", "global")]. *)
Definition benchmark_market (r : Variance.PricingRecord) : string :=
  get (Variance.rec_market_id r) "global"%string.

(** The first loop of [create_sku_benchmarks]: records by
    [(market_id, sku_id)]. *)
Definition group_for_benchmarks (pricing_data : list Variance.PricingRecord)
  : pair_dict (list Variance.PricingRecord) :=
  fold_left
    (fun grouped record =>
       let market_id := benchmark_market record in
       let sku_id := get (Variance.rec_sku_id record) EmptyString in
       pair_update (market_id, sku_id)
         (fun records => get records [] ++ [record]) grouped)
    pricing_data [].

(** The second loop: the historical prices by [(market_id, sku_id)]; a
    record without a price creates the entry of its key and adds nothing to
    it.  Absent or empty historical data leave the table empty. *)
Definition group_historical
  (historical_data : option (list Variance.PricingRecord))
  : pair_dict (list R) :=
  fold_left
    (fun historical_prices record =>
       let market_id := benchmark_market record in
       let sku_id := get (Variance.rec_sku_id record) EmptyString in
       pair_update (market_id, sku_id)
         (fun prices =>
            get prices []
            ++ (if Variance.has_price record
                then [get (Variance.rec_unit_price record) 0]
                else []))
         historical_prices)
    (get historical_data []) [].

(** The trend of a mean price against the historical prices of its key. *)
Definition price_trend (mean : R) (historical : option (list R))
  : string * R :=
  match historical with
  | Some (h :: hs) =>
      let hist := h :: hs in
      let hist_mean := py_sum hist / INR (List.length hist) in
      if Rgtb hist_mean 0
      then
        let trend_pct := (mean - hist_mean) / hist_mean * 100 in
        if Rgtb trend_pct 2 then ("increasing"%string, trend_pct)
        else if Rltb trend_pct (-2) then ("decreasing"%string, trend_pct)
        else ("stable"%string, trend_pct)
      else ("stable"%string, 0)
  | _ => ("stable"%string, 0)
  end.

(** [r.get("vendor_id")] is neither absent nor empty. *)
Definition has_vendor (vendor_id : option string) : bool :=
  match vendor_id with
  | Some v => negb (String.eqb v EmptyString)
  | None => false
  end.

Section Benchmarks.

(** What the run-time supplies: the identifier drawn by the [n]-th call of
    [uuid.uuid4], the clock, the subtraction of a number of days from a
    time, and the value of the key [category_id] of a record.  The
    subtraction is taken to stay within the range of [datetime]; outside it
    Python raises [OverflowError] before any benchmark is made. *)
Variable uuid4 : nat -> string.
Variable now : Variance.datetime.
Variable minus_days : Variance.datetime -> Z -> Variance.datetime.
Variable rec_category_id : Variance.PricingRecord -> option string.

(** The body of the loop over the groups.  The division [sum(prices) / n]
    has no guard of its own: the test against [min_sample_size] keeps
    [n = 0] away only when [min_sample_size] is positive.  A group holds at
    least the record that created it. *)
Definition benchmark_entry (self : MarketBenchmarker)
  (historical_prices : pair_dict (list R))
  (period_start period_end : Variance.datetime)
  (entry : (string * string) * list Variance.PricingRecord)
  : result (list (nat -> RegionalBenchmark)) :=
  let market_id := fst (fst entry) in
  let sku_id := snd (fst entry) in
  let records := snd entry in
  let prices := Variance.priced records in
  if (Z.of_nat (List.length prices) <? min_sample_size self)%Z then Ok []
  else
    match records with
    | [] => Ok []
    | first :: _ =>
        let region_name := get (Variance.rec_region_name first) market_id in
        let currency :=
          get (Variance.rec_currency_code first) "USD"%string in
        let sorted_prices := sort Rleb prices in
        let n := List.length prices in
        mean <- fdiv (py_sum prices) (INR n) ;;
        let median :=
          if (n mod 2 =? 0)%nat
          then (nth (n / 2 - 1) sorted_prices 0 + nth (n / 2) sorted_prices 0)
               / 2
          else nth (n / 2) sorted_prices 0 in
        let std_dev :=
          if (1 <? n)%nat
          then sqrt (py_sum (map (fun p => (p - mean) ^ 2) prices)
                     / INR (n - 1))
          else 0 in
        let trend :=
          price_trend mean (pair_item (market_id, sku_id) historical_prices) in
        let vendor_count :=
          distinct (filter has_vendor (map Variance.rec_vendor_id records)) in
        Ok [fun k =>
              mkRegionalBenchmark (uuid4 k) (Some sku_id)
                (rec_category_id first) market_id region_name mean
                (py_min prices) (py_max prices) median std_dev n vendor_count
                (fst trend) (snd trend) period_start period_end currency]
    end.

(** The benchmarks take their identifiers in the order of their
    creation. *)
Definition number_benchmarks (created : list (nat -> RegionalBenchmark))
  : list RegionalBenchmark :=
  map (fun nb => snd nb (fst nb))
    (combine (seq 0 (List.length created)) created).

Definition create_sku_benchmarks (self : MarketBenchmarker)
  (pricing_data : list Variance.PricingRecord)
  (historical_data : option (list Variance.PricingRecord))
  (period_end : option Variance.datetime)
  : result (list RegionalBenchmark) :=
  let period_end := get period_end now in
  let period_start := minus_days period_end (default_period_days self) in
  let grouped := group_for_benchmarks pricing_data in
  let historical_prices := group_historical historical_data in
  created <- mapM
               (benchmark_entry self historical_prices period_start period_end)
               grouped ;;
  Ok (number_benchmarks (List.concat created)).

End Benchmarks.

End Benchmarking.

(** * Properties *)

Import Proximity Variance Benchmarking.

Local Open Scope string_scope.
Local Open Scope R_scope.

(** ** Comparisons *)

Lemma Rltb_true (a b : R) : a < b -> Rltb a b = true.
Proof. intros H. unfold Rltb. destruct (Rlt_dec a b); [reflexivity | contradiction]. Qed.

Lemma Rltb_false (a b : R) : b <= a -> Rltb a b = false.
Proof. intros H. unfold Rltb. destruct (Rlt_dec a b); [lra | reflexivity]. Qed.

Lemma Rleb_true (a b : R) : a <= b -> Rleb a b = true.
Proof. intros H. unfold Rleb. destruct (Rle_dec a b); [reflexivity | contradiction]. Qed.

Lemma Rleb_false (a b : R) : b < a -> Rleb a b = false.
Proof. intros H. unfold Rleb. destruct (Rle_dec a b); [lra | reflexivity]. Qed.

Lemma Reqb_true (a b : R) : a = b -> Reqb a b = true.
Proof. intros H. unfold Reqb. destruct (Req_dec_T a b); [reflexivity | contradiction]. Qed.

Lemma Reqb_false (a b : R) : a <> b -> Reqb a b = false.
Proof. intros H. unfold Reqb. destruct (Req_dec_T a b); [contradiction | reflexivity]. Qed.

Lemma Rltb_spec (a b : R) : Rltb a b = true <-> a < b.
Proof.
  split; [| apply Rltb_true].
  unfold Rltb. destruct (Rlt_dec a b); [trivial | discriminate].
Qed.

Lemma Rleb_spec (a b : R) : Rleb a b = true <-> a <= b.
Proof.
  split; [| apply Rleb_true].
  unfold Rleb. destruct (Rle_dec a b); [trivial | discriminate].
Qed.

Lemma Reqb_spec (a b : R) : Reqb a b = true <-> a = b.
Proof.
  split; [| apply Reqb_true].
  unfold Reqb. destruct (Req_dec_T a b); [trivial | discriminate].
Qed.

Lemma Rleb_total (a b : R) : Rleb a b = true \/ Rleb b a = true.
Proof. destruct (Rle_or_lt a b); [left | right]; apply Rleb_true; lra. Qed.

(** Settle every comparison of the goal whose outcome [lra] can decide. *)
Ltac rcompare :=
  unfold Rgeb, Rgtb, truthy;
  repeat match goal with
    | |- context [Rltb ?a ?b] =>
        first [ rewrite (Rltb_true a b) by lra
              | rewrite (Rltb_false a b) by lra ]
    | |- context [Rleb ?a ?b] =>
        first [ rewrite (Rleb_true a b) by lra
              | rewrite (Rleb_false a b) by lra ]
    | |- context [Reqb ?a ?b] =>
        first [ rewrite (Reqb_true a b) by lra
              | rewrite (Reqb_false a b) by lra ]
    end.

(** ** Scalar proximity functions *)

Lemma proximity_score_near (d M k : R) :
  d <= 0 -> calculate_proximity_score d M k = 100.
Proof. intros H. unfold calculate_proximity_score. now rcompare. Qed.

Lemma proximity_score_far (d M k : R) :
  0 < d -> M <= d -> calculate_proximity_score d M k = 0.
Proof. intros H1 H2. unfold calculate_proximity_score. now rcompare. Qed.

Lemma proximity_score_between (d M k : R) :
  0 < d < M ->
  calculate_proximity_score d M k = Rmax 0 (Rmin 100 (100 * exp (- k * (d / M)))).
Proof. intros H. unfold calculate_proximity_score. now rcompare. Qed.

Lemma proximity_score_range (d M k : R) :
  0 <= calculate_proximity_score d M k <= 100.
Proof.
  unfold calculate_proximity_score, Rgeb.
  destruct (Rleb d 0); [lra |].
  destruct (Rleb M d); [lra |].
  split; [apply Rmax_l |].
  apply Rmax_lub; [lra | apply Rmin_l].
Qed.

Lemma decay_below_one (k x : R) : 0 < k -> 0 < x -> exp (- k * x) < 1.
Proof.
  intros Hk Hx. rewrite <- exp_0. apply exp_increasing. nra.
Qed.

(** C5: with [max_distance_km > 0] and [decay_factor > 0] the score is
    exactly 100 at a distance [<= 0], exactly 0 at a distance
    [>= max_distance_km] and [100 * exp (- decay_factor * distance /
    max_distance_km)] in between; it lies in [[0, 100]] and is strictly
    decreasing in the distance on the open interval. *)
Theorem C5_proximity_score (M k : R) (HM : 0 < M) (Hk : 0 < k) :
  (forall d, d <= 0 -> calculate_proximity_score d M k = 100)
  /\ (forall d, M <= d -> calculate_proximity_score d M k = 0)
  /\ (forall d, 0 < d < M ->
        calculate_proximity_score d M k = 100 * exp (- k * d / M))
  /\ (forall d, 0 <= calculate_proximity_score d M k <= 100)
  /\ (forall d1 d2, 0 < d1 -> d1 < d2 -> d2 < M ->
        calculate_proximity_score d2 M k < calculate_proximity_score d1 M k).
Proof.
  assert (Hmid : forall d, 0 < d < M ->
            calculate_proximity_score d M k = 100 * exp (- k * d / M)).
  { intros d Hd. rewrite proximity_score_between by assumption.
    replace (- k * d / M) with (- k * (d / M)) by (field; lra).
    assert (Hx : 0 < d / M) by (apply Rdiv_lt_0_compat; lra).
    pose proof (exp_pos (- k * (d / M))) as Hp.
    pose proof (decay_below_one k (d / M) Hk Hx) as Hl.
    rewrite Rmin_right by lra. rewrite Rmax_right by lra. reflexivity. }
  repeat split.
  - intros d Hd. now apply proximity_score_near.
  - intros d Hd. apply proximity_score_far; lra.
  - exact Hmid.
  - apply proximity_score_range.
  - apply proximity_score_range.
  - intros d1 d2 H1 H12 H2.
    rewrite (Hmid d1) by lra. rewrite (Hmid d2) by lra.
    apply Rmult_lt_compat_l; [lra |].
    apply exp_increasing.
    assert (HkM : 0 < k * / M).
    { apply Rmult_lt_0_compat; [lra | apply Rinv_0_lt_compat; lra]. }
    replace (- k * d2 / M) with (- (k * / M * d2)) by (field; lra).
    replace (- k * d1 / M) with (- (k * / M * d1)) by (field; lra).
    apply Ropp_lt_contravar. apply Rmult_lt_compat_l; assumption.
Qed.

Lemma C5_proximity_score_witness :
  calculate_proximity_score 0 500 2 = 100
  /\ calculate_proximity_score 500 500 2 = 0
  /\ calculate_proximity_score 100 500 2 = 100 * exp (- 2 * 100 / 500)
  /\ calculate_proximity_score 200 500 2 < calculate_proximity_score 100 500 2.
Proof.
  destruct (C5_proximity_score 500 2 ltac:(lra) ltac:(lra))
    as (Hnear & Hfar & Hmid & _ & Hdec).
  repeat split.
  - apply Hnear; lra.
  - apply Hfar; lra.
  - apply Hmid; lra.
  - apply Hdec; lra.
Defined.

(** C4 (as amended): the shipping cost factor is exactly
    [min_factor + distance_km * base_cost_per_km], with no floor; it is at
    least [min_factor] whenever [distance_km * base_cost_per_km] is not
    negative. *)
Theorem C4_shipping_cost_factor (d c m : R) :
  calculate_shipping_cost_factor d c m = m + d * c
  /\ (0 <= d * c -> m <= calculate_shipping_cost_factor d c m).
Proof.
  unfold calculate_shipping_cost_factor. split; [reflexivity | lra].
Qed.

Lemma C4_shipping_cost_factor_witness :
  calculate_shipping_cost_factor 100 (5 / 1000) 1 = 1 + 100 * (5 / 1000)
  /\ 1 <= calculate_shipping_cost_factor 100 (5 / 1000) 1.
Proof.
  destruct (C4_shipping_cost_factor 100 (5 / 1000) 1) as [Heq Hge].
  split; [exact Heq | apply Hge; lra].
Defined.

(** C4, counterexample: at a distance of -100 km with the default cost per
    kilometre and the default minimum factor 1 the result is 1/2: it is not
    floored at the minimum factor and lies below it. *)
Lemma C4_no_floor_counterexample :
  calculate_shipping_cost_factor (-100) default_base_cost_per_km
    default_min_factor = 1 / 2
  /\ calculate_shipping_cost_factor (-100) default_base_cost_per_km
       default_min_factor
     <> Rmax default_min_factor
          (default_min_factor + (-100) * default_base_cost_per_km)
  /\ ~ default_min_factor
       <= calculate_shipping_cost_factor (-100) default_base_cost_per_km
            default_min_factor.
Proof.
  unfold calculate_shipping_cost_factor, default_base_cost_per_km,
    default_min_factor.
  repeat split.
  - lra.
  - rewrite Rmax_left by lra. lra.
  - lra.
Qed.

(** ** Distance *)

Lemma atan2_0_1 : atan2 0 1 = 0.
Proof.
  unfold atan2. rcompare.
  replace (0 / 1) with 0 by lra. apply atan_0.
Qed.

(** A point is at distance 0 from itself, whatever its coordinates. *)
Lemma haversine_same_point (lat lon : R) :
  haversine_distance lat lon lat lon = 0.
Proof.
  unfold haversine_distance, radians.
  replace ((lat - lat) * PI / 180 / 2) with 0 by lra.
  replace ((lon - lon) * PI / 180 / 2) with 0 by lra.
  rewrite sin_0.
  replace (0 ^ 2 + cos (lat * PI / 180) * cos (lat * PI / 180) * 0 ^ 2)
    with 0 by ring.
  rewrite Rminus_0_r, sqrt_0, sqrt_1, atan2_0_1. ring.
Qed.

Lemma travel_time_near (d v : R) : d <= 0 -> estimate_travel_time d v = Ok 0.
Proof. intros H. unfold estimate_travel_time. now rcompare. Qed.

Lemma travel_time_raises (d v : R) (e : exn) :
  estimate_travel_time d v = Raise e -> e = ZeroDivisionError.
Proof.
  unfold estimate_travel_time, fdiv.
  destruct (Rleb d 0); [discriminate |].
  destruct (Reqb v 0); [| discriminate].
  intros H. now inversion H.
Qed.

Lemma calculate_proximity_raises (self : ProximityAnalyzer)
  (mlat mlon clat clon : R) (vid vname cid cname : string)
  (mid : option string) (e : exn) :
  calculate_proximity self mlat mlon clat clon vid vname cid cname mid
  = Raise e ->
  e = ZeroDivisionError.
Proof.
  unfold calculate_proximity.
  destruct (estimate_travel_time _ _) eqn:Ht; simpl; [discriminate |].
  intros H. inversion H; subst. eapply travel_time_raises; eassumption.
Qed.

Lemma calculate_proximity_same_point (self : ProximityAnalyzer)
  (lat lon : R) (vid vname cid cname : string) (mid : option string) :
  calculate_proximity self lat lon lat lon vid vname cid cname mid
  = Ok (mkProximityScore vid vname cid cname mid 0 100 (Some 0)
          (Some default_min_factor)).
Proof.
  unfold calculate_proximity. rewrite haversine_same_point.
  rewrite travel_time_near by lra. simpl.
  rewrite proximity_score_near by lra.
  unfold calculate_shipping_cost_factor.
  replace (default_min_factor + 0 * default_base_cost_per_km)
    with default_min_factor by ring.
  reflexivity.
Qed.

(** C3 (as amended): [Coordinate.validate] answers [True] exactly for a
    latitude in [[-90, 90]] and a longitude in [[-180, 180]], but no
    proximity operation calls it and none reports [InvalidCoordinate] or
    [InvalidDistance]: [calculate_proximity] raises neither, and the only
    exception [estimate_travel_time] can raise is [ZeroDivisionError];
    coordinates out of range are used as they are (a point paired with
    itself yields distance 0 and score 100 whatever its coordinates); a
    distance [<= 0], negative included, is scored 100 and given travel
    time 0. *)
Theorem C3_validation_not_enforced :
  (forall c : Coordinate,
     validate c = true
     <-> (-90 <= latitude c <= 90 /\ -180 <= longitude c <= 180))
  /\ (forall self mlat mlon clat clon vid vname cid cname mid,
        calculate_proximity self mlat mlon clat clon vid vname cid cname mid
        <> Raise InvalidCoordinate
        /\ calculate_proximity self mlat mlon clat clon vid vname cid cname
             mid
           <> Raise InvalidDistance)
  /\ (forall d v e, estimate_travel_time d v = Raise e -> e = ZeroDivisionError)
  /\ (forall self lat lon vid vname cid cname mid,
        exists ps,
          calculate_proximity self lat lon lat lon vid vname cid cname mid
          = Ok ps
          /\ ps_distance_km ps = 0 /\ ps_proximity_score ps = 100)
  /\ (forall d M k, d <= 0 -> calculate_proximity_score d M k = 100)
  /\ (forall d v, d <= 0 -> estimate_travel_time d v = Ok 0).
Proof.
  split; [| split; [| split; [| split; [| split]]]].
  - intros [lat lon]. unfold validate. simpl.
    rewrite !andb_true_iff, !Rleb_spec. tauto.
  - intros. split; intros H;
      apply calculate_proximity_raises in H; discriminate.
  - intros. eapply travel_time_raises; eassumption.
  - intros. eexists. rewrite calculate_proximity_same_point.
    split; [reflexivity | split; reflexivity].
  - intros. now apply proximity_score_near.
  - intros. now apply travel_time_near.
Qed.

(** C3, counterexample: the latitude 91 is out of range, yet the distance
    from the point (91, 0) to itself is computed (0 km) and
    [calculate_proximity] returns a score of 100 instead of reporting
    [InvalidCoordinate]; the negative distance -1 is scored 100 and given a
    travel time of 0 hours instead of being reported as [InvalidDistance]. *)
Lemma C3_out_of_range_accepted_counterexample :
  validate (mkCoordinate 91 0) = false
  /\ haversine_distance 91 0 91 0 = 0
  /\ calculate_proximity default_analyzer 91 0 91 0 "V-001" "Vendor" "DC-001"
       "Center" None
     = Ok (mkProximityScore "V-001" "Vendor" "DC-001" "Center" None 0 100
             (Some 0) (Some 1))
  /\ calculate_proximity default_analyzer 91 0 91 0 "V-001" "Vendor" "DC-001"
       "Center" None
     <> Raise InvalidCoordinate
  /\ calculate_proximity_score (-1) 500 2 = 100
  /\ estimate_travel_time (-1) 60 = Ok 0
  /\ estimate_travel_time (-1) 60 <> Raise InvalidDistance.
Proof.
  split; [| split; [| split; [| split; [| split; [| split]]]]].
  - unfold validate. simpl. now rcompare.
  - apply haversine_same_point.
  - apply calculate_proximity_same_point.
  - rewrite calculate_proximity_same_point. discriminate.
  - apply proximity_score_near. lra.
  - apply travel_time_near. lra.
  - rewrite travel_time_near by lra. discriminate.
Qed.

(** ** Competitiveness *)

Lemma competitiveness_range (p mn mx avg s : R) :
  calculate_competitiveness_score p mn mx avg = Ok s -> 0 <= s <= 100.
Proof.
  unfold calculate_competitiveness_score, fdiv.
  destruct (Reqb mx mn).
  - intros H. inversion H. lra.
  - destruct (Rltb p avg); [destruct (Reqb avg 0) |]; simpl;
      try discriminate; intros H; inversion H;
      (split; [apply Rmax_l | apply Rmax_lub; [lra | apply Rmin_l]]).
Qed.


Lemma competitiveness_returns (p mn mx avg : R) :
  mx = mn \/ avg <> 0 \/ avg <= p ->
  exists s, calculate_competitiveness_score p mn mx avg = Ok s.
Proof.
  intros H. unfold calculate_competitiveness_score, fdiv.
  destruct (Reqb mx mn) eqn:E; [eauto |].
  destruct (Rltb p avg) eqn:Ep.
  - apply Rltb_spec in Ep.
    destruct H as [H | [H | H]].
    + apply Reqb_true in H. congruence.
    + rewrite (Reqb_false _ _ H). simpl. eauto.
    + lra.
  - simpl. eauto.
Qed.




(** ** Serialisation *)

Lemma round_if_truthy_zero (ndigits : nat) :
  round_if_truthy (Some 0) ndigits = PNone.
Proof. unfold round_if_truthy. now rcompare. Qed.

(** A proximity score computed at a distance [<= 0] carries the travel time
    0.0. *)
Lemma calculate_proximity_near (self : ProximityAnalyzer)
  (mlat mlon clat clon : R) (vid vname cid cname : string)
  (mid : option string) :
  haversine_distance mlat mlon clat clon <= 0 ->
  exists ps,
    calculate_proximity self mlat mlon clat clon vid vname cid cname mid
    = Ok ps
    /\ ps_travel_time_estimate_hours ps = Some 0.
Proof.
  intros H. unfold calculate_proximity.
  rewrite travel_time_near by assumption. cbn [bind].
  eexists. split; reflexivity.
Qed.

(** C9: serialisation turns an optional float that is present but zero into
    [None]: [z_score] and [expected_price] of an [AnomalyFlag], and
    [travel_time_estimate_hours] of a [ProximityScore], which is 0.0 for
    every score computed at a distance [<= 0]. *)
Theorem C9_zero_serialised_as_None (isoformat : datetime -> string)
  (flag : AnomalyFlag) (ps : ProximityScore) :
  (af_z_score flag = Some 0 ->
   item "z_score" (AnomalyFlag_to_dict isoformat flag) = Some PNone)
  /\ (af_expected_price flag = Some 0 ->
      item "expected_price" (AnomalyFlag_to_dict isoformat flag) = Some PNone)
  /\ (ps_travel_time_estimate_hours ps = Some 0 ->
      item "travel_time_estimate_hours" (ProximityScore_to_dict ps)
      = Some PNone)
  /\ (forall self mlat mlon clat clon vid vname cid cname mid,
        haversine_distance mlat mlon clat clon <= 0 ->
        exists ps',
          calculate_proximity self mlat mlon clat clon vid vname cid cname mid
          = Ok ps'
          /\ ps_travel_time_estimate_hours ps' = Some 0
          /\ item "travel_time_estimate_hours" (ProximityScore_to_dict ps')
             = Some PNone).
Proof.
  split; [| split; [| split]].
  - intros H. unfold AnomalyFlag_to_dict. cbn [item String.eqb Ascii.eqb Bool.eqb].
    rewrite H. now rewrite round_if_truthy_zero.
  - intros H. unfold AnomalyFlag_to_dict. cbn [item String.eqb Ascii.eqb Bool.eqb].
    rewrite H. now rewrite round_if_truthy_zero.
  - intros H. unfold ProximityScore_to_dict.
    cbn [item String.eqb Ascii.eqb Bool.eqb].
    rewrite H. now rewrite round_if_truthy_zero.
  - intros self mlat mlon clat clon vid vname cid cname mid H.
    destruct (calculate_proximity_near self mlat mlon clat clon vid vname cid
                cname mid H) as (ps' & Hps & Ht).
    exists ps'. split; [exact Hps | split; [exact Ht |]].
    unfold ProximityScore_to_dict.
    cbn [item String.eqb Ascii.eqb Bool.eqb].
    rewrite Ht. now rewrite round_if_truthy_zero.
Qed.

Lemma C9_zero_serialised_as_None_witness :
  let flag :=
    mkAnomalyFlag "id-0" "SKU-001" "Widget" "V-001" "Vendor" (Some "MKT-1")
      None PRICE_DROP LOW (Some 0) 5 0 (Some 0) "flat" 0%Z in
  let ps :=
    mkProximityScore "V-001" "Vendor" "DC-001" "Center" None 0 100 (Some 0)
      (Some 1) in
  item "z_score" (AnomalyFlag_to_dict (fun _ => "t") flag) = Some PNone
  /\ item "expected_price" (AnomalyFlag_to_dict (fun _ => "t") flag)
     = Some PNone
  /\ item "travel_time_estimate_hours" (ProximityScore_to_dict ps) = Some PNone
  /\ exists ps',
       calculate_proximity default_analyzer 10 20 10 20 "V-001" "Vendor"
         "DC-001" "Center" None = Ok ps'
       /\ ps_travel_time_estimate_hours ps' = Some 0
       /\ item "travel_time_estimate_hours" (ProximityScore_to_dict ps')
          = Some PNone.
Proof.
  intros flag ps.
  destruct (C9_zero_serialised_as_None (fun _ => "t") flag ps)
    as (Hz & He & Ht & Hc).
  split; [apply Hz; reflexivity |].
  split; [apply He; reflexivity |].
  split; [apply Ht; reflexivity |].
  apply Hc. rewrite haversine_same_point. apply Rle_refl.
Defined.

(** ** The stable sort *)

Section SortFacts.
Context {A : Type}.
Variable leb : A -> A -> bool.

Lemma insert_perm (x : A) (l : list A) : Permutation (insert leb x l) (x :: l).
Proof.
  induction l as [| y l IH]; simpl; [reflexivity |].
  destruct (leb x y); [reflexivity |].
  rewrite IH. apply perm_swap.
Qed.

Lemma sort_perm (l : list A) : Permutation (sort leb l) l.
Proof.
  induction l as [| x l IH]; simpl; [reflexivity |].
  rewrite insert_perm. now constructor.
Qed.

Lemma sort_length (l : list A) : List.length (sort leb l) = List.length l.
Proof. apply Permutation_length, sort_perm. Qed.

Lemma sort_In (x : A) (l : list A) : In x (sort leb l) <-> In x l.
Proof.
  split; apply Permutation_in; [| symmetry]; apply sort_perm.
Qed.

(** Stability: elements that may stand before one another keep their
    order, so a class of such elements is filtered out of the sorted list
    as it is filtered out of the original one. *)
Lemma insert_filter (p : A -> bool) (x : A) (l : list A) :
  (forall a b, p a = true -> p b = true -> leb a b = true) ->
  filter p (insert leb x l) = filter p (x :: l).
Proof.
  intros Hp. induction l as [| y l IH]; [reflexivity |].
  simpl. destruct (leb x y) eqn:Hxy; [reflexivity |].
  simpl. simpl in IH. rewrite IH.
  destruct (p x) eqn:Hx, (p y) eqn:Hy; try reflexivity.
  rewrite (Hp x y Hx Hy) in Hxy. discriminate.
Qed.

Lemma sort_filter (p : A -> bool) (l : list A) :
  (forall a b, p a = true -> p b = true -> leb a b = true) ->
  filter p (sort leb l) = filter p l.
Proof.
  intros Hp. induction l as [| x l IH]; [reflexivity |].
  simpl sort. rewrite insert_filter by assumption.
  simpl. now rewrite IH.
Qed.

Hypothesis leb_total : forall a b, leb a b = true \/ leb b a = true.
Hypothesis leb_trans :
  forall a b c, leb a b = true -> leb b c = true -> leb a c = true.

Let le (a b : A) : Prop := leb a b = true.

Lemma insert_sorted (x : A) (l : list A) :
  StronglySorted le l -> StronglySorted le (insert leb x l).
Proof.
  induction 1 as [| y l Hs IH Hy]; simpl.
  - constructor; constructor.
  - destruct (leb x y) eqn:Hxy.
    + constructor; [now constructor |].
      constructor; [exact Hxy |].
      eapply Forall_impl; [| exact Hy].
      intros z Hz. eapply leb_trans; eassumption.
    + constructor; [exact IH |].
      assert (Hyx : le y x) by (destruct (leb_total x y); congruence).
      rewrite Forall_forall in *. intros z Hz.
      apply (Permutation_in _ (insert_perm x l)) in Hz.
      destruct Hz as [<- | Hz]; [exact Hyx | now apply Hy].
Qed.

Lemma sort_sorted (l : list A) : StronglySorted le (sort leb l).
Proof.
  induction l as [| x l IH]; simpl; [constructor | now apply insert_sorted].
Qed.

End SortFacts.

Lemma sort_Rleb_sorted (l : list R) : StronglySorted Rle (sort Rleb l).
Proof.
  assert (H : StronglySorted (fun a b => Rleb a b = true) (sort Rleb l)).
  { apply sort_sorted.
    - apply Rleb_total.
    - intros a b c Hab Hbc. apply Rleb_spec in Hab, Hbc.
      apply Rleb_true. lra. }
  induction H as [| x s Hs IH Hx]; constructor; [exact IH |].
  eapply Forall_impl; [| exact Hx].
  intros a Ha. now apply Rleb_spec.
Qed.

Lemma sort_by_key_sorted {A : Type} (key : A -> R) (l : list A) :
  StronglySorted (fun a b => key a <= key b) (sort_by_key key l).
Proof.
  assert (H : StronglySorted (fun a b => Rleb (key a) (key b) = true)
                (sort_by_key key l)).
  { apply sort_sorted.
    - intros a b. apply Rleb_total.
    - intros a b c Hab Hbc. apply Rleb_spec in Hab, Hbc.
      apply Rleb_true. lra. }
  induction H as [| x s Hs IH Hx]; constructor; [exact IH |].
  eapply Forall_impl; [| exact Hx].
  intros a Ha. now apply Rleb_spec.
Qed.

Lemma sort_by_key_reverse_sorted {A : Type} (key : A -> R) (l : list A) :
  StronglySorted (fun a b => key b <= key a) (sort_by_key_reverse key l).
Proof.
  assert (H : StronglySorted (fun a b => Rleb (key b) (key a) = true)
                (sort_by_key_reverse key l)).
  { apply sort_sorted.
    - intros a b. destruct (Rleb_total (key a) (key b)); auto.
    - intros a b c Hab Hbc. apply Rleb_spec in Hab, Hbc.
      apply Rleb_true. lra. }
  induction H as [| x s Hs IH Hx]; constructor; [exact IH |].
  eapply Forall_impl; [| exact Hx].
  intros a Ha. now apply Rleb_spec.
Qed.

Lemma sort_by_nat_key_sorted {A : Type} (key : A -> nat) (l : list A) :
  StronglySorted (fun a b => (key a <= key b)%nat) (sort_by_nat_key key l).
Proof.
  assert (H : StronglySorted (fun a b => Nat.leb (key a) (key b) = true)
                (sort_by_nat_key key l)).
  { apply sort_sorted.
    - intros a b. rewrite !Nat.leb_le. lia.
    - intros a b c. rewrite !Nat.leb_le. lia. }
  induction H as [| x s Hs IH Hx]; constructor; [exact IH |].
  eapply Forall_impl; [| exact Hx].
  intros a Ha. now apply Nat.leb_le.
Qed.

(** ** Sums, minima and maxima *)

(** The mathematical sum of a list, to compare [py_sum] with. *)
Definition total (l : list R) : R := fold_right Rplus 0 l.

Lemma fold_left_Rplus (l : list R) (a : R) :
  fold_left Rplus l a = a + total l.
Proof.
  revert a. induction l as [| x l IH]; intros a; simpl; [lra |].
  rewrite IH. lra.
Qed.

Lemma py_sum_total (l : list R) : py_sum l = total l.
Proof. unfold py_sum. rewrite fold_left_Rplus. lra. Qed.

Lemma fold_left_Rmin (l : list R) (a : R) :
  In (fold_left Rmin l a) (a :: l)
  /\ forall p, In p (a :: l) -> fold_left Rmin l a <= p.
Proof.
  revert a. induction l as [| x l IH]; intros a; simpl.
  - split; [now left | intros p [<- | []]; lra].
  - destruct (IH (Rmin a x)) as [Hin Hle]. split.
    + destruct Hin as [Hin | Hin]; [| now right; right].
      rewrite <- Hin. unfold Rmin. destruct (Rle_dec a x); auto.
    + intros p Hp.
      assert (Hm : fold_left Rmin l (Rmin a x) <= Rmin a x)
        by (apply Hle; now left).
      destruct Hp as [<- | [<- | Hp]].
      * pose proof (Rmin_l a x). lra.
      * pose proof (Rmin_r a x). lra.
      * apply Hle. now right.
Qed.

Lemma fold_left_Rmax (l : list R) (a : R) :
  In (fold_left Rmax l a) (a :: l)
  /\ forall p, In p (a :: l) -> p <= fold_left Rmax l a.
Proof.
  revert a. induction l as [| x l IH]; intros a; simpl.
  - split; [now left | intros p [<- | []]; lra].
  - destruct (IH (Rmax a x)) as [Hin Hle]. split.
    + destruct Hin as [Hin | Hin]; [| now right; right].
      rewrite <- Hin. unfold Rmax. destruct (Rle_dec a x); auto.
    + intros p Hp.
      assert (Hm : Rmax a x <= fold_left Rmax l (Rmax a x))
        by (apply Hle; now left).
      destruct Hp as [<- | [<- | Hp]].
      * pose proof (Rmax_l a x). lra.
      * pose proof (Rmax_r a x). lra.
      * apply Hle. now right.
Qed.

Lemma py_min_spec (l : list R) :
  l <> [] -> In (py_min l) l /\ forall p, In p l -> py_min l <= p.
Proof.
  destruct l as [| x l]; [congruence | intros _]. apply fold_left_Rmin.
Qed.

Lemma py_max_spec (l : list R) :
  l <> [] -> In (py_max l) l /\ forall p, In p l -> p <= py_max l.
Proof.
  destruct l as [| x l]; [congruence | intros _]. apply fold_left_Rmax.
Qed.

Lemma even_mod2 (n : nat) : Nat.Even n -> (n mod 2 =? 0)%nat = true.
Proof.
  intros [k ->]. apply Nat.eqb_eq.
  rewrite Nat.mul_comm. apply Nat.Div0.mod_mul.
Qed.

Lemma odd_mod2 (n : nat) : Nat.Odd n -> (n mod 2 =? 0)%nat = false.
Proof.
  intros [k ->]. apply Nat.eqb_neq.
  rewrite Nat.add_comm, Nat.mul_comm, Nat.Div0.mod_add. discriminate.
Qed.

(** ** Statistics *)

(** Past the emptiness test the seven fields are these expressions. *)
Lemma calculate_statistics_nonempty (prices : list R) :
  prices <> [] ->
  calculate_statistics prices
  = let n := List.length prices in
    let sorted_prices := sort Rleb prices in
    let mean := py_sum prices / INR n in
    mkStatistics mean
      (if (n mod 2 =? 0)%nat
       then (nth (n / 2 - 1) sorted_prices 0 + nth (n / 2) sorted_prices 0) / 2
       else nth (n / 2) sorted_prices 0)
      (if (1 <? n)%nat
       then sqrt (py_sum (map (fun p => (p - mean) ^ 2) prices) / INR (n - 1))
       else 0)
      (py_min prices) (py_max prices) (py_max prices - py_min prices)
      (if Rgtb mean 0
       then (if (1 <? n)%nat
             then sqrt (py_sum (map (fun p => (p - mean) ^ 2) prices)
                        / INR (n - 1))
             else 0) / mean
       else 0).
Proof.
  destruct prices as [| x l]; [congruence | reflexivity].
Qed.

(** C6: [calculate_statistics] returns, for a non-empty list of [n]
    prices, mean = sum / n; median = the middle element of the sorted list
    for odd [n] and the average of its two central elements for even [n];
    the Bessel-corrected standard deviation (divisor [n - 1]) for [n > 1]
    and 0 for [n <= 1]; the minimum, the maximum and range = max - min;
    cv = std_dev / mean when mean > 0 and 0 otherwise.  On the empty list
    every field is 0, and the function is total: no error is raised. *)
Theorem C6_calculate_statistics (prices : list R) :
  let n := List.length prices in
  let s := calculate_statistics prices in
  let sorted_prices := sort Rleb prices in
  let mean := total prices / INR n in
  calculate_statistics [] = mkStatistics 0 0 0 0 0 0 0
  /\ (prices <> [] ->
      (Permutation sorted_prices prices /\ StronglySorted Rle sorted_prices)
      /\ st_mean s = mean
      /\ (Nat.Odd n -> st_median s = nth (n / 2) sorted_prices 0)
      /\ (Nat.Even n ->
          st_median s
          = (nth (n / 2 - 1) sorted_prices 0 + nth (n / 2) sorted_prices 0) / 2)
      /\ ((1 < n)%nat ->
          st_std_dev s
          = sqrt (total (map (fun p => (p - mean) ^ 2) prices) / (INR n - 1)))
      /\ ((n <= 1)%nat -> st_std_dev s = 0)
      /\ (In (st_min s) prices /\ forall p, In p prices -> st_min s <= p)
      /\ (In (st_max s) prices /\ forall p, In p prices -> p <= st_max s)
      /\ st_range s = st_max s - st_min s
      /\ (0 < st_mean s -> st_cv s = st_std_dev s / st_mean s)
      /\ (st_mean s <= 0 -> st_cv s = 0)).
Proof.
  intros n s sorted_prices mean. split; [reflexivity |].
  intros Hne. subst s.
  rewrite (calculate_statistics_nonempty prices Hne).
  cbv zeta. fold n. rewrite !py_sum_total. fold mean.
  cbn [st_mean st_median st_std_dev st_min st_max st_range st_cv].
  split; [split; [apply sort_perm | apply sort_Rleb_sorted] |].
  split; [reflexivity |].
  split; [intros Hodd; now rewrite (odd_mod2 n Hodd) |].
  split; [intros Heven; now rewrite (even_mod2 n Heven) |].
  split.
  { intros Hn. rewrite (proj2 (Nat.ltb_lt 1 n) Hn).
    rewrite minus_INR by lia. reflexivity. }
  split; [intros Hn; now rewrite (proj2 (Nat.ltb_ge 1 n) Hn) |].
  split; [now apply py_min_spec |].
  split; [now apply py_max_spec |].
  split; [reflexivity |].
  split.
  - intros Hpos. unfold Rgtb. now rewrite (Rltb_true _ _ Hpos).
  - intros Hnp. unfold Rgtb. now rewrite (Rltb_false _ _ Hnp).
Qed.

(** On the prices 3, 1, 2: mean 2, median 2, standard deviation 1, minimum
    1, maximum 3, range 2 and coefficient of variation 1/2. *)
Example calculate_statistics_3_1_2 :
  calculate_statistics [3; 1; 2] = mkStatistics 2 2 1 1 3 2 (1 / 2).
Proof.
  rewrite calculate_statistics_nonempty by discriminate.
  cbv zeta. cbn [List.length Nat.modulo Nat.div Nat.divmod fst snd Nat.eqb
                 Nat.ltb Nat.leb Nat.sub nth sort insert map].
  unfold py_sum, py_min, py_max. cbn [fold_left INR].
  repeat (progress (cbn [insert nth]; rcompare)).
  replace ((0 + 3 + 1 + 2) / (1 + 1 + 1)) with 2 by lra.
  replace ((0 + (3 - 2) ^ 2 + (1 - 2) ^ 2 + (2 - 2) ^ 2) / (1 + 1)) with 1
    by (simpl; lra).
  rewrite sqrt_1. rcompare.
  rewrite (Rmin_right 3 1), (Rmin_left 1 2) by lra.
  rewrite (Rmax_left 3 1), (Rmax_left 3 2) by lra.
  f_equal; lra.
Qed.

Lemma C6_calculate_statistics_witness :
  (st_mean (calculate_statistics [3; 1; 2]) = total [3; 1; 2] / INR 3
   /\ st_median (calculate_statistics [3; 1; 2])
      = nth 1 (sort Rleb [3; 1; 2]) 0
   /\ st_cv (calculate_statistics [3; 1; 2])
      = st_std_dev (calculate_statistics [3; 1; 2])
        / st_mean (calculate_statistics [3; 1; 2]))
  /\ st_median (calculate_statistics [4; 2])
     = (nth 0 (sort Rleb [4; 2]) 0 + nth 1 (sort Rleb [4; 2]) 0) / 2
  /\ (st_std_dev (calculate_statistics [-1]) = 0
      /\ st_cv (calculate_statistics [-1]) = 0).
Proof.
  split; [| split].
  - destruct (C6_calculate_statistics [3; 1; 2]) as [_ H].
    destruct (H ltac:(discriminate))
      as (_ & Hmean & Hodd & _ & _ & _ & _ & _ & _ & Hcv & _).
    split; [exact Hmean | split].
    + apply Hodd. exists 1%nat. reflexivity.
    + apply Hcv. rewrite calculate_statistics_3_1_2. cbn [st_mean]. lra.
  - destruct (C6_calculate_statistics [4; 2]) as [_ H].
    destruct (H ltac:(discriminate)) as (_ & _ & _ & Heven & _).
    apply Heven. exists 1%nat. reflexivity.
  - destruct (C6_calculate_statistics [-1]) as [_ H].
    destruct (H ltac:(discriminate))
      as (_ & Hmean & _ & _ & _ & Hsd & _ & _ & _ & _ & Hcv).
    split; [apply Hsd; cbn; lia |].
    apply Hcv. rewrite Hmean. unfold total. cbn [fold_right List.length INR].
    lra.
Defined.

(** ** Vendor coverage *)

(** The distribution centers of a vendor, in the order of the input. *)
Definition matching (vendor : Vendor) (distribution_centers : list Center)
  : list Center :=
  filter (fun dc => negb (other_vendor dc (get (v_vendor_id vendor) EmptyString)))
    distribution_centers.

(** The distance from the market to a distribution center, as
    [analyze_vendor_coverage] passes the coordinates. *)
Definition center_distance (market : Market) (dc : Center) : R :=
  haversine_distance (get (m_latitude market) 0) (get (m_longitude market) 0)
    (get (dc_latitude dc) 0) (get (dc_longitude dc) 0).

(** The rank-weighted average the documentation describes: the [i]-th
    score (from 0) weighs [1 / (i + 1)], and the weighted sum is divided by
    the sum of the weights. *)
Definition rank_weighted_average (scores : list R) : R :=
  let ranks := seq 0 (List.length scores) in
  total (map (fun i => nth i scores 0 * (1 / (INR i + 1))) ranks)
  / total (map (fun i => 1 / (INR i + 1)) ranks).

Lemma calculate_proximity_ok (self : ProximityAnalyzer)
  (mlat mlon clat clon : R) (vid vname cid cname : string)
  (mid : option string) (ps : ProximityScore) :
  calculate_proximity self mlat mlon clat clon vid vname cid cname mid = Ok ps ->
  ps_distance_km ps = haversine_distance mlat mlon clat clon
  /\ ps_proximity_score ps
     = calculate_proximity_score (ps_distance_km ps) (max_distance_km self)
         (decay_factor self).
Proof.
  unfold calculate_proximity.
  destruct (estimate_travel_time _ _); cbn [bind]; [| discriminate].
  intros H. inversion H. split; reflexivity.
Qed.

Lemma calculate_proximity_total (self : ProximityAnalyzer)
  (mlat mlon clat clon : R) (vid vname cid cname : string)
  (mid : option string) :
  average_speed_kmh self <> 0 ->
  exists ps,
    calculate_proximity self mlat mlon clat clon vid vname cid cname mid = Ok ps.
Proof.
  intros Hv. unfold calculate_proximity, estimate_travel_time, fdiv.
  destruct (Rleb _ 0); [cbn [bind]; eauto |].
  rewrite (Reqb_false _ _ Hv). cbn [bind]. eauto.
Qed.

Lemma collect_scores_ok (self : ProximityAnalyzer) (market : Market)
  (vendor : Vendor) (dcs : list Center) (scores : list ProximityScore) :
  collect_scores self market vendor dcs = Ok scores ->
  map ps_distance_km scores = map (center_distance market) (matching vendor dcs)
  /\ Forall (fun ps =>
               ps_proximity_score ps
               = calculate_proximity_score (ps_distance_km ps)
                   (max_distance_km self) (decay_factor self))
       scores.
Proof.
  revert scores. induction dcs as [| dc dcs IH]; intros scores.
  - cbn. intros H. inversion H. split; constructor.
  - cbn [collect_scores matching filter]. fold (matching vendor dcs).
    destruct (other_vendor dc _); cbn [negb]; [apply IH |].
    destruct (calculate_proximity _ _ _ _ _ _ _ _ _ _) as [ps |] eqn:Hps;
      cbn [bind]; [| discriminate].
    destruct (collect_scores self market vendor dcs) as [rest |];
      cbn [bind]; [| discriminate].
    intros H. inversion H; subst. clear H.
    destruct (IH rest eq_refl) as [Hd Hs].
    destruct (calculate_proximity_ok _ _ _ _ _ _ _ _ _ _ _ Hps) as [Hd0 Hs0].
    split.
    + cbn [map]. rewrite Hd, Hd0. reflexivity.
    + constructor; assumption.
Qed.

Lemma collect_scores_total (self : ProximityAnalyzer) (market : Market)
  (vendor : Vendor) (dcs : list Center) :
  average_speed_kmh self <> 0 ->
  exists scores, collect_scores self market vendor dcs = Ok scores.
Proof.
  intros Hv. induction dcs as [| dc dcs [rest IH]]; [cbn; eauto |].
  cbn [collect_scores]. destruct (other_vendor dc _); [eauto |].
  edestruct calculate_proximity_total as [ps Hps]; [exact Hv |].
  rewrite Hps, IH. cbn [bind]. eauto.
Qed.

(** What [analyze_vendor_coverage] returns, by the list of scores
    collected. *)
Lemma analyze_vendor_coverage_ok (self : ProximityAnalyzer) (market : Market)
  (vendor : Vendor) (dcs : list Center) (cov : VendorCoverage) :
  analyze_vendor_coverage self market vendor dcs = Ok cov ->
  exists scores,
    collect_scores self market vendor dcs = Ok scores
    /\ vc_center_count cov = List.length scores
    /\ vc_centers cov = sort_by_key ps_distance_km scores
    /\ (scores = [] -> vc_coverage_score cov = 0)
    /\ (scores <> [] -> vc_coverage_score cov = weighted_score (vc_centers cov)).
Proof.
  unfold analyze_vendor_coverage.
  destruct (collect_scores self market vendor dcs) as [scores |];
    cbn [bind]; [| discriminate].
  intros H. exists scores. split; [reflexivity |].
  destruct scores as [| ps scores].
  - injection H as <-. cbn. repeat split; congruence.
  - injection H as <-. cbn [vc_center_count vc_centers vc_coverage_score].
    split; [exact (sort_length _ (ps :: scores)) |].
    split; [reflexivity |].
    split; [discriminate | reflexivity].
Qed.

Lemma analyze_vendor_coverage_total (self : ProximityAnalyzer)
  (market : Market) (vendor : Vendor) (dcs : list Center) :
  average_speed_kmh self <> 0 ->
  exists cov, analyze_vendor_coverage self market vendor dcs = Ok cov.
Proof.
  intros Hv. unfold analyze_vendor_coverage.
  destruct (collect_scores_total self market vendor dcs Hv) as [scores ->].
  cbn [bind]. destruct scores; eauto.
Qed.

(** The score never grows with the distance, whatever the parameters. *)
Lemma proximity_score_antitone (d1 d2 M k : R) :
  d1 <= d2 ->
  calculate_proximity_score d2 M k <= calculate_proximity_score d1 M k.
Proof.
  intros H.
  destruct (Rle_or_lt d1 0) as [H1 | H1].
  { rewrite (proximity_score_near d1) by assumption.
    apply proximity_score_range. }
  destruct (Rle_or_lt M d2) as [H2 | H2].
  { rewrite (proximity_score_far d2) by lra. apply proximity_score_range. }
  rewrite !proximity_score_between by lra.
  assert (HM : 0 < / M) by (apply Rinv_0_lt_compat; lra).
  assert (Hd : d1 / M <= d2 / M).
  { unfold Rdiv. apply Rmult_le_compat_r; lra. }
  assert (Hd1 : 0 < d1 / M) by (apply Rdiv_lt_0_compat; lra).
  destruct (Rle_or_lt 0 k) as [Hk | Hk].
  - assert (He : exp (- k * (d2 / M)) <= exp (- k * (d1 / M))).
    { destruct (Req_dec (- k * (d2 / M)) (- k * (d1 / M))) as [-> | Hne];
        [lra |].
      left. apply exp_increasing. nra. }
    apply Rle_max_compat_l. apply Rle_min_compat_l. lra.
  - assert (He : forall x, 0 < x -> 1 < exp (- k * x)).
    { intros x Hx. rewrite <- exp_0. apply exp_increasing. nra. }
    pose proof (He (d1 / M) Hd1). pose proof (He (d2 / M) ltac:(lra)).
    rewrite !Rmin_left by lra. lra.
Qed.

Definition rank_weight (i : nat) : R := 1 / (INR i + 1).




(** The weighted sum of the code, scores zipped with weights, is the sum
    over the ranks. *)
Lemma weighted_sum_by_rank (scores : list ProximityScore) (a : nat) :
  total (map (fun pw => ps_proximity_score (fst pw) * snd pw)
           (combine scores (map rank_weight (seq a (List.length scores)))))
  = total (map (fun i =>
                  nth (i - a) (map ps_proximity_score scores) 0 * rank_weight i)
             (seq a (List.length scores))).
Proof.
  revert a. induction scores as [| ps scores IH]; intros a; [reflexivity |].
  cbn [List.length seq map combine total fold_right fst snd].
  fold (total (map (fun pw => ps_proximity_score (fst pw) * snd pw)
                 (combine scores
                    (map rank_weight (seq (S a) (List.length scores)))))).
  rewrite IH, Nat.sub_diag. cbn [nth]. f_equal.
  unfold total. f_equal. apply map_ext_in.
  intros i Hi. apply in_seq in Hi.
  replace (i - a)%nat with (S (i - S a)) by lia. reflexivity.
Qed.

Lemma weighted_score_by_rank (scores : list ProximityScore) :
  weighted_score scores
  = rank_weighted_average (map ps_proximity_score scores).
Proof.
  unfold weighted_score, rank_weighted_average, rank_weights.
  rewrite !py_sum_total, length_map.
  change (fun i : nat => 1 / (INR i + 1)) with rank_weight.
  rewrite weighted_sum_by_rank. f_equal.
  unfold total. f_equal. apply map_ext. intros i.
  now rewrite Nat.sub_0_r.
Qed.


Lemma div_between (lo hi x w : R) :
  0 < w -> lo * w <= x <= hi * w -> lo <= x / w <= hi.
Proof.
  intros Hw H.
  assert (Hx : x / w * w = x) by (field; lra).
  split; apply (Rmult_le_reg_r w); lra.
Qed.


(** Sample data: a market at the origin, and a vendor with one center at
    the market and one at the antipode of the market. *)
Definition sample_market : Market :=
  mkMarket (Some 0) (Some 0) (Some "MKT-0") (Some "Origin").

Definition sample_vendor : Vendor := mkVendor (Some "V-001") (Some "Vendor").

Definition center_here : Center :=
  mkCenter (Some "V-001") (Some "DC-001") (Some "Here") (Some 0) (Some 0).

Definition center_antipode : Center :=
  mkCenter (Some "V-001") (Some "DC-002") (Some "Antipode") (Some 0) (Some 180).

Lemma atan2_1_0 : atan2 1 0 = PI / 2.
Proof. unfold atan2. now rcompare. Qed.

(** Half of the equator. *)
Lemma haversine_antipode : haversine_distance 0 0 0 180 = 6371 * PI.
Proof.
  unfold haversine_distance, radians, EARTH_RADIUS_KM.
  replace ((0 - 0) * PI / 180 / 2) with 0 by lra.
  replace ((180 - 0) * PI / 180 / 2) with (PI / 2) by lra.
  replace (0 * PI / 180) with 0 by lra.
  rewrite sin_0, cos_0, sin_PI2.
  replace (0 ^ 2 + 1 * 1 * 1 ^ 2) with 1 by ring.
  replace (1 - 1) with 0 by ring.
  rewrite sqrt_0, sqrt_1, atan2_1_0. lra.
Qed.

Lemma calculate_proximity_antipode (vid vname cid cname : string)
  (mid : option string) :
  calculate_proximity default_analyzer 0 0 0 180 vid vname cid cname mid
  = Ok (mkProximityScore vid vname cid cname mid (6371 * PI) 0
          (Some (6371 * PI / 60)) (Some (1 + 6371 * PI * (5 / 1000)))).
Proof.
  pose proof PI2_1 as Hpi.
  unfold calculate_proximity. rewrite haversine_antipode.
  unfold estimate_travel_time, fdiv, default_analyzer,
    default_average_speed_kmh.
  cbn [average_speed_kmh max_distance_km decay_factor].
  rcompare. cbn [bind].
  rewrite proximity_score_far by (unfold default_max_distance_km; lra).
  reflexivity.
Qed.

Lemma matching_nonempty (self : ProximityAnalyzer) (market : Market)
  (vendor : Vendor) (dcs : list Center) (scores : list ProximityScore) :
  collect_scores self market vendor dcs = Ok scores ->
  List.length scores = List.length (matching vendor dcs).
Proof.
  intros H. destruct (collect_scores_ok _ _ _ _ _ H) as [Hd _].
  apply (f_equal (@List.length R)) in Hd. now rewrite !length_map in Hd.
Qed.

(** C1 (as amended): for a vendor with at least one center, the coverage
    that [analyze_vendor_coverage] returns lists the centers nearest first,
    and its [coverage_score] is the weighted average of their proximity
    scores, the [i]-th nearest (from 0) weighing [1 / (i + 1)], divided by
    the sum of the weights.  A further center does not always keep the
    score as high: it may lower it. *)
Theorem C1_coverage_score (self : ProximityAnalyzer) (market : Market)
  (vendor : Vendor) (dcs : list Center) (cov : VendorCoverage) :
  analyze_vendor_coverage self market vendor dcs = Ok cov ->
  matching vendor dcs <> [] ->
  Permutation (map ps_distance_km (vc_centers cov))
    (map (center_distance market) (matching vendor dcs))
  /\ StronglySorted (fun a b => ps_distance_km a <= ps_distance_km b)
       (vc_centers cov)
  /\ Forall (fun ps =>
               ps_proximity_score ps
               = calculate_proximity_score (ps_distance_km ps)
                   (max_distance_km self) (decay_factor self))
       (vc_centers cov)
  /\ vc_coverage_score cov
     = rank_weighted_average (map ps_proximity_score (vc_centers cov)).
Proof.
  intros Hcov Hm.
  destruct (analyze_vendor_coverage_ok _ _ _ _ _ Hcov)
    as (scores & Hscores & Hcount & Hcenters & _ & Hscore).
  destruct (collect_scores_ok _ _ _ _ _ Hscores) as [Hd Hs].
  assert (Hne : scores <> []).
  { intros ->. apply matching_nonempty in Hscores.
    destruct (matching vendor dcs); [congruence | discriminate]. }
  assert (Hperm : Permutation (vc_centers cov) scores)
    by (rewrite Hcenters; apply sort_perm).
  assert (Hne' : vc_centers cov <> []).
  { intros E. rewrite E in Hperm. apply Permutation_nil in Hperm. congruence. }
  assert (Hs' : Forall (fun ps =>
                          ps_proximity_score ps
                          = calculate_proximity_score (ps_distance_km ps)
                              (max_distance_km self) (decay_factor self))
                  (vc_centers cov)).
  { rewrite Forall_forall in *. intros ps Hps. apply Hs.
    eapply Permutation_in; eassumption. }
  assert (Hsorted : StronglySorted
                      (fun a b => ps_distance_km a <= ps_distance_km b)
                      (vc_centers cov))
    by (rewrite Hcenters; apply sort_by_key_sorted).
  specialize (Hscore Hne).
  split; [rewrite <- Hd; now apply Permutation_map |].
  split; [exact Hsorted |].
  split; [exact Hs' |].
  rewrite Hscore. apply weighted_score_by_rank.
Qed.

Lemma C1_coverage_score_witness :
  exists cov,
    analyze_vendor_coverage default_analyzer sample_market sample_vendor
      [center_here; center_antipode] = Ok cov
    /\ vc_coverage_score cov
       = rank_weighted_average (map ps_proximity_score (vc_centers cov)).
Proof.
  destruct (analyze_vendor_coverage_total default_analyzer sample_market
              sample_vendor [center_here; center_antipode]) as [cov Hcov].
  { unfold default_analyzer, default_average_speed_kmh. cbn. lra. }
  exists cov. split; [exact Hcov |].
  destruct (C1_coverage_score default_analyzer sample_market sample_vendor
              [center_here; center_antipode] cov Hcov ltac:(discriminate))
    as (_ & _ & _ & Hs).
  exact Hs.
Defined.

(** C1, counterexample: a vendor with one center at the market has
    coverage score 100; with a further center at the antipode of the
    market, the nearest distance still being 0, its coverage score is
    200/3: the further center lowers the score. *)
Lemma C1_further_center_lowers_counterexample :
  exists one two,
    analyze_vendor_coverage default_analyzer sample_market sample_vendor
      [center_here] = Ok one
    /\ analyze_vendor_coverage default_analyzer sample_market sample_vendor
         [center_here; center_antipode] = Ok two
    /\ vc_nearest_center_distance_km one = Finite 0
    /\ vc_nearest_center_distance_km two = Finite 0
    /\ vc_coverage_score one = 100
    /\ vc_coverage_score two = 200 / 3
    /\ vc_coverage_score two < vc_coverage_score one.
Proof.
  pose proof PI2_1 as Hpi.
  unfold analyze_vendor_coverage.
  cbn [collect_scores sample_market sample_vendor center_here center_antipode
       other_vendor dc_vendor_id v_vendor_id get String.eqb Ascii.eqb Bool.eqb
       negb m_latitude m_longitude dc_latitude dc_longitude].
  rewrite calculate_proximity_same_point, calculate_proximity_antipode.
  cbn [bind].
  do 2 eexists. split; [reflexivity |]. split; [reflexivity |].
  cbn [vc_nearest_center_distance_km vc_coverage_score].
  unfold sort_by_key, weighted_score, rank_weights, py_min, py_sum.
  cbn [sort insert ps_distance_km]. rcompare.
  cbn [map List.length seq combine fold_left fst snd ps_distance_km
       ps_proximity_score INR].
  rewrite (Rmin_left 0 (6371 * PI)) by lra.
  repeat split; lra.
Qed.

(** ** Vendors of a market *)





Lemma Forall2_In_l {A B : Type} (P : A -> B -> Prop) (l : list A)
  (l' : list B) (x : A) :
  Forall2 P l l' -> In x l -> exists y, In y l' /\ P x y.
Proof.
  induction 1 as [| a b l l' Hab H IH]; intros Hin; [destruct Hin |].
  destruct Hin as [<- | Hin].
  - exists b. split; [now left | exact Hab].
  - destruct (IH Hin) as (y & Hy & Hxy). exists y. split; [now right | exact Hxy].
Qed.

Lemma Forall2_In_r {A B : Type} (P : A -> B -> Prop) (l : list A)
  (l' : list B) (y : B) :
  Forall2 P l l' -> In y l' -> exists x, In x l /\ P x y.
Proof.
  induction 1 as [| a b l l' Hab H IH]; intros Hin; [destruct Hin |].
  destruct Hin as [<- | Hin].
  - exists a. split; [now left | exact Hab].
  - destruct (IH Hin) as (x & Hx & Hxy). exists x. split; [now right | exact Hxy].
Qed.



Definition sample_vendor_without_center : Vendor :=
  mkVendor (Some "V-002") (Some "Other").


(** ** Regional variance *)

(** A pricing record that carries a SKU, a market and a price only. *)
Definition quote (sku market : string) (price : R) : PricingRecord :=
  mkPricingRecord (Some sku) (Some market) None None None None None
    (Some price).

(** Sample data: SKU-A is quoted in MKT-1 and MKT-2, SKU-B in MKT-R and
    MKT-1. *)
Definition sku_b_data : list PricingRecord :=
  [ quote "SKU-B" "MKT-R" 10; quote "SKU-B" "MKT-1" 30 ].

Definition two_sku_data : list PricingRecord :=
  [ quote "SKU-A" "MKT-1" 10; quote "SKU-A" "MKT-2" 20 ] ++ sku_b_data.

Lemma region_avg_quote (market sku market' : string) (price : R)
  (rest : dict (list PricingRecord)) :
  price <> 0 ->
  region_avg ((market, [quote sku market' price]) :: rest)
  = (market, (price, market)) :: region_avg rest.
Proof.
  intros Hp. unfold region_avg, priced, has_price, quote.
  cbn [flat_map fst snd filter rec_unit_price]. unfold truthy.
  rewrite (Reqb_false _ _ Hp).
  cbn [negb map get rec_unit_price rec_region_name List.length app].
  unfold py_sum. cbn [fold_left INR].
  replace ((0 + price) / 1) with price by field.
  reflexivity.
Qed.

Lemma variance_of_default
  (sku_id product_name currency base_id base_name : string)
  (base_price price : R) (market_id region_name : string) :
  0 < base_price ->
  variance_of default_detector sku_id product_name currency base_id base_name
    base_price (market_id, (price, region_name))
  = Ok (mkPricingVariance sku_id product_name base_id base_name base_price
          currency market_id region_name price (price - base_price)
          ((price - base_price) / base_price * 100)
          ((price - base_price) / base_price * 100 / 1)).
Proof.
  intros Hb. unfold variance_of, default_detector, fdiv.
  cbn [regional_adjustments item get fst snd]. unfold Rgtb.
  rewrite (Rltb_true _ _ Hb). rcompare. reflexivity.
Qed.

(** Evaluate [sku_variances] on two markets with one quote each. *)
Ltac eval_sku_variances mean_expr mean :=
  unfold sku_variances;
  rewrite !region_avg_quote by lra;
  cbn [List.length Nat.ltb Nat.leb bind quote get rec_product_name
       rec_currency_code region_avg flat_map supplied_base String.eqb
       Ascii.eqb Bool.eqb item map fst snd];
  unfold py_sum; cbn [fold_left INR];
  try replace mean_expr with mean by lra;
  cbn [filter fst negb String.eqb Ascii.eqb Bool.eqb mapM];
  rewrite !variance_of_default by lra; cbn [bind].

(** SKU-A is not quoted in MKT-R: the base is the global average 15, and
    the local [base_region_id] becomes ["global_avg"]. *)
Lemma sku_a_falls_back :
  sku_variances default_detector (Some "MKT-R") "SKU-A"
    [ ("MKT-1", [quote "SKU-A" "MKT-1" 10]);
      ("MKT-2", [quote "SKU-A" "MKT-2" 20]) ]
  = Ok (Some "global_avg",
        [ mkPricingVariance "SKU-A" "SKU-A" "global_avg" "Global Average" 15
            "USD" "MKT-1" "MKT-1" 10 (10 - 15) ((10 - 15) / 15 * 100)
            ((10 - 15) / 15 * 100 / 1);
          mkPricingVariance "SKU-A" "SKU-A" "global_avg" "Global Average" 15
            "USD" "MKT-2" "MKT-2" 20 (20 - 15) ((20 - 15) / 15 * 100)
            ((20 - 15) / 15 * 100 / 1) ]).
Proof.
  eval_sku_variances ((0 + 10 + 20) / (1 + 1)) 15. reflexivity.
Qed.

(** SKU-B with [base_region_id] still the supplied MKT-R: MKT-R is the
    base, at its own average 10. *)
Lemma sku_b_with_supplied_base :
  sku_variances default_detector (Some "MKT-R") "SKU-B"
    [ ("MKT-R", [quote "SKU-B" "MKT-R" 10]);
      ("MKT-1", [quote "SKU-B" "MKT-1" 30]) ]
  = Ok (Some "MKT-R",
        [ mkPricingVariance "SKU-B" "SKU-B" "MKT-R" "MKT-R" 10 "USD" "MKT-1"
            "MKT-1" 30 (30 - 10) ((30 - 10) / 10 * 100)
            ((30 - 10) / 10 * 100 / 1) ]).
Proof.
  eval_sku_variances ((0 + 10 + 30) / (1 + 1)) 20. reflexivity.
Qed.

(** SKU-B after the fallback of an earlier SKU: ["global_avg"] is no market
    of SKU-B, so the base is the global average 20 again. *)
Lemma sku_b_after_fallback :
  sku_variances default_detector (Some "global_avg") "SKU-B"
    [ ("MKT-R", [quote "SKU-B" "MKT-R" 10]);
      ("MKT-1", [quote "SKU-B" "MKT-1" 30]) ]
  = Ok (Some "global_avg",
        [ mkPricingVariance "SKU-B" "SKU-B" "global_avg" "Global Average" 20
            "USD" "MKT-R" "MKT-R" 10 (10 - 20) ((10 - 20) / 20 * 100)
            ((10 - 20) / 20 * 100 / 1);
          mkPricingVariance "SKU-B" "SKU-B" "global_avg" "Global Average" 20
            "USD" "MKT-1" "MKT-1" 30 (30 - 20) ((30 - 20) / 20 * 100)
            ((30 - 20) / 20 * 100 / 1) ]).
Proof.
  eval_sku_variances ((0 + 10 + 30) / (1 + 1)) 20. reflexivity.
Qed.

(** C2, at the failing input: with MKT-R supplied as the base region and
    SKU-A (not quoted in MKT-R) grouped before SKU-B (quoted in MKT-R at an
    average of 10), every [PricingVariance] of SKU-B has the base region
    ["global_avg"] and the base price 20, and MKT-R itself is compared with
    that average; on the records of SKU-B alone the base is MKT-R at 10.  The
    fallback of SKU-A has overwritten the supplied [base_region_id] for the
    SKUs after it. *)
Theorem C2_supplied_base_lost_after_fallback :
  (exists vs,
     calculate_regional_variance default_detector two_sku_data (Some "MKT-R")
     = Ok vs
     /\ map pv_sku_id vs = ["SKU-A"; "SKU-A"; "SKU-B"; "SKU-B"]
     /\ map pv_base_region_id vs
        = ["global_avg"; "global_avg"; "global_avg"; "global_avg"]
     /\ map pv_comparison_region_id vs = ["MKT-1"; "MKT-2"; "MKT-R"; "MKT-1"]
     /\ map pv_base_price vs = [15; 15; 20; 20])
  /\ (exists vs,
        calculate_regional_variance default_detector sku_b_data (Some "MKT-R")
        = Ok vs
        /\ map pv_sku_id vs = ["SKU-B"]
        /\ map pv_base_region_id vs = ["MKT-R"]
        /\ map pv_comparison_region_id vs = ["MKT-1"]
        /\ map pv_base_price vs = [10]).
Proof.
  split.
  - unfold calculate_regional_variance.
    change (group_by_sku_market two_sku_data)
      with [ ("SKU-A", [ ("MKT-1", [quote "SKU-A" "MKT-1" 10]);
                         ("MKT-2", [quote "SKU-A" "MKT-2" 20]) ]);
             ("SKU-B", [ ("MKT-R", [quote "SKU-B" "MKT-R" 10]);
                         ("MKT-1", [quote "SKU-B" "MKT-1" 30]) ]) ].
    cbn [sku_loop]. rewrite sku_a_falls_back. cbn [bind fst snd].
    rewrite sku_b_after_fallback. cbn [bind fst snd app].
    eexists. split; [reflexivity |]. repeat split.
  - unfold calculate_regional_variance.
    change (group_by_sku_market sku_b_data)
      with [ ("SKU-B", [ ("MKT-R", [quote "SKU-B" "MKT-R" 10]);
                         ("MKT-1", [quote "SKU-B" "MKT-1" 30]) ]) ].
    cbn [sku_loop]. rewrite sku_b_with_supplied_base. cbn [bind fst snd app].
    eexists. split; [reflexivity |]. repeat split.
Qed.

(** ** Anomaly detection *)

Lemma item_In {V : Type} (k : string) (d : list (string * V)) (v : V) :
  item k d = Some v -> exists k', In (k', v) d.
Proof.
  induction d as [| [k' v'] d IH]; cbn; [discriminate |].
  destruct (String.eqb k' k).
  - intros H. injection H as <-. exists k'. now left.
  - intros H. destruct (IH H) as [k'' Hk]. exists k''. now right.
Qed.

Lemma mapM_total {A B : Type} (f : A -> result B) (l : list A) :
  (forall x, In x l -> exists y, f x = Ok y) ->
  exists ys, mapM f l = Ok ys.
Proof.
  induction l as [| x l IH]; intros H; [cbn; eauto |].
  cbn [mapM].
  destruct (H x (or_introl eq_refl)) as [y ->].
  destruct IH as [ys ->]; [intros z Hz; apply H; now right |].
  cbn [bind]. eauto.
Qed.

(** Updating a dictionary keeps a property of its values. *)
Lemma dict_update_Forall {V : Type} (P : V -> Prop) (k : string)
  (f : option V -> V) (d : dict V) :
  Forall (fun e => P (snd e)) d ->
  P (f None) -> (forall v, P v -> P (f (Some v))) ->
  Forall (fun e => P (snd e)) (dict_update k f d).
Proof.
  intros Hd Hnone Hsome. induction Hd as [| [k' v] d Hv Hd IH]; cbn.
  - constructor; [exact Hnone | constructor].
  - cbn [snd] in Hv.
    destruct (String.eqb k' k); constructor; cbn [snd]; auto.
Qed.

(** Every market of every SKU of the grouping holds at least one record. *)
Definition markets_filled (markets : dict (list PricingRecord)) : Prop :=
  Forall (fun m => snd m <> []) markets.

Lemma fold_left_invariant {A B : Type} (P : A -> Prop) (f : A -> B -> A)
  (l : list B) (a : A) :
  P a -> (forall a' b, P a' -> P (f a' b)) -> P (fold_left f l a).
Proof.
  intros Ha Hf. revert a Ha.
  induction l as [| b l IH]; intros a Ha; [exact Ha |].
  cbn [fold_left]. apply IH. now apply Hf.
Qed.

Lemma group_by_sku_market_filled (pricing_data : list PricingRecord) :
  Forall (fun e => markets_filled (snd e)) (group_by_sku_market pricing_data).
Proof.
  unfold group_by_sku_market.
  apply (fold_left_invariant
           (Forall (fun e : string * dict (list PricingRecord) =>
                      markets_filled (snd e)))).
  - constructor.
  - intros d record Hd.
    apply (dict_update_Forall markets_filled); [exact Hd | |].
    + cbn. constructor; [discriminate | constructor].
    + intros markets Hm. cbn [get]. unfold markets_filled.
      apply (dict_update_Forall (fun records : list PricingRecord =>
                                   records <> []));
        [exact Hm | discriminate |].
      intros records _. cbn [get]. destruct records; discriminate.
Qed.

Lemma variance_of_total (self : VarianceDetector)
  (sku_id product_name currency base_id base_name : string) (base_price : R)
  (entry : string * (R * string)) :
  Forall (fun kv => snd kv <> 0) (regional_adjustments self) ->
  exists v,
    variance_of self sku_id product_name currency base_id base_name base_price
      entry = Ok v.
Proof.
  intros Hadj. unfold variance_of, fdiv.
  assert (Hne : get (item (fst entry) (regional_adjustments self)) 1 <> 0).
  { destruct (item (fst entry) (regional_adjustments self)) as [a |] eqn:E;
      cbn [get]; [| lra].
    destruct (item_In _ _ _ E) as [k Hk].
    rewrite Forall_forall in Hadj. exact (Hadj _ Hk). }
  rewrite (Reqb_false _ _ Hne). cbn [bind]. eauto.
Qed.

Lemma sku_variances_total (self : VarianceDetector) (base : option string)
  (sku_id : string) (markets : dict (list PricingRecord)) :
  Forall (fun kv => snd kv <> 0) (regional_adjustments self) ->
  markets_filled markets ->
  exists r, sku_variances self base sku_id markets = Ok r.
Proof.
  intros Hadj Hm. unfold sku_variances.
  destruct (List.length markets <? 2)%nat eqn:Hlen; [eauto |].
  destruct markets as [| [m records] markets']; [discriminate |].
  apply Forall_inv in Hm. cbn [snd] in Hm.
  destruct records as [| first records]; [congruence |].
  cbn [bind].
  destruct (List.length (region_avg _) <? 2)%nat; [eauto |].
  match goal with
  | |- context [mapM ?f ?l] =>
      destruct (mapM_total f l) as [vs ->];
        [intros x _; now apply variance_of_total |]
  end.
  cbn [bind]. eauto.
Qed.

Lemma sku_loop_total (self : VarianceDetector) (base : option string)
  (sku_prices : dict (dict (list PricingRecord))) :
  Forall (fun kv => snd kv <> 0) (regional_adjustments self) ->
  Forall (fun e => markets_filled (snd e)) sku_prices ->
  exists vs, sku_loop self base sku_prices = Ok vs.
Proof.
  intros Hadj Hd. revert base.
  induction Hd as [| [sku_id markets] d Hm Hd IH]; intros base;
    [cbn; eauto |].
  cbn [sku_loop].
  destruct (sku_variances_total self base sku_id markets Hadj Hm) as [r ->].
  cbn [bind]. destruct (IH (fst r)) as [vs ->]. cbn [bind]. eauto.
Qed.

(** [calculate_regional_variance] returns whenever no adjustment factor is
    zero. *)
Lemma calculate_regional_variance_total (self : VarianceDetector)
  (pricing_data : list PricingRecord) (base : option string) :
  Forall (fun kv => snd kv <> 0) (regional_adjustments self) ->
  exists vs, calculate_regional_variance self pricing_data base = Ok vs.
Proof.
  intros Hadj. apply sku_loop_total; [exact Hadj |].
  apply group_by_sku_market_filled.
Qed.

Lemma In_issue (flags : list pending) (a : AnomalyFlag) :
  In a (issue flags) -> exists f n, In f flags /\ a = f n.
Proof.
  unfold issue. intros H. apply in_map_iff in H.
  destruct H as ([n f] & <- & Hin). exists f, n.
  split; [eapply in_combine_r; eassumption | reflexivity].
Qed.

Lemma In_numbered {A : Type} (l : list A) (x : A) (start : nat) :
  In x l -> exists n, In (n, x) (combine (seq start (List.length l)) l).
Proof.
  revert start. induction l as [| y l IH]; intros start Hin; [destruct Hin |].
  cbn [List.length seq combine]. destruct Hin as [-> | Hin].
  - exists start. now left.
  - destruct (IH (S start) Hin) as [n Hn]. exists n. now right.
Qed.

Lemma issue_In (flags : list pending) (f : pending) :
  In f flags -> exists n, In (f n) (issue flags).
Proof.
  intros H. destruct (In_numbered flags f 0 H) as [n Hn].
  exists n. unfold issue. apply in_map_iff. exists (n, f). split; auto.
Qed.

Lemma high_or_critical_spec (s : Severity) :
  high_or_critical s = true -> s = HIGH \/ s = CRITICAL.
Proof. destruct s; cbn; auto; discriminate. Qed.

Section DetectionFacts.
Variable uuid4 : nat -> string.
Variable now : nat -> datetime.
Variable fmt : nat -> R -> string.

Lemma observation_flag_type (self : VarianceDetector)
  (sku_id product_name : string) (stats : Statistics) (record : PricingRecord)
  (f : pending) (n : nat) :
  In f (observation_flag uuid4 now fmt self sku_id product_name stats record) ->
  af_anomaly_type (f n) <> REGIONAL_VARIANCE.
Proof.
  unfold observation_flag.
  destruct (Rleb _ 0); [intros [] |].
  destruct (_ || _); [| intros []].
  intros [<- | []]. cbn [af_anomaly_type].
  destruct (Rgtb _ 0); cbn [fst]; discriminate.
Qed.

Lemma sku_flags_type (self : VarianceDetector)
  (entry : string * list PricingRecord) (f : pending) (n : nat) :
  In f (sku_flags uuid4 now fmt self entry) ->
  af_anomaly_type (f n) <> REGIONAL_VARIANCE.
Proof.
  unfold sku_flags. destruct (snd entry) as [| first records]; [intros [] |].
  destruct (_ <? 2)%nat; [intros [] |].
  intros H. apply in_flat_map in H. destruct H as (record & _ & H).
  eapply observation_flag_type; eassumption.
Qed.

Lemma regional_flag_spec (self : VarianceDetector) (variance : PricingVariance)
  (f : pending) (n : nat) :
  In f (regional_flag uuid4 now fmt self variance) ->
  variance_threshold_pct self <= Rabs (af_variance_percentage (f n))
  /\ (af_severity (f n) = HIGH \/ af_severity (f n) = CRITICAL).
Proof.
  unfold regional_flag, Rgeb.
  destruct (Rleb _ _) eqn:Hthr; [| intros []].
  destruct (high_or_critical _) eqn:Hsev; [| intros []].
  intros [<- | []]. cbn [af_variance_percentage af_severity].
  split; [now apply Rleb_spec | now apply high_or_critical_spec].
Qed.

Lemma discover_regional (self : VarianceDetector)
  (pricing_data : list PricingRecord) (anomalies : list AnomalyFlag)
  (a : AnomalyFlag) :
  discover uuid4 now fmt self pricing_data = Ok anomalies ->
  In a anomalies ->
  af_anomaly_type a = REGIONAL_VARIANCE ->
  variance_threshold_pct self <= Rabs (af_variance_percentage a)
  /\ (af_severity a = HIGH \/ af_severity a = CRITICAL).
Proof.
  unfold discover.
  destruct (calculate_regional_variance self pricing_data None) as [vs |];
    cbn [bind]; [| discriminate].
  intros H Hin Htype. injection H as <-.
  destruct (In_issue _ _ Hin) as (f & n & Hf & ->).
  apply in_app_or in Hf. destruct Hf as [Hf | Hf].
  - apply in_flat_map in Hf. destruct Hf as (entry & _ & Hf).
    exfalso. eapply sku_flags_type; eassumption.
  - apply in_flat_map in Hf. destruct Hf as (variance & _ & Hf).
    eapply regional_flag_spec; eassumption.
Qed.

End DetectionFacts.

(** The order of the documentation, written out case by case: critical
    first, then high, medium, low.  [at_least_as_severe a b] says that an
    anomaly of severity [a] may stand before one of severity [b]. *)
Definition at_least_as_severe (a b : Severity) : Prop :=
  match a, b with
  | CRITICAL, _ => True
  | HIGH, CRITICAL => False
  | HIGH, _ => True
  | MEDIUM, CRITICAL => False
  | MEDIUM, HIGH => False
  | MEDIUM, _ => True
  | LOW, LOW => True
  | LOW, _ => False
  end.

(** The anomalies of one severity. *)
Definition has_severity (s : Severity) (a : AnomalyFlag) : bool :=
  match af_severity a, s with
  | CRITICAL, CRITICAL => true
  | HIGH, HIGH => true
  | MEDIUM, MEDIUM => true
  | LOW, LOW => true
  | _, _ => false
  end.

(** The sort key of the code ranks the severities in the documented
    order. *)
Lemma severity_order_spec (a b : Severity) :
  (severity_order a <= severity_order b)%nat <-> at_least_as_severe a b.
Proof.
  destruct a, b; cbn [severity_order at_least_as_severe]; split; intros H;
    try exact I; try lia; try contradiction.
Qed.

Lemma StronglySorted_impl {A : Type} (P Q : A -> A -> Prop) (l : list A) :
  (forall a b, P a b -> Q a b) -> StronglySorted P l -> StronglySorted Q l.
Proof.
  intros HPQ. induction 1 as [| x l Hl IH Hx]; constructor; [exact IH |].
  eapply Forall_impl; [| exact Hx]. intros b. apply HPQ.
Qed.

Lemma has_severity_spec (s : Severity) (a : AnomalyFlag) :
  has_severity s a = true <-> af_severity a = s.
Proof.
  unfold has_severity. destruct (af_severity a), s; split; intros H;
    try reflexivity; try discriminate.
Qed.

(** Sample data: one SKU quoted at 10 in MKT-1 and at 30 in MKT-2. *)
Definition spread_data : list PricingRecord :=
  [ quote "SKU-A" "MKT-1" 10; quote "SKU-A" "MKT-2" 30 ].

Lemma spread_data_variances :
  calculate_regional_variance default_detector spread_data None
  = Ok [ mkPricingVariance "SKU-A" "SKU-A" "global_avg" "Global Average" 20
           "USD" "MKT-1" "MKT-1" 10 (10 - 20) ((10 - 20) / 20 * 100)
           ((10 - 20) / 20 * 100 / 1);
         mkPricingVariance "SKU-A" "SKU-A" "global_avg" "Global Average" 20
           "USD" "MKT-2" "MKT-2" 30 (30 - 20) ((30 - 20) / 20 * 100)
           ((30 - 20) / 20 * 100 / 1) ].
Proof.
  unfold calculate_regional_variance.
  change (group_by_sku_market spread_data)
    with [ ("SKU-A", [ ("MKT-1", [quote "SKU-A" "MKT-1" 10]);
                       ("MKT-2", [quote "SKU-A" "MKT-2" 30]) ]) ].
  cbn [sku_loop].
  eval_sku_variances ((0 + 10 + 30) / (1 + 1)) 20.
  reflexivity.
Qed.

Lemma regional_flag_spread (uuid4 : nat -> string) (now : nat -> datetime)
  (fmt : nat -> R -> string) :
  exists f,
    In f (regional_flag uuid4 now fmt default_detector
            (mkPricingVariance "SKU-A" "SKU-A" "global_avg" "Global Average" 20
               "USD" "MKT-2" "MKT-2" 30 (30 - 20) ((30 - 20) / 20 * 100)
               ((30 - 20) / 20 * 100 / 1)))
    /\ forall n, af_anomaly_type (f n) = REGIONAL_VARIANCE
                 /\ af_market_id (f n) = Some "MKT-2"
                 /\ af_severity (f n) = CRITICAL.
Proof.
  unfold regional_flag, determine_severity, default_detector.
  cbn [pv_percentage_variance variance_threshold_pct].
  replace ((30 - 20) / 20 * 100) with 50 by lra.
  rewrite (Rabs_pos_eq 50) by lra. rcompare.
  cbn [orb high_or_critical existsb Severity_value String.eqb Ascii.eqb
       Bool.eqb].
  eexists. split; [now left |].
  intros n. repeat split.
Qed.

(** C7: every [regional_variance] anomaly of the list returned by
    [detect_anomalies] has [|percentage variance| >= variance_threshold_pct]
    and severity high or critical; the list is sorted by severity, critical
    first, then high, medium, low; and the anomalies of equal severity stand
    in the order of their discovery. *)
Theorem C7_detect_anomalies (uuid4 : nat -> string) (now : nat -> datetime)
  (fmt : nat -> R -> string) (self : VarianceDetector)
  (pricing_data : list PricingRecord)
  (historical_data : option (list PricingRecord))
  (result : list AnomalyFlag) :
  detect_anomalies uuid4 now fmt self pricing_data historical_data
  = Ok result ->
  (forall a,
     In a result -> af_anomaly_type a = REGIONAL_VARIANCE ->
     variance_threshold_pct self <= Rabs (af_variance_percentage a)
     /\ (af_severity a = HIGH \/ af_severity a = CRITICAL))
  /\ StronglySorted
       (fun a b => at_least_as_severe (af_severity a) (af_severity b))
       result
  /\ (exists discovered,
        discover uuid4 now fmt self pricing_data = Ok discovered
        /\ Permutation result discovered
        /\ forall s,
             filter (has_severity s) result
             = filter (has_severity s) discovered).
Proof.
  unfold detect_anomalies.
  destruct (discover uuid4 now fmt self pricing_data) as [discovered |] eqn:Hd;
    cbn [bind]; [| discriminate].
  intros H. injection H as <-.
  assert (Hperm :
            Permutation
              (sort_by_nat_key (fun x => severity_order (af_severity x))
                 discovered)
              discovered) by apply sort_perm.
  split; [| split].
  - intros a Hin Htype.
    eapply discover_regional; [exact Hd | | exact Htype].
    eapply Permutation_in; eassumption.
  - eapply StronglySorted_impl;
      [| apply (sort_by_nat_key_sorted
                  (fun x => severity_order (af_severity x)))].
    intros a b Hab. now apply severity_order_spec.
  - exists discovered. split; [reflexivity |]. split; [exact Hperm |].
    intros s. apply sort_filter.
    intros a b Ha Hb. apply has_severity_spec in Ha, Hb.
    apply Nat.leb_le. rewrite Ha, Hb. lia.
Qed.

Lemma C7_detect_anomalies_witness :
  exists result a,
    detect_anomalies (fun _ => "id") (fun _ => 0%Z) (fun _ _ => "x")
      default_detector spread_data None = Ok result
    /\ In a result
    /\ af_anomaly_type a = REGIONAL_VARIANCE
    /\ variance_threshold_pct default_detector
       <= Rabs (af_variance_percentage a)
    /\ (af_severity a = HIGH \/ af_severity a = CRITICAL).
Proof.
  destruct (regional_flag_spread (fun _ => "id") (fun _ => 0%Z)
              (fun _ _ => "x")) as (f & Hf & Hfn).
  assert (Hresult :
            exists result n,
              detect_anomalies (fun _ => "id") (fun _ => 0%Z)
                (fun _ _ => "x") default_detector spread_data None
              = Ok result
              /\ In (f n) result).
  { unfold detect_anomalies, discover. rewrite spread_data_variances.
    cbn [bind].
    match goal with
    | |- context [issue ?flags] =>
        destruct (issue_In flags f) as [n Hn]
    end.
    { apply in_or_app. right.
      cbn [flat_map]. apply in_or_app. right. apply in_or_app. now left. }
    eexists. exists n. split; [reflexivity |].
    apply (Permutation_in _ (Permutation_sym (sort_perm _ _))). exact Hn. }
  destruct Hresult as (result & n & Hresult & Hres).
  destruct (C7_detect_anomalies _ _ _ _ _ _ _ Hresult) as (Hregional & _).
  exists result, (f n).
  split; [exact Hresult |]. split; [exact Hres |].
  split; [apply Hfn |].
  apply Hregional; [exact Hres | apply Hfn].
Defined.

(** * Further properties of the engine *)

(** ** Scores and times *)

(** X1: for a decay factor that is not negative and every maximum
    distance, zero and negative ones included, the proximity score lies in
    [[0, 100]] and never grows with the distance.  (The exponent of
    [math.exp] is then never positive.) *)
Theorem X1_proximity_score_monotone (M k : R) (Hk : 0 <= k) :
  (forall d, 0 <= calculate_proximity_score d M k <= 100)
  /\ (forall d1 d2,
        d1 <= d2 ->
        calculate_proximity_score d2 M k <= calculate_proximity_score d1 M k)
  /\ (forall d,
        0 < d < M ->
        - k * (d / M) <= 0
        /\ calculate_proximity_score d M k = 100 * exp (- k * (d / M))).
Proof.
  split; [intros d; apply proximity_score_range |].
  split; [intros d1 d2 H; now apply proximity_score_antitone |].
  intros d Hd.
  assert (HdM : 0 < d / M) by (apply Rdiv_lt_0_compat; lra).
  assert (Hexp : - k * (d / M) <= 0) by nra.
  split; [exact Hexp |].
  rewrite proximity_score_between by lra.
  assert (He : 0 < exp (- k * (d / M)) <= 1).
  { split; [apply exp_pos |].
    destruct Hexp as [Hlt | Heq].
    - left. rewrite <- exp_0. now apply exp_increasing.
    - rewrite Heq, exp_0. lra. }
  rewrite Rmin_right by lra. rewrite Rmax_right by lra. reflexivity.
Qed.

Lemma X1_proximity_score_monotone_witness :
  calculate_proximity_score 300 (-5) 0 <= calculate_proximity_score 100 (-5) 0.
Proof.
  apply (proj1 (proj2 (X1_proximity_score_monotone (-5) 0 ltac:(lra)))). lra.
Defined.

(** X2: [estimate_travel_time] is 0 at a distance [<= 0], the quotient
    [distance / speed] at a positive distance and a speed that is not
    zero, and raises [ZeroDivisionError] exactly at a positive distance and
    speed zero; with a positive speed the time is never negative. *)
Theorem X2_estimate_travel_time (d v : R) :
  (d <= 0 -> estimate_travel_time d v = Ok 0)
  /\ (0 < d -> v <> 0 -> estimate_travel_time d v = Ok (d / v))
  /\ (estimate_travel_time d v = Raise ZeroDivisionError <-> 0 < d /\ v = 0)
  /\ (0 < v -> forall t, estimate_travel_time d v = Ok t -> 0 <= t).
Proof.
  split; [apply travel_time_near |].
  split.
  { intros Hd Hv. unfold estimate_travel_time, fdiv.
    rewrite (Rleb_false d 0) by lra. now rewrite (Reqb_false _ _ Hv). }
  split.
  { unfold estimate_travel_time, fdiv. split.
    - destruct (Rleb d 0) eqn:Hd; [discriminate |].
      destruct (Reqb v 0) eqn:Hv; [| discriminate].
      intros _. split; [| now apply Reqb_spec].
      destruct (Rle_or_lt d 0) as [H | H]; [| exact H].
      apply Rleb_true in H. congruence.
    - intros [Hd ->]. rewrite (Rleb_false d 0) by lra.
      now rewrite Reqb_true. }
  intros Hv t. unfold estimate_travel_time, fdiv.
  destruct (Rleb d 0) eqn:Hd.
  - intros H. injection H as <-. lra.
  - rewrite (Reqb_false v 0) by lra. intros H. injection H as <-.
    assert (0 < d).
    { destruct (Rle_or_lt d 0) as [H | H]; [| exact H].
      apply Rleb_true in H. congruence. }
    apply Rlt_le, Rdiv_lt_0_compat; assumption.
Qed.

Lemma X2_estimate_travel_time_witness :
  estimate_travel_time (-3) 60 = Ok 0
  /\ estimate_travel_time 120 60 = Ok (120 / 60)
  /\ estimate_travel_time 120 0 = Raise ZeroDivisionError.
Proof.
  split; [| split].
  - apply (proj1 (X2_estimate_travel_time (-3) 60)). lra.
  - apply (proj1 (proj2 (X2_estimate_travel_time 120 60))); lra.
  - apply (proj1 (proj2 (proj2 (X2_estimate_travel_time 120 0)))).
    split; lra.
Defined.

(** ** Z-scores and severities *)

(** X3: the z-score is 0 at the mean and 0 for a standard deviation of 0;
    for a positive standard deviation it is positive exactly above the
    mean and negative exactly below it. *)
Theorem X3_calculate_z_score (value mean std_dev : R) :
  calculate_z_score mean mean std_dev = 0
  /\ calculate_z_score value mean 0 = 0
  /\ (0 < std_dev ->
      (0 < calculate_z_score value mean std_dev <-> mean < value)
      /\ (calculate_z_score value mean std_dev < 0 <-> value < mean)).
Proof.
  split; [| split].
  - unfold calculate_z_score. destruct (Reqb std_dev 0); [reflexivity |].
    unfold Rdiv. replace (mean - mean) with 0 by ring. ring.
  - unfold calculate_z_score. now rewrite Reqb_true.
  - intros Hs. unfold calculate_z_score.
    rewrite (Reqb_false std_dev 0) by lra.
    assert (Hi : 0 < / std_dev) by now apply Rinv_0_lt_compat.
    unfold Rdiv. split; split; intros H; nra.
Qed.

Lemma X3_calculate_z_score_witness :
  (0 < calculate_z_score 12 10 2 <-> 10 < 12)
  /\ (calculate_z_score 12 10 2 < 0 <-> 12 < 10).
Proof.
  apply (proj2 (proj2 (X3_calculate_z_score 12 10 2))). lra.
Defined.

Lemma determine_severity_some (z v : R) :
  determine_severity (Some z) v
  = if Rleb 4 (Rabs z) || Rleb 50 (Rabs v) then CRITICAL
    else if Rleb 3 (Rabs z) || Rleb 30 (Rabs v) then HIGH
    else if Rleb 2 (Rabs z) || Rleb 15 (Rabs v) then MEDIUM
    else LOW.
Proof.
  unfold determine_severity, Rgeb, truthy.
  destruct (Reqb z 0) eqn:E; cbn [negb]; [| reflexivity].
  apply Reqb_spec in E. subst z. now rewrite Rabs_R0.
Qed.

Lemma orb_Rleb (a x b y : R) :
  Rleb a x || Rleb b y = true <-> a <= x \/ b <= y.
Proof. rewrite orb_true_iff, !Rleb_spec. tauto. Qed.

(** X4: [determine_severity] reads the absolute values only: it is
    critical exactly when [|z| >= 4] or [|variance| >= 50], low exactly
    when [|z| < 2] and [|variance| < 15]; an absent z-score counts as 0;
    and a larger [|z|] with a larger [|variance|] never gives a lower
    severity. *)
Theorem X4_determine_severity (z v : R) :
  (determine_severity (Some z) v = CRITICAL <-> 4 <= Rabs z \/ 50 <= Rabs v)
  /\ (determine_severity (Some z) v = LOW <-> Rabs z < 2 /\ Rabs v < 15)
  /\ determine_severity None v = determine_severity (Some 0) v
  /\ determine_severity (Some (- z)) (- v) = determine_severity (Some z) v
  /\ (forall z' v',
        Rabs z <= Rabs z' -> Rabs v <= Rabs v' ->
        (severity_order (determine_severity (Some z') v')
         <= severity_order (determine_severity (Some z) v))%nat).
Proof.
  split; [| split; [| split; [| split]]].
  - rewrite determine_severity_some.
    destruct (Rleb 4 (Rabs z) || Rleb 50 (Rabs v)) eqn:E.
    + apply orb_Rleb in E. tauto.
    + split; [| intros H; apply orb_Rleb in H; congruence].
      destruct (Rleb 3 (Rabs z) || Rleb 30 (Rabs v));
        [intros H; discriminate H |].
      destruct (Rleb 2 (Rabs z) || Rleb 15 (Rabs v));
        intros H; discriminate H.
  - rewrite determine_severity_some.
    destruct (Rleb 4 (Rabs z) || Rleb 50 (Rabs v)) eqn:E4.
    { apply orb_Rleb in E4. split; [discriminate | lra]. }
    destruct (Rleb 3 (Rabs z) || Rleb 30 (Rabs v)) eqn:E3.
    { apply orb_Rleb in E3. split; [discriminate | lra]. }
    destruct (Rleb 2 (Rabs z) || Rleb 15 (Rabs v)) eqn:E2.
    { apply orb_Rleb in E2. split; [discriminate | lra]. }
    split; [intros _ | reflexivity].
    apply orb_false_iff in E2. destruct E2 as [Ez Ev].
    split.
    + destruct (Rle_or_lt 2 (Rabs z)) as [H | H]; [| exact H].
      apply Rleb_true in H. congruence.
    + destruct (Rle_or_lt 15 (Rabs v)) as [H | H]; [| exact H].
      apply Rleb_true in H. congruence.
  - rewrite determine_severity_some. unfold determine_severity, Rgeb.
    now rewrite Rabs_R0.
  - rewrite !determine_severity_some, !Rabs_Ropp. reflexivity.
  - intros z' v' Hz Hv. rewrite !determine_severity_some.
    assert (Hmono : forall a b,
              Rleb a (Rabs z) || Rleb b (Rabs v) = true ->
              Rleb a (Rabs z') || Rleb b (Rabs v') = true).
    { intros a b H. apply orb_Rleb in H. apply orb_Rleb. lra. }
    destruct (Rleb 4 (Rabs z) || Rleb 50 (Rabs v)) eqn:E4.
    { rewrite (Hmono 4 50 E4). cbn. lia. }
    destruct (Rleb 3 (Rabs z) || Rleb 30 (Rabs v)) eqn:E3.
    { rewrite (Hmono 3 30 E3).
      destruct (Rleb 4 (Rabs z') || Rleb 50 (Rabs v')); cbn; lia. }
    destruct (Rleb 2 (Rabs z) || Rleb 15 (Rabs v)) eqn:E2.
    { rewrite (Hmono 2 15 E2).
      destruct (Rleb 4 (Rabs z') || Rleb 50 (Rabs v'));
        [| destruct (Rleb 3 (Rabs z') || Rleb 30 (Rabs v'))]; cbn; lia. }
    destruct (Rleb 4 (Rabs z') || Rleb 50 (Rabs v'));
      [| destruct (Rleb 3 (Rabs z') || Rleb 30 (Rabs v'));
         [| destruct (Rleb 2 (Rabs z') || Rleb 15 (Rabs v'))]];
      cbn; lia.
Qed.

Lemma X4_determine_severity_witness :
  (severity_order (determine_severity (Some (-5)%R) 60%R)
   <= severity_order (determine_severity (Some 1%R) 20%R))%nat.
Proof.
  apply (proj2 (proj2 (proj2 (proj2 (X4_determine_severity 1 20))))).
  - rewrite (Rabs_pos_eq 1), (Rabs_left (-5)) by lra. lra.
  - rewrite !Rabs_pos_eq by lra. lra.
Defined.

(** ** Great-circle distance *)

(** The quantity [a] of the haversine formula, in radians. *)
Definition haversine_a (phi1 phi2 dlambda : R) : R :=
  sin ((phi2 - phi1) / 2) ^ 2 + cos phi1 * cos phi2 * sin (dlambda / 2) ^ 2.

Lemma haversine_distance_a (lat1 lon1 lat2 lon2 : R) :
  haversine_distance lat1 lon1 lat2 lon2
  = let a := haversine_a (radians lat1) (radians lat2) (radians (lon2 - lon1)) in
    EARTH_RADIUS_KM * (2 * atan2 (sqrt a) (sqrt (1 - a))).
Proof.
  unfold haversine_distance, haversine_a. cbv zeta.
  replace (radians (lat2 - lat1)) with (radians lat2 - radians lat1)
    by (unfold radians; lra).
  reflexivity.
Qed.

Lemma sin_sqr_range (x : R) : 0 <= sin x ^ 2 <= 1.
Proof.
  pose proof (sin2_cos2 x) as H. unfold Rsqr in H.
  pose proof (pow2_ge_0 (sin x)). pose proof (pow2_ge_0 (cos x)).
  simpl in *. nra.
Qed.

Lemma cos_product (p q : R) :
  sin q ^ 2 + cos (p - q) * cos (p + q) = cos p ^ 2.
Proof.
  rewrite cos_plus, cos_minus.
  pose proof (sin2_cos2 p) as Hp. pose proof (sin2_cos2 q) as Hq.
  unfold Rsqr in Hp, Hq.
  replace (sin q ^ 2
           + (cos p * cos q + sin p * sin q) * (cos p * cos q - sin p * sin q))
    with (cos p ^ 2 * (sin q * sin q + cos q * cos q)
          + sin q ^ 2 * (1 - (sin p * sin p + cos p * cos p)))
    by ring.
  rewrite Hp, Hq. ring.
Qed.

(** [sin^2 ((phi2 - phi1) / 2) + cos phi1 * cos phi2] is the square of
    [cos ((phi1 + phi2) / 2)]. *)
Lemma haversine_pole_term (phi1 phi2 : R) :
  sin ((phi2 - phi1) / 2) ^ 2 + cos phi1 * cos phi2
  = cos ((phi1 + phi2) / 2) ^ 2.
Proof.
  rewrite <- (cos_product ((phi1 + phi2) / 2) ((phi2 - phi1) / 2)).
  replace ((phi1 + phi2) / 2 - (phi2 - phi1) / 2) with phi1 by lra.
  replace ((phi1 + phi2) / 2 + (phi2 - phi1) / 2) with phi2 by lra.
  reflexivity.
Qed.

Lemma cos_sqr_range (x : R) : 0 <= cos x ^ 2 <= 1.
Proof.
  pose proof (sin2_cos2 x) as H. unfold Rsqr in H.
  pose proof (pow2_ge_0 (sin x)). pose proof (pow2_ge_0 (cos x)).
  simpl in *. nra.
Qed.

(** [a] lies in [[0, 1]] for all arguments, so both square roots of the
    formula are taken of numbers that are not negative. *)
Lemma haversine_a_range (phi1 phi2 dlambda : R) :
  0 <= haversine_a phi1 phi2 dlambda <= 1.
Proof.
  unfold haversine_a.
  pose proof (sin_sqr_range ((phi2 - phi1) / 2)) as HA.
  pose proof (sin_sqr_range (dlambda / 2)) as Hs.
  pose proof (cos_sqr_range ((phi1 + phi2) / 2)) as HC.
  rewrite <- haversine_pole_term in HC.
  set (A := sin ((phi2 - phi1) / 2) ^ 2) in *.
  set (s := sin (dlambda / 2) ^ 2) in *.
  set (C := cos phi1 * cos phi2) in *.
  replace (A + C * s) with ((1 - s) * A + s * (A + C)) by ring.
  split; nra.
Qed.

Lemma atan2_quadrant (y x : R) :
  0 <= y -> 0 <= x -> 0 <= atan2 y x <= PI / 2.
Proof.
  intros Hy Hx. pose proof PI2_RGT_0 as Hpi. unfold atan2.
  destruct (Rltb 0 x) eqn:E.
  - apply Rltb_spec in E.
    assert (Hq : 0 <= y / x).
    { apply Rmult_le_pos; [exact Hy |]. apply Rlt_le, Rinv_0_lt_compat, E. }
    pose proof (atan_bound (y / x)) as Hb. split; [| lra].
    destruct Hq as [Hq | <-]; [| rewrite atan_0; lra].
    apply atan_increasing in Hq. rewrite atan_0 in Hq. lra.
  - rewrite (Rltb_false x 0) by lra.
    destruct (Rltb 0 y); [lra |].
    rewrite (Rltb_false y 0) by lra. lra.
Qed.

(** X5: the great-circle distance is symmetric in its two points and is 0
    between a point and itself, for all coordinates. *)
Theorem X5_haversine_symmetric (lat1 lon1 lat2 lon2 : R) :
  haversine_distance lat1 lon1 lat2 lon2
  = haversine_distance lat2 lon2 lat1 lon1
  /\ haversine_distance lat1 lon1 lat1 lon1 = 0.
Proof.
  split; [| apply haversine_same_point].
  rewrite !haversine_distance_a. cbv zeta.
  assert (Ha : haversine_a (radians lat1) (radians lat2) (radians (lon2 - lon1))
               = haversine_a (radians lat2) (radians lat1)
                   (radians (lon1 - lon2))).
  { unfold haversine_a, radians.
    replace ((lat1 * PI / 180 - lat2 * PI / 180) / 2)
      with (- ((lat2 * PI / 180 - lat1 * PI / 180) / 2)) by lra.
    replace ((lon1 - lon2) * PI / 180 / 2)
      with (- ((lon2 - lon1) * PI / 180 / 2)) by lra.
    rewrite !sin_neg. ring. }
  now rewrite Ha.
Qed.

(** X6: every score that [calculate_proximity] returns has a distance
    between 0 and half the circumference [EARTH_RADIUS_KM * PI], whatever
    the coordinates, in range or not. *)
Theorem X6_haversine_range (self : ProximityAnalyzer)
  (market_lat market_lon center_lat center_lon : R)
  (vendor_id vendor_name center_id center_name : string)
  (market_id : option string) (ps : ProximityScore) :
  calculate_proximity self market_lat market_lon center_lat center_lon
    vendor_id vendor_name center_id center_name market_id = Ok ps ->
  ps_distance_km ps
  = haversine_distance market_lat market_lon center_lat center_lon
  /\ 0 <= ps_distance_km ps <= EARTH_RADIUS_KM * PI.
Proof.
  intros Hps.
  assert (Hd : ps_distance_km ps
               = haversine_distance market_lat market_lon center_lat
                   center_lon).
  { revert Hps. unfold calculate_proximity.
    destruct (estimate_travel_time _ _) as [t |]; cbn [bind];
      [| discriminate].
    intros H. injection H as <-. reflexivity. }
  split; [exact Hd |]. rewrite Hd.
  rewrite haversine_distance_a. cbv zeta.
  pose proof (haversine_a_range (radians market_lat) (radians center_lat)
                (radians (center_lon - market_lon))) as Ha.
  set (a := haversine_a _ _ _) in *.
  pose proof (atan2_quadrant (sqrt a) (sqrt (1 - a)) (sqrt_pos _) (sqrt_pos _))
    as Hq.
  unfold EARTH_RADIUS_KM. split; nra.
Qed.

Lemma X6_haversine_range_witness :
  exists ps,
    calculate_proximity default_analyzer 91 0 91 0 "V-001" "Vendor" "DC-001"
      "Center" None = Ok ps
    /\ 0 <= ps_distance_km ps <= EARTH_RADIUS_KM * PI.
Proof.
  eexists. split; [apply calculate_proximity_same_point |].
  exact (proj2 (X6_haversine_range default_analyzer 91 0 91 0 "V-001"
                  "Vendor" "DC-001" "Center" None _
                  (calculate_proximity_same_point _ _ _ _ _ _ _ _))).
Defined.

(** ** Order and symmetry of the statistics *)

Lemma total_bounds (lo hi : R) (l : list R) :
  Forall (fun x => lo <= x <= hi) l ->
  lo * INR (List.length l) <= total l <= hi * INR (List.length l).
Proof.
  induction 1 as [| x l Hx Hl IH].
  - cbn. lra.
  - cbn [total fold_right List.length]. rewrite S_INR.
    fold (total l). lra.
Qed.

Lemma total_perm (l l' : list R) : Permutation l l' -> total l = total l'.
Proof.
  induction 1 as [| x l l' Hp IH | x y l | l l' l'' Hp IH Hp' IH'].
  - reflexivity.
  - cbn. unfold total in IH. lra.
  - cbn. lra.
  - congruence.
Qed.

Lemma mean_between (lo hi : R) (l : list R) :
  l <> [] -> Forall (fun x => lo <= x <= hi) l ->
  lo <= total l / INR (List.length l) <= hi.
Proof.
  intros Hne H. apply div_between; [| now apply total_bounds].
  destruct l; [congruence |]. apply lt_0_INR. cbn. lia.
Qed.

Lemma between_min_max (prices : list R) :
  prices <> [] ->
  Forall (fun x => py_min prices <= x <= py_max prices) prices.
Proof.
  intros Hne. apply Forall_forall. intros x Hx.
  split; [now apply py_min_spec | now apply py_max_spec].
Qed.

Lemma nth_sorted_between (prices : list R) (i : nat) :
  (i < List.length prices)%nat ->
  py_min prices <= nth i (sort Rleb prices) 0 <= py_max prices.
Proof.
  intros Hi.
  assert (Hne : prices <> []) by (destruct prices; [cbn in Hi; lia | discriminate]).
  pose proof (between_min_max prices Hne) as Hall.
  rewrite Forall_forall in Hall. apply Hall.
  apply (sort_In Rleb). apply nth_In. now rewrite sort_length.
Qed.

Lemma statistics_order (prices : list R) :
  prices <> [] ->
  let s := calculate_statistics prices in
  st_min s <= st_mean s <= st_max s
  /\ st_min s <= st_median s <= st_max s
  /\ 0 <= st_std_dev s
  /\ 0 <= st_range s.
Proof.
  intros Hne s. subst s.
  rewrite (calculate_statistics_nonempty prices Hne). cbv zeta.
  cbn [st_mean st_median st_std_dev st_min st_max st_range].
  assert (Hn : (0 < List.length prices)%nat)
    by (destruct prices; [congruence | cbn; lia]).
  assert (Hmean : py_min prices <= py_sum prices / INR (List.length prices)
                  <= py_max prices).
  { rewrite py_sum_total. apply mean_between; [exact Hne |].
    now apply between_min_max. }
  split; [exact Hmean |].
  split.
  { assert (Hhalf : (List.length prices / 2 < List.length prices)%nat)
      by (apply Nat.div_lt; lia).
    pose proof (nth_sorted_between prices (List.length prices / 2) Hhalf).
    destruct (List.length prices mod 2 =? 0)%nat; [| assumption].
    pose proof (nth_sorted_between prices (List.length prices / 2 - 1)
                  ltac:(lia)).
    lra. }
  split.
  { destruct (1 <? List.length prices)%nat; [apply sqrt_pos | lra]. }
  lra.
Qed.

(** X7: for a non-empty list of prices the minimum and the maximum are
    prices of the list, no price lies outside them, the median lies between
    them, and the standard deviation and the range are not negative. *)
Theorem X7_statistics_order (prices : list R) (Hne : prices <> []) :
  let s := calculate_statistics prices in
  In (st_min s) prices
  /\ In (st_max s) prices
  /\ (forall p, In p prices -> st_min s <= p <= st_max s)
  /\ st_min s <= st_median s <= st_max s
  /\ 0 <= st_std_dev s
  /\ 0 <= st_range s.
Proof.
  cbv zeta.
  destruct (statistics_order prices Hne) as (_ & Hmedian & Hsd & Hrange).
  cbv zeta in Hmedian, Hsd, Hrange.
  assert (Hmin : st_min (calculate_statistics prices) = py_min prices)
    by now rewrite calculate_statistics_nonempty.
  assert (Hmax : st_max (calculate_statistics prices) = py_max prices)
    by now rewrite calculate_statistics_nonempty.
  destruct (py_min_spec prices Hne) as [Hmin_in Hmin_le].
  destruct (py_max_spec prices Hne) as [Hmax_in Hmax_le].
  split; [now rewrite Hmin |]. split; [now rewrite Hmax |].
  split.
  { intros p Hp. rewrite Hmin, Hmax. split; auto. }
  split; [exact Hmedian |]. split; assumption.
Qed.

Lemma X7_statistics_order_witness :
  let s := calculate_statistics [3; 1; 2] in
  st_min s <= st_median s <= st_max s
  /\ 0 <= st_std_dev s
  /\ 0 <= st_range s.
Proof.
  exact (proj2 (proj2 (proj2 (X7_statistics_order [3; 1; 2]
                                ltac:(discriminate))))).
Defined.

(** Two sorted lists with the same elements are equal. *)
Lemma sorted_perm_unique (l l' : list R) :
  StronglySorted Rle l -> StronglySorted Rle l' -> Permutation l l' -> l = l'.
Proof.
  intros Hl. revert l'. induction Hl as [| x l Hs IH Hx]; intros l' Hl' Hp.
  - apply Permutation_nil in Hp. now subst.
  - destruct Hl' as [| y l' Hs' Hy].
    { apply Permutation_sym, Permutation_nil in Hp. discriminate. }
    assert (Hxy : x = y).
    { rewrite Forall_forall in Hx, Hy.
      assert (Hy_in : In y (x :: l))
        by (apply (Permutation_in _ (Permutation_sym Hp)); now left).
      assert (Hx_in : In x (y :: l'))
        by (apply (Permutation_in _ Hp); now left).
      destruct Hy_in as [E | Hy_in]; [exact E |].
      destruct Hx_in as [E | Hx_in]; [now symmetry |].
      apply Rle_antisym; auto. }
    subst y. f_equal. apply IH; [exact Hs' |].
    eapply Permutation_cons_inv; eassumption.
Qed.

Lemma sort_Rleb_perm (l l' : list R) :
  Permutation l l' -> sort Rleb l = sort Rleb l'.
Proof.
  intros Hp. apply sorted_perm_unique; try apply sort_Rleb_sorted.
  rewrite (sort_perm Rleb l), (sort_perm Rleb l'). exact Hp.
Qed.

Lemma py_min_perm (l l' : list R) :
  Permutation l l' -> py_min l = py_min l'.
Proof.
  intros Hp. destruct l as [| x l].
  { apply Permutation_nil in Hp. now subst. }
  assert (Hne : x :: l <> []) by discriminate.
  assert (Hne' : l' <> []).
  { intros ->. apply Permutation_sym, Permutation_nil in Hp. discriminate. }
  destruct (py_min_spec _ Hne) as [Hin Hle].
  destruct (py_min_spec _ Hne') as [Hin' Hle'].
  apply Rle_antisym.
  - apply Hle. eapply Permutation_in; [symmetry; exact Hp | exact Hin'].
  - apply Hle'. eapply Permutation_in; [exact Hp | exact Hin].
Qed.

Lemma py_max_perm (l l' : list R) :
  Permutation l l' -> py_max l = py_max l'.
Proof.
  intros Hp. destruct l as [| x l].
  { apply Permutation_nil in Hp. now subst. }
  assert (Hne : x :: l <> []) by discriminate.
  assert (Hne' : l' <> []).
  { intros ->. apply Permutation_sym, Permutation_nil in Hp. discriminate. }
  destruct (py_max_spec _ Hne) as [Hin Hle].
  destruct (py_max_spec _ Hne') as [Hin' Hle'].
  apply Rle_antisym.
  - apply Hle'. eapply Permutation_in; [exact Hp | exact Hin].
  - apply Hle. eapply Permutation_in; [symmetry; exact Hp | exact Hin'].
Qed.

(** X8: the median, the minimum, the maximum and the range do not depend
    on the order of the prices. *)
Theorem X8_statistics_permutation (prices prices' : list R)
  (Hp : Permutation prices prices') :
  let s := calculate_statistics prices in
  let s' := calculate_statistics prices' in
  st_median s = st_median s'
  /\ st_min s = st_min s'
  /\ st_max s = st_max s'
  /\ st_range s = st_range s'.
Proof.
  cbv zeta. destruct prices as [| x l].
  { apply Permutation_nil in Hp. subst. repeat split. }
  assert (Hne : x :: l <> []) by discriminate.
  assert (Hne' : prices' <> []).
  { intros ->. apply Permutation_sym, Permutation_nil in Hp. discriminate. }
  rewrite (calculate_statistics_nonempty _ Hne),
    (calculate_statistics_nonempty _ Hne').
  cbv zeta. cbn [st_median st_min st_max st_range].
  rewrite <- (Permutation_length Hp), <- (sort_Rleb_perm _ _ Hp),
    <- (py_min_perm _ _ Hp), <- (py_max_perm _ _ Hp).
  repeat split.
Qed.

Lemma X8_statistics_permutation_witness :
  st_median (calculate_statistics [3; 1; 2])
  = st_median (calculate_statistics [1; 3; 2]).
Proof.
  exact (proj1 (X8_statistics_permutation [3; 1; 2] [1; 3; 2]
                  (perm_swap _ _ _))).
Defined.

Lemma total_zero (l : list R) : Forall (fun x => x = 0) l -> total l = 0.
Proof.
  induction 1 as [| x l Hx Hl IH]; [reflexivity |].
  cbn. unfold total in IH. lra.
Qed.

(** ** Percentile rank *)

Lemma filter_length_perm {A : Type} (p : A -> bool) (l l' : list A) :
  Permutation l l' ->
  List.length (filter p l) = List.length (filter p l').
Proof.
  induction 1 as [| x l l' Hp IH | x y l | l l' l'' Hp IH Hp' IH'].
  - reflexivity.
  - cbn. destruct (p x); cbn; congruence.
  - cbn. destruct (p x), (p y); reflexivity.
  - congruence.
Qed.

Lemma filter_length_le {A : Type} (p : A -> bool) (l : list A) :
  (List.length (filter p l) <= List.length l)%nat.
Proof.
  induction l as [| x l IH]; [cbn; lia |].
  cbn. destruct (p x); cbn; lia.
Qed.

Lemma filter_length_mono {A : Type} (p q : A -> bool) (l : list A) :
  (forall x, p x = true -> q x = true) ->
  (List.length (filter p l) <= List.length (filter q l))%nat.
Proof.
  intros H. induction l as [| x l IH]; [cbn; lia |].
  cbn. destruct (p x) eqn:E.
  - rewrite (H x E). cbn. lia.
  - destruct (q x); cbn; lia.
Qed.

Lemma filter_none {A : Type} (p : A -> bool) (l : list A) :
  (forall x, In x l -> p x = false) -> filter p l = [].
Proof.
  induction l as [| x l IH]; intros H; [reflexivity |].
  cbn. rewrite (H x (or_introl eq_refl)). apply IH.
  intros y Hy. apply H. now right.
Qed.

Lemma filter_all {A : Type} (p : A -> bool) (l : list A) :
  (forall x, In x l -> p x = true) -> filter p l = l.
Proof.
  induction l as [| x l IH]; intros H; [reflexivity |].
  cbn. rewrite (H x (or_introl eq_refl)). f_equal. apply IH.
  intros y Hy. apply H. now right.
Qed.

(** The number of the values strictly below a value. *)
Definition count_below (value : R) (values : list R) : nat :=
  List.length (filter (fun v => Rltb v value) values).

(** The rank as the share of the values below, in the input order. *)
Lemma percentile_rank_count (value : R) (values : list R) :
  values <> [] ->
  calculate_percentile_rank value values
  = INR (List.length (filter (fun v => Rltb v value) values))
    / INR (List.length values) * 100.
Proof.
  intros Hne. destruct values as [| x l]; [congruence |].
  unfold calculate_percentile_rank.
  rewrite (filter_length_perm _ _ _ (sort_perm Rleb (x :: l))).
  now rewrite sort_length.
Qed.

(** X10: the percentile rank is 50 on the empty list; otherwise it is the
    share, in percent, of the values strictly below the given one: it lies
    in [[0, 100]], does not depend on the order of the values, never
    decreases when the value grows, is 0 when no value is below and 100
    when all are. *)
Theorem X10_percentile_rank (value : R) (values : list R) :
  calculate_percentile_rank value [] = 50
  /\ (values <> [] ->
      calculate_percentile_rank value values
      = INR (count_below value values) / INR (List.length values) * 100)
  /\ 0 <= calculate_percentile_rank value values <= 100
  /\ (forall values',
        Permutation values values' ->
        calculate_percentile_rank value values
        = calculate_percentile_rank value values')
  /\ (forall value',
        value <= value' ->
        calculate_percentile_rank value values
        <= calculate_percentile_rank value' values)
  /\ (values <> [] ->
      (forall v, In v values -> value <= v) ->
      calculate_percentile_rank value values = 0)
  /\ (values <> [] ->
      (forall v, In v values -> v < value) ->
      calculate_percentile_rank value values = 100).
Proof.
  split; [reflexivity |].
  split; [intros Hne; now apply percentile_rank_count |].
  destruct values as [| x l].
  { cbn. split; [lra |]. split.
    - intros values' Hp. apply Permutation_nil in Hp. now subst.
    - split; [intros; lra |]. split; congruence. }
  assert (Hne : x :: l <> []) by discriminate.
  assert (Hn : 0 < INR (List.length (x :: l)))
    by (apply lt_0_INR; cbn; lia).
  split; [| split; [| split; [| split]]].
  - rewrite percentile_rank_count by assumption.
    set (c := List.length (filter _ _)).
    assert (Hc : (c <= List.length (x :: l))%nat) by apply filter_length_le.
    apply le_INR in Hc. pose proof (pos_INR c).
    assert (0 <= INR c / INR (List.length (x :: l)) <= 1).
    { apply div_between; [exact Hn | lra]. }
    lra.
  - intros values' Hp.
    assert (Hne' : values' <> []).
    { intros ->. apply Permutation_sym, Permutation_nil in Hp. discriminate. }
    rewrite !percentile_rank_count by assumption.
    now rewrite (filter_length_perm _ _ _ Hp), (Permutation_length Hp).
  - intros value' Hv. rewrite !percentile_rank_count by assumption.
    assert (Hc : (List.length (filter (fun v => Rltb v value) (x :: l))
                  <= List.length (filter (fun v => Rltb v value') (x :: l)))%nat).
    { apply filter_length_mono. intros v Hlt.
      apply Rltb_spec in Hlt. apply Rltb_true. lra. }
    apply le_INR in Hc.
    apply Rmult_le_compat_r; [lra |].
    unfold Rdiv. apply Rmult_le_compat_r; [| exact Hc].
    apply Rlt_le, Rinv_0_lt_compat, Hn.
  - intros _ Hall. rewrite percentile_rank_count by assumption.
    rewrite filter_none.
    + cbn [List.length INR]. unfold Rdiv. ring.
    + intros v Hvin. apply Rltb_false, Hall, Hvin.
  - intros _ Hall. rewrite percentile_rank_count by assumption.
    rewrite filter_all.
    + field. lra.
    + intros v Hvin. apply Rltb_true, Hall, Hvin.
Qed.

Lemma X10_percentile_rank_witness :
  calculate_percentile_rank 15 [10; 20]
  = INR (count_below 15 [10; 20]) / INR 2 * 100
  /\ calculate_percentile_rank 5 [10; 20] = 0
  /\ calculate_percentile_rank 30 [10; 20] = 100
  /\ calculate_percentile_rank 5 [10; 20]
     <= calculate_percentile_rank 15 [10; 20]
  /\ calculate_percentile_rank 15 [10; 20]
     = calculate_percentile_rank 15 [20; 10].
Proof.
  split; [| split; [| split; [| split]]].
  - apply (X10_percentile_rank 15 [10; 20]). discriminate.
  - apply (X10_percentile_rank 5 [10; 20]); [discriminate |].
    intros v [<- | [<- | []]]; lra.
  - apply (X10_percentile_rank 30 [10; 20]); [discriminate |].
    intros v [<- | [<- | []]]; lra.
  - apply (X10_percentile_rank 5 [10; 20]). lra.
  - apply (X10_percentile_rank 15 [10; 20]). apply perm_swap.
Defined.

(** ** Benchmark comparison *)

(** The score with a positive average, as one expression. *)
Lemma competitiveness_positive_avg (p mn mx avg : R) :
  mn < mx -> 0 < avg ->
  calculate_competitiveness_score p mn mx avg
  = Ok (Rmax 0
          (Rmin 100
             (if Rltb p avg
              then Rmin 100 ((1 - (p - mn) / (mx - mn)) * 100
                             + (avg - p) / avg * 20)
              else (1 - (p - mn) / (mx - mn)) * 100))).
Proof.
  intros Hr Ha. unfold calculate_competitiveness_score, fdiv.
  rewrite (Reqb_false mx mn) by lra. rewrite (Reqb_false avg 0) by lra.
  destruct (Rltb p avg); reflexivity.
Qed.

(** X11: with [min_price < max_price] and a positive average, a lower
    vendor price never scores lower. *)
Theorem X11_competitiveness_monotone (p1 p2 mn mx avg : R)
  (Hr : mn < mx) (Ha : 0 < avg) (Hp : p1 <= p2) :
  exists s1 s2,
    calculate_competitiveness_score p1 mn mx avg = Ok s1
    /\ calculate_competitiveness_score p2 mn mx avg = Ok s2
    /\ s2 <= s1.
Proof.
  rewrite !competitiveness_positive_avg by assumption.
  do 2 eexists. split; [reflexivity |]. split; [reflexivity |].
  apply Rle_max_compat_l.
  assert (Hir : 0 < / (mx - mn)) by (apply Rinv_0_lt_compat; lra).
  assert (Hia : 0 < / avg) by now apply Rinv_0_lt_compat.
  assert (Hbase : (1 - (p2 - mn) / (mx - mn)) * 100
                  <= (1 - (p1 - mn) / (mx - mn)) * 100).
  { unfold Rdiv. nra. }
  assert (Hbonus : (avg - p2) / avg * 20 <= (avg - p1) / avg * 20).
  { unfold Rdiv. nra. }
  destruct (Rltb p1 avg) eqn:E1, (Rltb p2 avg) eqn:E2.
  - apply Rle_min_compat_l, Rle_min_compat_l. lra.
  - apply Rltb_spec in E1.
    assert (Hpos : 0 < (avg - p1) / avg * 20).
    { unfold Rdiv. apply Rmult_lt_0_compat; [| lra].
      apply Rmult_lt_0_compat; lra. }
    apply Rmin_glb; [apply Rmin_l |].
    apply Rmin_glb; [apply Rmin_l |].
    eapply Rle_trans; [apply Rmin_r | lra].
  - apply Rltb_spec in E2.
    assert (avg <= p1).
    { destruct (Rle_or_lt avg p1); [assumption |].
      rewrite (Rltb_true p1 avg) in E1 by assumption. discriminate. }
    lra.
  - apply Rle_min_compat_l. exact Hbase.
Qed.

Lemma X11_competitiveness_monotone_witness :
  exists s1 s2,
    calculate_competitiveness_score 90 80 120 100 = Ok s1
    /\ calculate_competitiveness_score 110 80 120 100 = Ok s2
    /\ s2 <= s1.
Proof. apply X11_competitiveness_monotone; lra. Defined.

(** What every comparison returned by [compare_vendor_to_benchmark]
    satisfies. *)
Definition comparison_consistent (c : VendorBenchmarkComparison) : Prop :=
  0 < cmp_vendor_price c
  /\ 0 <= cmp_competitiveness_score c <= 100
  /\ ((cmp_price_position c = "below_market"
       /\ cmp_variance_from_avg_pct c < -5)
      \/ (cmp_price_position c = "above_market"
          /\ 5 < cmp_variance_from_avg_pct c)
      \/ (cmp_price_position c = "at_market"
          /\ -5 <= cmp_variance_from_avg_pct c <= 5))
  /\ (cmp_benchmark_min c <= cmp_vendor_price c <= cmp_benchmark_max c ->
      0 <= cmp_percentile_rank c <= 100)
  /\ (cmp_vendor_price c = cmp_benchmark_avg c ->
      cmp_price_position c = "at_market" /\ cmp_variance_from_avg_pct c = 0).

Lemma position_cases (v : R) :
  let position :=
    if Rltb v (-5) then "below_market"
    else if Rgtb v 5 then "above_market" else "at_market" in
  (position = "below_market" /\ v < -5)
  \/ (position = "above_market" /\ 5 < v)
  \/ (position = "at_market" /\ -5 <= v <= 5).
Proof.
  cbv zeta. unfold Rgtb.
  destruct (Rlt_or_le v (-5)) as [H | H].
  { rewrite (Rltb_true _ _ H). auto. }
  rewrite (Rltb_false _ _ H).
  destruct (Rlt_or_le 5 v) as [H' | H'].
  { rewrite (Rltb_true _ _ H'). auto. }
  rewrite (Rltb_false _ _ H'). right. right. split; [reflexivity | lra].
Qed.

Lemma compare_record_ok
  (lookup : list ((string * string) * RegionalBenchmark))
  (record : PricingRecord) :
  exists comparison,
    compare_record lookup record = Ok comparison
    /\ (List.length comparison <= 1)%nat
    /\ Forall comparison_consistent comparison.
Proof.
  unfold compare_record.
  set (price := get (rec_unit_price record) 0).
  destruct (Rleb price 0) eqn:Hprice.
  { exists []. repeat split; [cbn; lia | constructor]. }
  assert (Hpos : 0 < price).
  { destruct (Rle_or_lt price 0) as [H | H]; [| exact H].
    apply Rleb_true in H. congruence. }
  destruct (lookup_get _ lookup) as [bm |].
  2: { exists []. repeat split; [cbn; lia | constructor]. }
  destruct (competitiveness_returns price (bm_min_price bm) (bm_max_price bm)
              (bm_avg_price bm)) as [score Hscore].
  { destruct (Rle_or_lt (bm_avg_price bm) price); [auto |].
    right. left. lra. }
  rewrite Hscore. cbn [bind]. eexists. split; [reflexivity |].
  split; [cbn; lia |].
  constructor; [| constructor].
  unfold comparison_consistent.
  cbn [cmp_vendor_price cmp_competitiveness_score cmp_price_position
       cmp_variance_from_avg_pct cmp_benchmark_min cmp_benchmark_max
       cmp_benchmark_avg cmp_percentile_rank].
  split; [exact Hpos |].
  split; [eapply competitiveness_range; exact Hscore |].
  split; [apply position_cases |].
  split.
  - intros [Hlo Hhi]. unfold Rgtb.
    destruct (Rltb 0 (bm_max_price bm - bm_min_price bm)) eqn:Hrange;
      [| lra].
    apply Rltb_spec in Hrange.
    assert (0 <= (price - bm_min_price bm) / (bm_max_price bm - bm_min_price bm)
            <= 1).
    { apply div_between; [exact Hrange | lra]. }
    lra.
  - intros Heq. unfold Rgtb. rewrite <- Heq.
    rewrite (Rltb_true 0 price Hpos).
    replace ((price - price) / price * 100) with 0
      by (unfold Rdiv; ring).
    rewrite (Rltb_false 0 (-5)) by lra. rewrite (Rltb_false 5 0) by lra.
    split; reflexivity.
Qed.

(** X12: [compare_vendor_to_benchmark] never raises: the division by the
    benchmark average inside the competitiveness score is reached only
    for a positive price below the average.  It returns at most one
    comparison per record, each for a positive price, with a
    competitiveness score in [[0, 100]], a position that agrees with the
    variance from the average (below -5 percent, above 5 percent, or
    between), a percentile rank in [[0, 100]] when the price lies between
    the benchmark minimum and maximum, and the position [at_market] with
    variance 0 when the price equals the benchmark average. *)
Theorem X12_compare_vendor_to_benchmark (vendor_pricing : list PricingRecord)
  (benchmarks : list RegionalBenchmark) :
  exists comparisons,
    compare_vendor_to_benchmark vendor_pricing benchmarks = Ok comparisons
    /\ (List.length comparisons <= List.length vendor_pricing)%nat
    /\ Forall comparison_consistent comparisons.
Proof.
  unfold compare_vendor_to_benchmark.
  generalize (benchmark_lookup benchmarks). intros lookup.
  induction vendor_pricing as [| record rest (cs & Hcs & Hlen & Hall)].
  - exists []. repeat split; [cbn; lia | constructor].
  - destruct (compare_record_ok lookup record) as (c & Hc & Hlen1 & Hall1).
    cbn [compare_records]. rewrite Hc, Hcs. cbn [bind].
    eexists. split; [reflexivity |].
    split; [rewrite length_app; cbn [List.length]; lia |].
    apply Forall_app. split; assumption.
Qed.

(** Sample data: a benchmark of SKU-A in MKT-1 with prices from 80 to 120
    around the average 100. *)
Definition sample_benchmark : RegionalBenchmark :=
  mkRegionalBenchmark "bm-1" (Some "SKU-A") None "MKT-1" "MKT-1" 100 80 120
    100 20 3 3 "stable" 0 0%Z 0%Z "USD".

Lemma X12_compare_vendor_to_benchmark_witness :
  exists c,
    compare_vendor_to_benchmark [quote "SKU-A" "MKT-1" 100] [sample_benchmark]
    = Ok [c]
    /\ cmp_price_position c = "at_market"
    /\ cmp_variance_from_avg_pct c = 0
    /\ 0 <= cmp_percentile_rank c <= 100
    /\ 0 <= cmp_competitiveness_score c <= 100.
Proof.
  destruct (X12_compare_vendor_to_benchmark [quote "SKU-A" "MKT-1" 100]
              [sample_benchmark]) as (cs & Hcs & _ & Hall).
  assert (Heval :
            compare_vendor_to_benchmark [quote "SKU-A" "MKT-1" 100]
              [sample_benchmark]
            = Ok [mkVendorBenchmarkComparison EmptyString EmptyString "MKT-1"
                    "MKT-1" "SKU-A" "SKU-A" 100 100 80 120 "at_market"
                    ((100 - 100) / 100 * 100) ((100 - 80) / (120 - 80) * 100)
                    (Rmax 0 (Rmin 100 ((1 - (100 - 80) / (120 - 80)) * 100)))]).
  { unfold compare_vendor_to_benchmark, benchmark_lookup, sample_benchmark.
    cbn [fold_left bm_sku_id bm_market_id String.eqb Ascii.eqb Bool.eqb
         lookup_set compare_records].
    unfold compare_record, quote.
    cbn [get rec_vendor_id rec_vendor_name rec_market_id rec_sku_id
         rec_product_name rec_unit_price rec_region_name lookup_get key_eqb
         fst snd String.eqb Ascii.eqb Bool.eqb andb bm_avg_price bm_min_price
         bm_max_price].
    rewrite competitiveness_positive_avg by lra. rcompare.
    cbn [bind app]. reflexivity. }
  rewrite Heval in Hcs. injection Hcs as <-.
  apply Forall_inv in Hall.
  destruct Hall as (_ & Hscore & _ & Hrank & Hat).
  eexists. split; [exact Heval |].
  cbn [cmp_vendor_price cmp_benchmark_avg cmp_benchmark_min cmp_benchmark_max]
    in Hrank, Hat.
  destruct (Hat eq_refl) as [Hposition Hvar].
  split; [exact Hposition |]. split; [exact Hvar |].
  split; [apply Hrank; lra | exact Hscore].
Defined.

(** ** Coverage without centers, distances and errors *)

Lemma matching_cons (vendor : Vendor) (dc : Center) (dcs : list Center) :
  matching vendor (dc :: dcs)
  = if other_vendor dc (get (v_vendor_id vendor) EmptyString)
    then matching vendor dcs
    else dc :: matching vendor dcs.
Proof.
  unfold matching. cbn [filter].
  destruct (other_vendor dc _); reflexivity.
Qed.

Lemma collect_scores_no_match (self : ProximityAnalyzer) (market : Market)
  (vendor : Vendor) (dcs : list Center) :
  matching vendor dcs = [] -> collect_scores self market vendor dcs = Ok [].
Proof.
  induction dcs as [| dc dcs IH]; [reflexivity |].
  rewrite matching_cons. cbn [collect_scores].
  destruct (other_vendor dc _); [exact IH | discriminate].
Qed.

Lemma no_center_coverage (self : ProximityAnalyzer)
  (market : Market) (vendor : Vendor) (dcs : list Center) :
  matching vendor dcs = [] ->
  analyze_vendor_coverage self market vendor dcs
  = Ok (mkVendorCoverage (get (v_vendor_id vendor) EmptyString)
          (get (v_vendor_name vendor) EmptyString)
          (get (m_market_id market) EmptyString)
          (get (m_region_name market) EmptyString)
          Infinity Infinity 0 0 []).
Proof.
  intros Hnone. unfold analyze_vendor_coverage.
  now rewrite (collect_scores_no_match self market vendor dcs Hnone).
Qed.

(** X13: for a vendor without a matching distribution center
    [analyze_vendor_coverage] returns the coverage with [center_count] 0,
    score 0, infinite nearest and average distance and no centers; it does
    so for every analyzer, one with average speed 0 included: no exception
    is raised. *)
Theorem X13_no_center_coverage (self : ProximityAnalyzer) (market : Market)
  (vendor : Vendor) (dcs : list Center)
  (Hnone : matching vendor dcs = []) :
  analyze_vendor_coverage self market vendor dcs
  = Ok (mkVendorCoverage (get (v_vendor_id vendor) EmptyString)
          (get (v_vendor_name vendor) EmptyString)
          (get (m_market_id market) EmptyString)
          (get (m_region_name market) EmptyString)
          Infinity Infinity 0 0 []).
Proof.
  unfold analyze_vendor_coverage.
  now rewrite (collect_scores_no_match self market vendor dcs Hnone).
Qed.

Lemma X13_no_center_coverage_witness :
  analyze_vendor_coverage (mkProximityAnalyzer 500 2 0) sample_market
    sample_vendor_without_center [center_here; center_antipode]
  = Ok (mkVendorCoverage "V-002" "Other" "MKT-0" "Origin" Infinity Infinity
          0 0 []).
Proof.
  apply (X13_no_center_coverage (mkProximityAnalyzer 500 2 0) sample_market
           sample_vendor_without_center [center_here; center_antipode]).
  reflexivity.
Defined.

Lemma calculate_proximity_raise_iff (self : ProximityAnalyzer)
  (mlat mlon clat clon : R) (vid vname cid cname : string)
  (mid : option string) :
  (exists e,
     calculate_proximity self mlat mlon clat clon vid vname cid cname mid
     = Raise e)
  <-> average_speed_kmh self = 0
      /\ 0 < haversine_distance mlat mlon clat clon.
Proof.
  unfold calculate_proximity, estimate_travel_time, fdiv.
  set (d := haversine_distance mlat mlon clat clon).
  split.
  - intros [e He].
    destruct (Rleb d 0) eqn:Hd; [discriminate |].
    destruct (Reqb (average_speed_kmh self) 0) eqn:Hv; [| discriminate].
    split; [now apply Reqb_spec |].
    destruct (Rle_or_lt d 0) as [H | H]; [| exact H].
    apply Rleb_true in H. congruence.
  - intros [Hv Hd]. rewrite (Rleb_false d 0) by lra.
    rewrite (Reqb_true _ _ Hv). cbn [bind]. eauto.
Qed.

Lemma collect_scores_raise_iff (self : ProximityAnalyzer) (market : Market)
  (vendor : Vendor) (dcs : list Center) :
  (exists e, collect_scores self market vendor dcs = Raise e)
  <-> average_speed_kmh self = 0
      /\ Exists (fun dc => 0 < center_distance market dc) (matching vendor dcs).
Proof.
  induction dcs as [| dc dcs IH].
  - cbn. split; [intros [e He]; discriminate |].
    intros [_ H]. inversion H.
  - rewrite matching_cons. cbn [collect_scores].
    destruct (other_vendor dc _); [exact IH |].
    match goal with
    | |- context [calculate_proximity ?s ?a ?b ?c ?d ?v ?vn ?ci ?cn ?m] =>
        pose proof (calculate_proximity_raise_iff s a b c d v vn ci cn m)
          as Hone;
        destruct (calculate_proximity s a b c d v vn ci cn m) as [ps | e1]
    end; cbn [bind].
    + destruct (collect_scores self market vendor dcs) as [rest | e2];
        cbn [bind].
      * split; [intros [e He]; discriminate |].
        intros [Hv Hex]. apply Exists_cons in Hex.
        destruct Hex as [Hex | Hex].
        -- destruct (proj2 Hone (conj Hv Hex)) as [e He]. discriminate.
        -- destruct (proj2 IH (conj Hv Hex)) as [e He]. discriminate.
      * split; [| eauto]. intros _.
        destruct (proj1 IH (ex_intro _ e2 eq_refl)) as [Hv Hex].
        split; [exact Hv | now apply Exists_cons_tl].
    + split; [| eauto]. intros _.
      destruct (proj1 Hone (ex_intro _ e1 eq_refl)) as [Hv Hd].
      split; [exact Hv | now apply Exists_cons_hd].
Qed.

(** X14: with an average speed of 0, [analyze_vendor_coverage] does not
    return when a matching center lies at a positive distance from the
    market (the division in [estimate_travel_time] is by zero); a coverage
    it returns at speed 0 has all its matching centers at distance 0. *)
Theorem X14_coverage_raises (self : ProximityAnalyzer) (market : Market)
  (vendor : Vendor) (dcs : list Center) :
  average_speed_kmh self = 0 ->
  (Exists (fun dc => 0 < center_distance market dc) (matching vendor dcs) ->
   forall cov, analyze_vendor_coverage self market vendor dcs <> Ok cov)
  /\ (forall cov,
        analyze_vendor_coverage self market vendor dcs = Ok cov ->
        Forall (fun dc => center_distance market dc <= 0)
          (matching vendor dcs)).
Proof.
  intros Hspeed.
  assert (Hraise :
            Exists (fun dc => 0 < center_distance market dc)
              (matching vendor dcs) ->
            exists e, analyze_vendor_coverage self market vendor dcs = Raise e).
  { intros Hex.
    destruct (proj2 (collect_scores_raise_iff self market vendor dcs)
                (conj Hspeed Hex)) as [e He].
    exists e. unfold analyze_vendor_coverage. rewrite He. reflexivity. }
  split.
  - intros Hex cov Hcov. destruct (Hraise Hex) as [e He]. congruence.
  - intros cov Hcov. apply Forall_forall. intros dc Hdc.
    destruct (Rle_or_lt (center_distance market dc) 0) as [H | H];
      [exact H | exfalso].
    destruct Hraise as [e He]; [| congruence].
    apply Exists_exists. exists dc. split; assumption.
Qed.

Lemma X14_coverage_raises_witness :
  ~ exists cov,
      analyze_vendor_coverage (mkProximityAnalyzer 500 2 0) sample_market
        sample_vendor [center_antipode] = Ok cov.
Proof.
  intros [cov Hcov]. revert Hcov.
  apply (proj1 (X14_coverage_raises (mkProximityAnalyzer 500 2 0)
                  sample_market sample_vendor [center_antipode] eq_refl)).
  constructor. unfold center_distance, sample_market, center_antipode.
  cbn [get m_latitude m_longitude dc_latitude dc_longitude].
  rewrite haversine_antipode. pose proof PI_RGT_0. lra.
Defined.

Lemma haversine_nonneg (lat1 lon1 lat2 lon2 : R) :
  0 <= haversine_distance lat1 lon1 lat2 lon2.
Proof.
  rewrite haversine_distance_a. cbv zeta.
  set (a := haversine_a _ _ _).
  pose proof (atan2_quadrant (sqrt a) (sqrt (1 - a)) (sqrt_pos _) (sqrt_pos _)).
  unfold EARTH_RADIUS_KM. nra.
Qed.

Lemma sorted_head_min (l : list R) (x : R) (rest : list R) :
  StronglySorted Rle l -> l = x :: rest -> py_min l = x.
Proof.
  intros Hs ->. apply StronglySorted_inv in Hs. destruct Hs as [_ Hall].
  destruct (py_min_spec (x :: rest) ltac:(discriminate)) as [Hin Hle].
  apply Rle_antisym; [apply Hle; now left |].
  destruct Hin as [<- | Hin]; [lra |].
  rewrite Forall_forall in Hall. now apply Hall.
Qed.

Lemma map_sorted {A : Type} (key : A -> R) (l : list A) :
  StronglySorted (fun a b => key a <= key b) l ->
  StronglySorted Rle (map key l).
Proof.
  induction 1 as [| x l Hs IH Hx]; cbn; constructor; [exact IH |].
  apply Forall_map. exact Hx.
Qed.

(** X15: for a vendor with at least one matching center the nearest
    distance of the coverage is the least of the distances from the market
    to those centers and the distance of the first center listed, and it is
    not negative; the average distance is the sum of the distances of the
    centers listed divided by their number. *)
Theorem X15_coverage_distances (self : ProximityAnalyzer) (market : Market)
  (vendor : Vendor) (dcs : list Center) (cov : VendorCoverage)
  (Hcov : analyze_vendor_coverage self market vendor dcs = Ok cov)
  (Hm : matching vendor dcs <> []) :
  let distances := map (center_distance market) (matching vendor dcs) in
  exists nearest average,
    vc_nearest_center_distance_km cov = Finite nearest
    /\ vc_average_distance_km cov = Finite average
    /\ In nearest distances
    /\ (forall d, In d distances -> nearest <= d)
    /\ average
       = py_sum (map ps_distance_km (vc_centers cov))
         / INR (List.length (vc_centers cov))
    /\ 0 <= nearest
    /\ (forall first rest,
          vc_centers cov = first :: rest -> ps_distance_km first = nearest).
Proof.
  intros distances. unfold analyze_vendor_coverage in Hcov.
  destruct (collect_scores self market vendor dcs) as [scores |] eqn:Hscores;
    cbn [bind] in Hcov; [| discriminate].
  destruct (collect_scores_ok _ _ _ _ _ Hscores) as [Hd _].
  fold distances in Hd.
  destruct scores as [| ps scores].
  { apply matching_nonempty in Hscores.
    destruct (matching vendor dcs); [congruence | discriminate]. }
  injection Hcov as <-.
  cbn [vc_nearest_center_distance_km vc_average_distance_km vc_centers].
  set (sorted := sort_by_key ps_distance_km (ps :: scores)).
  change (insert (fun x y => Rleb (ps_distance_km x) (ps_distance_km y)) ps
            (sort_by_key ps_distance_km scores)) with sorted.
  assert (Hperm : Permutation (map ps_distance_km sorted) distances).
  { rewrite <- Hd. apply Permutation_map. apply sort_perm. }
  assert (Hne : distances <> []).
  { unfold distances. destruct (matching vendor dcs); [congruence |].
    discriminate. }
  destruct (py_min_spec distances Hne) as [Hin Hle].
  exists (py_min distances),
    (py_sum (map ps_distance_km sorted) / INR (List.length sorted)).
  split; [now rewrite (py_min_perm _ _ Hperm) |].
  split; [now rewrite length_map |].
  split; [exact Hin |]. split; [exact Hle |]. split; [reflexivity |].
  split.
  - assert (H0 : forall d, In d distances -> 0 <= d).
    { intros d Hdin. unfold distances in Hdin. apply in_map_iff in Hdin.
      destruct Hdin as (dc & <- & _). apply haversine_nonneg. }
    now apply H0.
  - intros first rest Hfirst.
    etransitivity; [| exact (py_min_perm _ _ Hperm)].
    symmetry. apply (sorted_head_min _ (ps_distance_km first)
                       (map ps_distance_km rest)).
    + apply map_sorted. apply sort_by_key_sorted.
    + now rewrite Hfirst.
Qed.

Lemma X15_coverage_distances_witness :
  exists cov nearest average,
    analyze_vendor_coverage default_analyzer sample_market sample_vendor
      [center_antipode; center_here] = Ok cov
    /\ vc_nearest_center_distance_km cov = Finite nearest
    /\ vc_average_distance_km cov = Finite average
    /\ 0 <= nearest.
Proof.
  destruct (analyze_vendor_coverage_total default_analyzer sample_market
              sample_vendor [center_antipode; center_here]) as [cov Hcov].
  { unfold default_analyzer, default_average_speed_kmh. cbn. lra. }
  destruct (X15_coverage_distances default_analyzer sample_market
              sample_vendor [center_antipode; center_here] cov Hcov
              ltac:(discriminate))
    as (nearest & average & Hn & Ha & _ & _ & _ & Hle & _).
  exists cov, nearest, average. repeat split; assumption.
Defined.

(** ** Coverage gaps *)

(** What every entry of [find_coverage_gaps] satisfies: its score is below
    the threshold and its severity is the bucket of its score. *)
Definition gap_consistent (min_coverage_score : R) (g : CoverageGap) : Prop :=
  gap_coverage_score g < min_coverage_score
  /\ (gap_coverage_score g < 10 -> gap_severity g = "critical")
  /\ (10 <= gap_coverage_score g < 20 -> gap_severity g = "high")
  /\ (20 <= gap_coverage_score g -> gap_severity g = "medium").

Lemma gap_severity_of_spec (score : R) :
  (score < 10 -> gap_severity_of score = "critical")
  /\ (10 <= score < 20 -> gap_severity_of score = "high")
  /\ (20 <= score -> gap_severity_of score = "medium").
Proof.
  unfold gap_severity_of. repeat split; intros H; now rcompare.
Qed.

(** The gap reported for a vendor without a center in a market. *)
Definition no_center_gap (market : Market) (vendor : Vendor) : CoverageGap :=
  mkCoverageGap (get (m_market_id market) EmptyString)
    (get (m_region_name market) EmptyString)
    (get (v_vendor_id vendor) EmptyString)
    (get (v_vendor_name vendor) EmptyString) 0 Infinity 0 "critical".

Lemma vendor_gaps_ok (self : ProximityAnalyzer) (market : Market)
  (vendors : list Vendor) (dcs : list Center) (threshold : R)
  (gaps : list CoverageGap) :
  vendor_gaps self market vendors dcs threshold = Ok gaps ->
  Forall (gap_consistent threshold) gaps
  /\ (List.length gaps <= List.length vendors)%nat
  /\ (forall vendor,
        In vendor vendors -> matching vendor dcs = [] -> 0 < threshold ->
        In (no_center_gap market vendor) gaps).
Proof.
  revert gaps. induction vendors as [| v vendors IH]; intros gaps.
  - cbn [vendor_gaps]. intros H. injection H as <-.
    split; [constructor |]. split; [apply Nat.le_0_l | intros vendor []].
  - cbn [vendor_gaps].
    destruct (analyze_vendor_coverage self market v dcs) as [cov |] eqn:Hcov;
      cbn [bind]; [| discriminate].
    destruct (vendor_gaps self market vendors dcs threshold) as [rest |];
      cbn [bind]; [| discriminate].
    destruct (IH rest eq_refl) as (Hall & Hlen & Hnone).
    destruct (Rltb (vc_coverage_score cov) threshold) eqn:Hlt;
      intros H; injection H as <-.
    + split; [| split].
      * constructor; [| exact Hall].
        unfold gap_consistent. cbn [gap_coverage_score gap_severity].
        split; [now apply Rltb_spec | apply gap_severity_of_spec].
      * cbn [List.length]. lia.
      * intros vendor [<- | Hin] Hm Hpos; [| right; now apply Hnone].
        left. rewrite (no_center_coverage self market v dcs Hm)
          in Hcov.
        injection Hcov as <-. unfold no_center_gap.
        cbn [vc_coverage_score vc_nearest_center_distance_km vc_center_count].
        unfold gap_severity_of. now rcompare.
    + split; [exact Hall |]. split; [cbn [List.length]; lia |].
      intros vendor [<- | Hin] Hm Hpos; [| now apply Hnone].
      rewrite (no_center_coverage self market v dcs Hm) in Hcov.
      injection Hcov as <-. cbn [vc_coverage_score] in Hlt.
      rewrite (Rltb_true 0 threshold Hpos) in Hlt. discriminate.
Qed.

Lemma vendor_gaps_total (self : ProximityAnalyzer) (market : Market)
  (vendors : list Vendor) (dcs : list Center) (threshold : R) :
  average_speed_kmh self <> 0 ->
  exists gaps, vendor_gaps self market vendors dcs threshold = Ok gaps.
Proof.
  intros Hv. induction vendors as [| v vendors [rest IH]]; [cbn; eauto |].
  cbn [vendor_gaps].
  destruct (analyze_vendor_coverage_total self market v dcs Hv) as [cov ->].
  rewrite IH. cbn [bind]. destruct (Rltb _ _); eauto.
Qed.

Lemma market_gaps_ok (self : ProximityAnalyzer) (markets : list Market)
  (vendors : list Vendor) (dcs : list Center) (threshold : R)
  (gaps : list CoverageGap) :
  market_gaps self markets vendors dcs threshold = Ok gaps ->
  Forall (gap_consistent threshold) gaps
  /\ (List.length gaps <= List.length markets * List.length vendors)%nat
  /\ (forall market vendor,
        In market markets -> In vendor vendors ->
        matching vendor dcs = [] -> 0 < threshold ->
        In (no_center_gap market vendor) gaps).
Proof.
  revert gaps. induction markets as [| m markets IH]; intros gaps.
  - cbn [market_gaps]. intros H. injection H as <-.
    split; [constructor |]. split; [apply Nat.le_0_l |].
    intros market vendor [].
  - cbn [market_gaps].
    destruct (vendor_gaps self m vendors dcs threshold) as [here |] eqn:Hhere;
      cbn [bind]; [| discriminate].
    destruct (market_gaps self markets vendors dcs threshold) as [more |];
      cbn [bind]; [| discriminate].
    intros H. injection H as <-.
    destruct (vendor_gaps_ok _ _ _ _ _ _ Hhere) as (Hall1 & Hlen1 & Hnone1).
    destruct (IH more eq_refl) as (Hall2 & Hlen2 & Hnone2).
    split; [apply Forall_app; split; assumption |].
    split; [rewrite length_app; cbn [List.length]; lia |].
    intros market vendor [<- | Hin] Hv Hm Hpos; apply in_or_app.
    + left. now apply Hnone1.
    + right. now apply Hnone2.
Qed.

Lemma find_coverage_gaps_total (self : ProximityAnalyzer)
  (markets : list Market) (vendors : list Vendor) (dcs : list Center)
  (threshold : R) :
  average_speed_kmh self <> 0 ->
  exists gaps, find_coverage_gaps self markets vendors dcs threshold = Ok gaps.
Proof.
  intros Hv. unfold find_coverage_gaps.
  assert (H : exists gaps,
             market_gaps self markets vendors dcs threshold = Ok gaps).
  { induction markets as [| m markets [more IH]]; [cbn; eauto |].
    cbn [market_gaps].
    destruct (vendor_gaps_total self m vendors dcs threshold Hv)
      as [here ->].
    rewrite IH. cbn [bind]. eauto. }
  destruct H as [gaps ->]. cbn [bind]. eauto.
Qed.

(** X16: every gap that [find_coverage_gaps] returns has a coverage score
    below the threshold and the severity of its score (critical below 10,
    high below 20, medium otherwise); the gaps are sorted by ascending
    score; there are at most [len(markets) * len(vendors)] of them; and
    with a positive threshold every vendor without a matching center is
    reported, in every market, as a critical gap with score 0, no center
    and infinite nearest distance. *)
Theorem X16_find_coverage_gaps (self : ProximityAnalyzer)
  (markets : list Market) (vendors : list Vendor) (dcs : list Center)
  (threshold : R) (gaps : list CoverageGap) :
  find_coverage_gaps self markets vendors dcs threshold = Ok gaps ->
  Forall (gap_consistent threshold) gaps
  /\ StronglySorted
       (fun a b => gap_coverage_score a <= gap_coverage_score b) gaps
  /\ (List.length gaps <= List.length markets * List.length vendors)%nat
  /\ (forall market vendor,
        In market markets -> In vendor vendors ->
        matching vendor dcs = [] -> 0 < threshold ->
        In (no_center_gap market vendor) gaps).
Proof.
  unfold find_coverage_gaps.
  destruct (market_gaps self markets vendors dcs threshold) as [found |]
    eqn:Hfound; cbn [bind]; [| discriminate].
  intros H. injection H as <-.
  destruct (market_gaps_ok _ _ _ _ _ _ Hfound) as (Hall & Hlen & Hnone).
  assert (Hperm : Permutation (sort_by_key gap_coverage_score found) found)
    by apply sort_perm.
  split.
  { rewrite Forall_forall in *. intros g Hg. apply Hall.
    eapply Permutation_in; eassumption. }
  split; [apply sort_by_key_sorted |].
  split; [rewrite (Permutation_length Hperm); exact Hlen |].
  intros market vendor Hmk Hv Hm Hpos.
  eapply Permutation_in; [symmetry; exact Hperm |].
  now apply Hnone.
Qed.

Lemma X16_find_coverage_gaps_witness :
  exists gaps,
    find_coverage_gaps default_analyzer [sample_market]
      [sample_vendor; sample_vendor_without_center] [center_here]
      default_min_coverage_score = Ok gaps
    /\ In (no_center_gap sample_market sample_vendor_without_center) gaps
    /\ (List.length gaps <= 2)%nat.
Proof.
  destruct (find_coverage_gaps_total default_analyzer [sample_market]
              [sample_vendor; sample_vendor_without_center] [center_here]
              default_min_coverage_score) as [gaps Hgaps].
  { unfold default_analyzer, default_average_speed_kmh. cbn. lra. }
  destruct (X16_find_coverage_gaps default_analyzer [sample_market]
              [sample_vendor; sample_vendor_without_center] [center_here]
              default_min_coverage_score gaps Hgaps)
    as (_ & _ & Hlen & Hnone).
  exists gaps. split; [exact Hgaps |]. split; [| exact Hlen].
  apply Hnone.
  - now left.
  - right. now left.
  - reflexivity.
  - unfold default_min_coverage_score. lra.
Defined.

(** ** Serialisation of a computed score *)

(** X17: every score returned by [calculate_proximity] has a distance that
    is not negative, a proximity score in [[0, 100]] and a shipping cost
    factor of at least 1, which [to_dict] serialises as a float, never as
    [None]; its travel time is serialised as [None] exactly when the
    distance is 0. *)
Theorem X17_calculate_proximity_score (self : ProximityAnalyzer)
  (mlat mlon clat clon : R) (vid vname cid cname : string)
  (mid : option string) (ps : ProximityScore)
  (Hps : calculate_proximity self mlat mlon clat clon vid vname cid cname mid
         = Ok ps) :
  0 <= ps_distance_km ps
  /\ 0 <= ps_proximity_score ps <= 100
  /\ (exists factor,
        ps_shipping_cost_factor ps = Some factor
        /\ 1 <= factor
        /\ item "shipping_cost_factor" (ProximityScore_to_dict ps)
           = Some (PFloat (py_round factor 3)))
  /\ (item "travel_time_estimate_hours" (ProximityScore_to_dict ps)
      = Some PNone
      <-> ps_distance_km ps = 0).
Proof.
  unfold calculate_proximity, estimate_travel_time, fdiv in Hps.
  pose proof (haversine_nonneg mlat mlon clat clon) as Hd.
  set (d := haversine_distance mlat mlon clat clon) in *.
  assert (Hfactor : 1 <= calculate_shipping_cost_factor d
                           default_base_cost_per_km default_min_factor).
  { unfold calculate_shipping_cost_factor, default_base_cost_per_km,
      default_min_factor. lra. }
  destruct (Rleb d 0) eqn:Hzero.
  - apply Rleb_spec in Hzero. assert (Hd0 : d = 0) by lra.
    cbn [bind] in Hps. injection Hps as <-.
    unfold ProximityScore_to_dict.
    cbn [ps_distance_km ps_proximity_score ps_shipping_cost_factor
         ps_travel_time_estimate_hours item String.eqb Ascii.eqb Bool.eqb].
    split; [exact Hd |]. split; [apply proximity_score_range |].
    split.
    + eexists. split; [reflexivity |]. split; [exact Hfactor |].
      unfold round_if_truthy, truthy. rewrite Reqb_false by lra. reflexivity.
    + rewrite round_if_truthy_zero. tauto.
  - assert (Hpos : 0 < d).
    { destruct (Rle_or_lt d 0) as [H | H]; [| exact H].
      apply Rleb_true in H. congruence. }
    destruct (Reqb (average_speed_kmh self) 0) eqn:Hv;
      cbn [bind] in Hps; [discriminate |].
    injection Hps as <-.
    unfold ProximityScore_to_dict.
    cbn [ps_distance_km ps_proximity_score ps_shipping_cost_factor
         ps_travel_time_estimate_hours item String.eqb Ascii.eqb Bool.eqb].
    split; [exact Hd |]. split; [apply proximity_score_range |].
    split.
    + eexists. split; [reflexivity |]. split; [exact Hfactor |].
      unfold round_if_truthy, truthy. rewrite Reqb_false by lra. reflexivity.
    + assert (Hne : average_speed_kmh self <> 0).
      { intros E. apply Reqb_true in E. congruence. }
      assert (Ht : d / average_speed_kmh self <> 0).
      { unfold Rdiv. apply Rmult_integral_contrapositive_currified; [lra |].
        now apply Rinv_neq_0_compat. }
      unfold round_if_truthy, truthy. rewrite (Reqb_false _ _ Ht).
      cbn [negb]. split; [discriminate | lra].
Qed.

Lemma X17_calculate_proximity_score_witness :
  exists ps,
    calculate_proximity default_analyzer 0 0 0 180 "V-001" "Vendor" "DC-002"
      "Antipode" None = Ok ps
    /\ 0 <= ps_distance_km ps
    /\ 0 <= ps_proximity_score ps <= 100.
Proof.
  eexists. split; [apply calculate_proximity_antipode |].
  destruct (X17_calculate_proximity_score default_analyzer 0 0 0 180 "V-001"
              "Vendor" "DC-002" "Antipode" None _
              (calculate_proximity_antipode _ _ _ _ _)) as (Hd & Hs & _).
  split; assumption.
Defined.

(** ** Regional variances: what is returned and what is raised *)

(** What every [PricingVariance] returned satisfies. *)
Definition variance_consistent (self : VarianceDetector) (v : PricingVariance)
  : Prop :=
  pv_absolute_variance v = pv_comparison_price v - pv_base_price v
  /\ (0 < pv_base_price v ->
      pv_percentage_variance v
      = pv_absolute_variance v / pv_base_price v * 100)
  /\ (pv_base_price v <= 0 -> pv_percentage_variance v = 0)
  /\ pv_comparison_region_id v <> pv_base_region_id v
  /\ (let adjustment :=
        get (item (pv_comparison_region_id v) (regional_adjustments self)) 1 in
      adjustment <> 0
      /\ pv_normalized_variance v * adjustment = pv_percentage_variance v).

Lemma variance_of_ok (self : VarianceDetector)
  (sku_id product_name currency base_id base_name : string) (base_price : R)
  (entry : string * (R * string)) (v : PricingVariance) :
  variance_of self sku_id product_name currency base_id base_name base_price
    entry = Ok v ->
  fst entry <> base_id ->
  variance_consistent self v
  /\ pv_sku_id v = sku_id /\ pv_base_region_id v = base_id
  /\ pv_base_price v = base_price.
Proof.
  unfold variance_of, fdiv.
  destruct (Reqb (get (item (fst entry) (regional_adjustments self)) 1) 0)
    eqn:Hadj; cbn [bind]; [discriminate |].
  intros H Hne. injection H as <-.
  unfold variance_consistent.
  cbn [pv_absolute_variance pv_comparison_price pv_base_price
       pv_percentage_variance pv_comparison_region_id pv_base_region_id
       pv_normalized_variance pv_sku_id].
  assert (Hnz : get (item (fst entry) (regional_adjustments self)) 1 <> 0).
  { intros E. apply Reqb_true in E. congruence. }
  repeat split; try assumption.
  - intros Hb. unfold Rgtb. now rewrite (Rltb_true _ _ Hb).
  - intros Hb. unfold Rgtb. now rewrite (Rltb_false _ _ Hb).
  - field. exact Hnz.
Qed.

Lemma variance_of_raises (self : VarianceDetector)
  (sku_id product_name currency base_id base_name : string) (base_price : R)
  (entry : string * (R * string)) (e : exn) :
  variance_of self sku_id product_name currency base_id base_name base_price
    entry = Raise e ->
  e = ZeroDivisionError
  /\ get (item (fst entry) (regional_adjustments self)) 1 = 0.
Proof.
  unfold variance_of, fdiv.
  destruct (Reqb _ 0) eqn:Hadj; cbn [bind]; [| discriminate].
  intros H. injection H as <-. split; [reflexivity | now apply Reqb_spec].
Qed.

Lemma mapM_ok {A B : Type} (f : A -> result B) (l : list A) (ys : list B) :
  mapM f l = Ok ys -> Forall2 (fun x y => f x = Ok y) l ys.
Proof.
  revert ys. induction l as [| x l IH]; intros ys; cbn [mapM].
  - intros H. injection H as <-. constructor.
  - destruct (f x) as [y |] eqn:Hy; cbn [bind]; [| discriminate].
    destruct (mapM f l) as [ys' |]; cbn [bind]; [| discriminate].
    intros H. injection H as <-. constructor; [exact Hy | now apply IH].
Qed.

Lemma mapM_raises {A B : Type} (f : A -> result B) (l : list A) (e : exn) :
  mapM f l = Raise e -> exists x, In x l /\ f x = Raise e.
Proof.
  induction l as [| x l IH]; cbn [mapM]; [discriminate |].
  destruct (f x) as [y |] eqn:Hy; cbn [bind].
  - destruct (mapM f l) as [ys' |]; cbn [bind]; [discriminate |].
    intros H. injection H as <-.
    destruct (IH eq_refl) as (x' & Hin & Hx'). exists x'. split; auto.
    now right.
  - intros H. injection H as <-. exists x. split; [now left | exact Hy].
Qed.

(** The base region and base price the loop body settles on for one SKU. *)
Definition chosen_base (base : option string)
  (region_avg_prices : dict (R * string)) : string * (R * string) :=
  match supplied_base base region_avg_prices with
  | Some (base_price, base_name) =>
      (get base EmptyString, (base_price, base_name))
  | None =>
      let all_prices := map (fun e => fst (snd e)) region_avg_prices in
      ("global_avg",
       (py_sum all_prices / INR (List.length all_prices), "Global Average"))
  end.

Lemma chosen_base_id (base : option string)
  (region_avg_prices : dict (R * string)) :
  Some (fst (chosen_base base region_avg_prices)) = base
  \/ fst (chosen_base base region_avg_prices) = "global_avg".
Proof.
  unfold chosen_base, supplied_base.
  destruct base as [b |]; [| now right].
  destruct (String.eqb b EmptyString); [now right |].
  destruct (item b region_avg_prices) as [[price name] |]; [now left | now right].
Qed.

(** The body of the loop over SKUs: either it skips the SKU, or it compares
    every averaged market other than the base with the base chosen. *)
Lemma sku_variances_cases (self : VarianceDetector) (base : option string)
  (sku_id : string) (markets : dict (list PricingRecord))
  (r : option string * list PricingVariance) :
  sku_variances self base sku_id markets = Ok r ->
  r = (base, [])
  \/ (2 <= List.length (region_avg markets))%nat
     /\ fst r = Some (fst (chosen_base base (region_avg markets)))
     /\ Forall
          (fun v =>
             variance_consistent self v /\ pv_sku_id v = sku_id
             /\ pv_base_region_id v
                = fst (chosen_base base (region_avg markets))
             /\ pv_base_price v
                = fst (snd (chosen_base base (region_avg markets))))
          (snd r).
Proof.
  unfold sku_variances.
  destruct (List.length markets <? 2)%nat.
  { intros H. injection H as <-. now left. }
  destruct markets as [| [m [| first records]] markets'] eqn:Hmarkets;
    cbn [bind]; try discriminate.
  rewrite <- Hmarkets. clear Hmarkets.
  destruct (List.length (region_avg markets) <? 2)%nat eqn:Hlen.
  { intros H. injection H as <-. now left. }
  fold (chosen_base base (region_avg markets)).
  destruct (mapM _ _) as [variances |] eqn:Hmap; cbn [bind]; [| discriminate].
  intros H. injection H as <-. right. cbn [fst snd].
  apply Nat.ltb_ge in Hlen. split; [exact Hlen |]. split; [reflexivity |].
  apply mapM_ok in Hmap. apply Forall_forall. intros v Hv.
  destruct (Forall2_In_r _ _ _ _ Hmap Hv) as (entry & Hentry & Hok).
  apply filter_In in Hentry. destruct Hentry as [_ Hne].
  apply (variance_of_ok _ _ _ _ _ _ _ _ _ Hok).
  intros E. rewrite E, String.eqb_refl in Hne. discriminate.
Qed.

Lemma sku_variances_raises (self : VarianceDetector) (base : option string)
  (sku_id : string) (markets : dict (list PricingRecord)) (e : exn) :
  markets_filled markets ->
  sku_variances self base sku_id markets = Raise e ->
  e = ZeroDivisionError
  /\ exists market_id,
       get (item market_id (regional_adjustments self)) 1 = 0.
Proof.
  intros Hm. unfold sku_variances.
  destruct (List.length markets <? 2)%nat eqn:Hlen; [discriminate |].
  destruct markets as [| [m records] markets'] eqn:Hmarkets;
    [discriminate Hlen |].
  apply Forall_inv in Hm. cbn [snd] in Hm.
  destruct records as [| first records]; [congruence |].
  cbn [bind]. rewrite <- Hmarkets.
  destruct (List.length (region_avg markets) <? 2)%nat; [discriminate |].
  destruct (mapM _ _) as [variances |] eqn:Hmap; cbn [bind]; [discriminate |].
  intros H. injection H as <-.
  apply mapM_raises in Hmap. destruct Hmap as (entry & _ & Hentry).
  apply variance_of_raises in Hentry. destruct Hentry as [-> Hzero].
  split; [reflexivity | now exists (fst entry)].
Qed.

Lemma sku_loop_ok (self : VarianceDetector)
  (sku_prices : dict (dict (list PricingRecord))) :
  forall (base : option string) (vs : list PricingVariance),
  sku_loop self base sku_prices = Ok vs ->
  Forall
    (fun v =>
       variance_consistent self v
       /\ (Some (pv_base_region_id v) = base
           \/ pv_base_region_id v = "global_avg")
       /\ exists markets, In (pv_sku_id v, markets) sku_prices)
    vs.
Proof.
  induction sku_prices as [| [sku_id markets] rest IH]; intros base vs;
    cbn [sku_loop].
  { intros H. injection H as <-. constructor. }
  destruct (sku_variances self base sku_id markets) as [r |] eqn:Hr;
    cbn [bind]; [| discriminate].
  destruct (sku_loop self (fst r) rest) as [vs' |] eqn:Hrest; cbn [bind];
    [| discriminate].
  intros H. injection H as <-.
  specialize (IH _ _ Hrest).
  assert (Hfst : fst r = base \/ fst r = Some "global_avg").
  { destruct (sku_variances_cases _ _ _ _ _ Hr) as [-> | (_ & -> & _)];
      [now left |].
    destruct (chosen_base_id base (region_avg markets)) as [E | E];
      [left | right]; congruence. }
  apply Forall_app. split.
  - destruct (sku_variances_cases _ _ _ _ _ Hr) as [-> | (_ & _ & Hall)];
      [constructor |].
    eapply Forall_impl; [| exact Hall].
    intros v (Hc & Hsku & Hid & _). split; [exact Hc |]. split.
    + rewrite Hid. apply chosen_base_id.
    + exists markets. rewrite Hsku. now left.
  - eapply Forall_impl; [| exact IH].
    intros v (Hc & Hid & markets' & Hin). split; [exact Hc |]. split.
    + destruct Hid as [Hid | Hid]; [| now right].
      destruct Hfst as [E | E]; [left; congruence |].
      right. rewrite E in Hid. now injection Hid.
    + exists markets'. now right.
Qed.

Lemma sku_loop_raises (self : VarianceDetector)
  (sku_prices : dict (dict (list PricingRecord))) :
  Forall (fun e => markets_filled (snd e)) sku_prices ->
  forall (base : option string) (e : exn),
  sku_loop self base sku_prices = Raise e ->
  e = ZeroDivisionError
  /\ exists market_id,
       get (item market_id (regional_adjustments self)) 1 = 0.
Proof.
  induction 1 as [| [sku_id markets] rest Hm Hrest IH]; intros base e;
    cbn [sku_loop]; [discriminate |].
  destruct (sku_variances self base sku_id markets) as [r |] eqn:Hr;
    cbn [bind].
  - destruct (sku_loop self (fst r) rest) as [vs' |] eqn:Hloop; cbn [bind];
      [discriminate |].
    intros H. injection H as <-. exact (IH _ _ Hloop).
  - intros H. injection H as <-.
    exact (sku_variances_raises _ _ _ _ _ Hm Hr).
Qed.

Lemma get_item_factor (market_id : string) (factors : dict R) :
  get (item market_id factors) 1 = 0 -> exists k, In (k, 0) factors.
Proof.
  destruct (item market_id factors) as [a |] eqn:E; cbn [get]; [| lra].
  intros ->. exact (item_In _ _ _ E).
Qed.

(** X18 (calculate_regional_variance, results): every variance returned
    compares two different regions, its absolute variance is the comparison
    price minus the base price, its percentage variance is that difference
    over the base price times 100 (and 0 when the base price is not
    positive), its normalised variance times the region's adjustment factor
    gives the percentage back, and its base region is the one supplied or
    "global_avg". *)
Theorem X18_regional_variance_results (self : VarianceDetector)
  (pricing_data : list PricingRecord) (base_region_id : option string)
  (variances : list PricingVariance) :
  calculate_regional_variance self pricing_data base_region_id = Ok variances ->
  forall v, In v variances ->
    pv_comparison_region_id v <> pv_base_region_id v
    /\ pv_absolute_variance v = pv_comparison_price v - pv_base_price v
    /\ (0 < pv_base_price v ->
        pv_percentage_variance v
        = (pv_comparison_price v - pv_base_price v) / pv_base_price v * 100)
    /\ (pv_base_price v <= 0 -> pv_percentage_variance v = 0)
    /\ pv_normalized_variance v
       * get (item (pv_comparison_region_id v) (regional_adjustments self)) 1
       = pv_percentage_variance v
    /\ (Some (pv_base_region_id v) = base_region_id
        \/ pv_base_region_id v = "global_avg").
Proof.
  unfold calculate_regional_variance. intros Hok v Hv.
  apply sku_loop_ok in Hok. rewrite Forall_forall in Hok.
  destruct (Hok v Hv) as ((Habs & Hpos & Hzero & Hne & _ & Hnorm) & Hid & _).
  repeat split; try assumption.
  intros Hb. rewrite (Hpos Hb), Habs. reflexivity.
Qed.

(** X19 (calculate_regional_variance, errors): the function returns whenever
    no regional adjustment factor is zero; the only exception it raises is
    ZeroDivisionError, and then some adjustment factor is zero. *)
Theorem X19_regional_variance_errors (self : VarianceDetector)
  (pricing_data : list PricingRecord) (base_region_id : option string) :
  (Forall (fun kv => snd kv <> 0) (regional_adjustments self) ->
   exists variances,
     calculate_regional_variance self pricing_data base_region_id
     = Ok variances)
  /\ (forall e,
        calculate_regional_variance self pricing_data base_region_id
        = Raise e ->
        e = ZeroDivisionError
        /\ exists region, In (region, 0) (regional_adjustments self)).
Proof.
  split.
  - apply calculate_regional_variance_total.
  - intros e He. unfold calculate_regional_variance in He.
    apply sku_loop_raises in He; [| apply group_by_sku_market_filled].
    destruct He as [-> [market_id Hzero]]. split; [reflexivity |].
    exact (get_item_factor _ _ Hzero).
Qed.

Lemma regional_variance_sku_b :
  calculate_regional_variance default_detector sku_b_data (Some "MKT-R")
  = Ok [ mkPricingVariance "SKU-B" "SKU-B" "MKT-R" "MKT-R" 10 "USD" "MKT-1"
           "MKT-1" 30 (30 - 10) ((30 - 10) / 10 * 100)
           ((30 - 10) / 10 * 100 / 1) ].
Proof.
  unfold calculate_regional_variance.
  change (group_by_sku_market sku_b_data)
    with [ ("SKU-B", [ ("MKT-R", [quote "SKU-B" "MKT-R" 10]);
                       ("MKT-1", [quote "SKU-B" "MKT-1" 30]) ]) ].
  cbn [sku_loop]. rewrite sku_b_with_supplied_base. reflexivity.
Qed.

Lemma X18_regional_variance_results_witness :
  exists v,
    pv_comparison_region_id v <> pv_base_region_id v
    /\ pv_absolute_variance v = pv_comparison_price v - pv_base_price v
    /\ pv_percentage_variance v = (30 - 10) / 10 * 100.
Proof.
  destruct (X18_regional_variance_results default_detector sku_b_data
              (Some "MKT-R") _ regional_variance_sku_b _
              (or_introl eq_refl))
    as (Hne & Habs & _).
  eexists. split; [exact Hne |]. split; [exact Habs | reflexivity].
Defined.

Lemma X19_regional_variance_errors_witness :
  exists variances,
    calculate_regional_variance default_detector sku_b_data (Some "MKT-R")
    = Ok variances.
Proof.
  exact (proj1 (X19_regional_variance_errors default_detector sku_b_data
                  (Some "MKT-R"))
           (Forall_nil _)).
Defined.

Lemma chosen_base_supplied (b : string)
  (region_avg_prices : dict (R * string)) :
  b <> EmptyString ->
  item b region_avg_prices <> None ->
  exists name,
    item b region_avg_prices
    = Some (fst (snd (chosen_base (Some b) region_avg_prices)), name)
    /\ fst (chosen_base (Some b) region_avg_prices) = b.
Proof.
  intros Hb Hitem. unfold chosen_base, supplied_base.
  apply String.eqb_neq in Hb. rewrite Hb.
  destruct (item b region_avg_prices) as [[price name] |]; [| congruence].
  exists name. split; reflexivity.
Qed.

(** When the supplied region has an average for the SKU (or the SKU is
    skipped), the loop keeps the supplied base. *)
Lemma sku_loop_supplied (self : VarianceDetector) (b : string)
  (sku_prices : dict (dict (list PricingRecord))) :
  b <> EmptyString ->
  Forall
    (fun e =>
       (2 <= List.length (region_avg (snd e)))%nat ->
       item b (region_avg (snd e)) <> None)
    sku_prices ->
  forall vs,
    sku_loop self (Some b) sku_prices = Ok vs ->
    Forall
      (fun v =>
         pv_base_region_id v = b
         /\ exists markets name,
              In (pv_sku_id v, markets) sku_prices
              /\ item b (region_avg markets) = Some (pv_base_price v, name))
      vs.
Proof.
  intros Hb. induction 1 as [| [sku_id markets] rest Hm Hrest IH];
    intros vs; cbn [sku_loop].
  { intros H. injection H as <-. constructor. }
  destruct (sku_variances self (Some b) sku_id markets) as [r |] eqn:Hr;
    cbn [bind]; [| discriminate].
  destruct (sku_loop self (fst r) rest) as [vs' |] eqn:Hloop; cbn [bind];
    [| discriminate].
  intros H. injection H as <-. cbn [snd] in Hm.
  assert (Hkeep :
            fst r = Some b
            /\ Forall
                 (fun v =>
                    pv_base_region_id v = b
                    /\ exists name,
                         pv_sku_id v = sku_id
                         /\ item b (region_avg markets)
                            = Some (pv_base_price v, name))
                 (snd r)).
  { destruct (sku_variances_cases _ _ _ _ _ Hr) as [-> | (Hlen & Hfst & Hall)].
    { split; [reflexivity | constructor]. }
    destruct (chosen_base_supplied b (region_avg markets) Hb (Hm Hlen))
      as (name & Hitem & Hid).
    split; [congruence |].
    eapply Forall_impl; [| exact Hall].
    intros v (_ & Hsku & Hbase & Hprice). split; [congruence |].
    exists name. split; [exact Hsku |]. now rewrite Hprice. }
  destruct Hkeep as [Hfst Hall]. rewrite Hfst in Hloop.
  apply Forall_app. split.
  - eapply Forall_impl; [| exact Hall].
    intros v (Hid & name & Hsku & Hitem). split; [exact Hid |].
    exists markets, name. split; [rewrite Hsku; now left | exact Hitem].
  - eapply Forall_impl; [| exact (IH _ Hloop)].
    intros v (Hid & markets' & name & Hin & Hitem). split; [exact Hid |].
    exists markets', name. split; [now right | exact Hitem].
Qed.

(** X20 (calculate_regional_variance, supplied base region): when the
    supplied base region has an average price for every SKU that is compared
    (every SKU with at least two averaged markets), every variance returned
    has the supplied region as its base, and its base price is the average of
    that region for its SKU. *)
Theorem X20_supplied_base_kept (self : VarianceDetector)
  (pricing_data : list PricingRecord) (b : string)
  (variances : list PricingVariance) :
  b <> EmptyString ->
  Forall
    (fun e =>
       (2 <= List.length (region_avg (snd e)))%nat ->
       item b (region_avg (snd e)) <> None)
    (group_by_sku_market pricing_data) ->
  calculate_regional_variance self pricing_data (Some b) = Ok variances ->
  forall v, In v variances ->
    pv_base_region_id v = b
    /\ exists markets name,
         In (pv_sku_id v, markets) (group_by_sku_market pricing_data)
         /\ item b (region_avg markets) = Some (pv_base_price v, name).
Proof.
  intros Hb Hpresent Hok v Hv.
  pose proof (sku_loop_supplied self b _ Hb Hpresent _ Hok) as Hall.
  rewrite Forall_forall in Hall. exact (Hall v Hv).
Qed.

Lemma X20_supplied_base_kept_witness :
  exists v, pv_base_region_id v = "MKT-R" /\ pv_sku_id v = "SKU-B".
Proof.
  exists (mkPricingVariance "SKU-B" "SKU-B" "MKT-R" "MKT-R" 10 "USD" "MKT-1"
            "MKT-1" 30 (30 - 10) ((30 - 10) / 10 * 100)
            ((30 - 10) / 10 * 100 / 1)).
  split; [| reflexivity].
  refine (proj1 (X20_supplied_base_kept default_detector sku_b_data "MKT-R" _
                   _ _ regional_variance_sku_b _ (or_introl eq_refl))).
  - discriminate.
  - change (group_by_sku_market sku_b_data)
      with [ ("SKU-B", [ ("MKT-R", [quote "SKU-B" "MKT-R" 10]);
                         ("MKT-1", [quote "SKU-B" "MKT-1" 30]) ]) ].
    constructor; [| constructor]. intros _. cbn [snd].
    rewrite region_avg_quote by lra. cbn [item String.eqb Ascii.eqb Bool.eqb].
    discriminate.
Defined.

(** ** The grouping loops *)

Section Grouping.
Context {K A V : Type}.
Variable eqb : K -> K -> bool.
Hypothesis eqb_eq : forall a b, eqb a b = true <-> a = b.
Variable key : A -> K.
Variable empty : V.
Variable add : V -> A -> V.

(** [d[k] = f(d.get(k))] and [d.get(k)] for keys of any type that has an
    equality test. *)
Fixpoint kupdate (k : K) (f : option V -> V) (d : list (K * V))
  : list (K * V) :=
  match d with
  | [] => [(k, f None)]
  | (k', v) :: d' =>
      if eqb k' k then (k', f (Some v)) :: d' else (k', v) :: kupdate k f d'
  end.

Fixpoint kitem (k : K) (d : list (K * V)) : option V :=
  match d with
  | [] => None
  | (k', v) :: d' => if eqb k' k then Some v else kitem k d'
  end.

(** The shape shared by the grouping loops: the entry of an element's key is
    created from [empty] when missing, and the element is added to it. *)
Definition group_fold (l : list A) : list (K * V) :=
  fold_left (fun d x => kupdate (key x) (fun v => add (get v empty) x) d) l [].

Lemma key_eqb_refl (k : K) : eqb k k = true.
Proof. now apply eqb_eq. Qed.

Lemma kitem_kupdate (k k' : K) (f : option V -> V) (d : list (K * V)) :
  kitem k (kupdate k' f d)
  = if eqb k' k then Some (f (kitem k d)) else kitem k d.
Proof.
  induction d as [| [k0 v] d IH]; cbn [kupdate kitem].
  - destruct (eqb k' k); reflexivity.
  - destruct (eqb k0 k') eqn:E0; cbn [kitem].
    + apply eqb_eq in E0. subst k0. destruct (eqb k' k); reflexivity.
    + rewrite IH. destruct (eqb k0 k) eqn:E1; [| reflexivity].
      apply eqb_eq in E1. subst k0.
      destruct (eqb k' k) eqn:E2; [| reflexivity].
      apply eqb_eq in E2. subst k'. rewrite key_eqb_refl in E0. discriminate.
Qed.

Lemma kupdate_keys (k k0 : K) (f : option V -> V) (d : list (K * V)) :
  In k0 (map fst (kupdate k f d)) -> k0 = k \/ In k0 (map fst d).
Proof.
  induction d as [| [k1 v] d IH]; cbn [kupdate map fst In].
  - intros [<- | []]. now left.
  - destruct (eqb k1 k); cbn [map fst In].
    + intros [<- | H]; right; [now left | now right].
    + intros [<- | H]; [right; now left |].
      destruct (IH H) as [-> | H']; [now left | right; now right].
Qed.

Lemma kupdate_NoDup (k : K) (f : option V -> V) (d : list (K * V)) :
  NoDup (map fst d) -> NoDup (map fst (kupdate k f d)).
Proof.
  induction d as [| [k1 v] d IH]; cbn [kupdate map fst]; intros Hd.
  - constructor; [intros [] | constructor].
  - destruct (eqb k1 k) eqn:E; cbn [map fst]; [exact Hd |].
    inversion Hd as [| ? ? Hnotin Hd']; subst.
    constructor; [| now apply IH].
    intros Hin. destruct (kupdate_keys _ _ _ _ Hin) as [-> | Hin'].
    + rewrite key_eqb_refl in E. discriminate.
    + contradiction.
Qed.

Lemma In_kitem (k : K) (v : V) (d : list (K * V)) :
  NoDup (map fst d) -> In (k, v) d -> kitem k d = Some v.
Proof.
  induction d as [| [k0 v0] d IH]; cbn [map fst In kitem]; [intros _ [] |].
  intros Hd Hin. inversion Hd as [| ? ? Hnotin Hd']; subst.
  destruct Hin as [E | Hin].
  - injection E as -> ->. now rewrite key_eqb_refl.
  - destruct (eqb k0 k) eqn:E; [| now apply IH].
    apply eqb_eq in E. subst k0. exfalso. apply Hnotin.
    apply in_map_iff. exists (k, v). split; [reflexivity | exact Hin].
Qed.

Lemma kitem_In (k : K) (v : V) (d : list (K * V)) :
  kitem k d = Some v -> In (k, v) d.
Proof.
  induction d as [| [k0 v0] d IH]; cbn [kitem In]; [discriminate |].
  destruct (eqb k0 k) eqn:E.
  - apply eqb_eq in E. subst k0. intros H. injection H as <-. now left.
  - intros H. right. now apply IH.
Qed.

Lemma group_fold_snoc (l : list A) (x : A) :
  group_fold (l ++ [x])
  = kupdate (key x) (fun v => add (get v empty) x) (group_fold l).
Proof.
  unfold group_fold. now rewrite fold_left_app.
Qed.

Lemma group_fold_NoDup (l : list A) : NoDup (map fst (group_fold l)).
Proof.
  induction l as [| x l IH] using rev_ind; [constructor |].
  rewrite group_fold_snoc. now apply kupdate_NoDup.
Qed.

(** The entry of a key gathers, in their order, the elements with that key;
    a key of no element has no entry. *)
Lemma kitem_group_fold (k : K) (l : list A) :
  kitem k (group_fold l)
  = match filter (fun x => eqb (key x) k) l with
    | [] => None
    | _ :: _ => Some (fold_left add (filter (fun x => eqb (key x) k) l) empty)
    end.
Proof.
  induction l as [| x l IH] using rev_ind; [reflexivity |].
  rewrite group_fold_snoc, kitem_kupdate, filter_app, IH.
  cbn [filter]. destruct (eqb (key x) k).
  - rewrite fold_left_app. cbn [fold_left].
    destruct (filter _ l) as [| y ys]; reflexivity.
  - now rewrite app_nil_r.
Qed.

Lemma In_group_fold (k : K) (v : V) (l : list A) :
  In (k, v) (group_fold l) ->
  filter (fun x => eqb (key x) k) l <> []
  /\ v = fold_left add (filter (fun x => eqb (key x) k) l) empty.
Proof.
  intros Hin. apply In_kitem in Hin; [| apply group_fold_NoDup].
  rewrite kitem_group_fold in Hin.
  destruct (filter _ l) as [| y ys]; [discriminate |].
  injection Hin as <-. split; [discriminate | reflexivity].
Qed.

Lemma group_fold_In (k : K) (l : list A) :
  filter (fun x => eqb (key x) k) l <> [] ->
  In (k, fold_left add (filter (fun x => eqb (key x) k) l) empty)
    (group_fold l).
Proof.
  intros Hne. apply kitem_In. rewrite kitem_group_fold.
  destruct (filter _ l) as [| y ys]; [congruence | reflexivity].
Qed.

End Grouping.

Lemma dict_update_kupdate {V : Type} (k : string) (f : option V -> V)
  (d : dict V) :
  dict_update k f d = kupdate String.eqb k f d.
Proof.
  induction d as [| [k' v] d IH]; cbn [dict_update kupdate]; [reflexivity |].
  now rewrite IH.
Qed.

Lemma pair_update_kupdate {V : Type} (k : string * string)
  (f : option V -> V) (d : pair_dict V) :
  pair_update k f d = kupdate pair_eqb k f d.
Proof.
  induction d as [| [k' v] d IH]; cbn [pair_update kupdate]; [reflexivity |].
  now rewrite IH.
Qed.

Lemma pair_eqb_eq (a b : string * string) : pair_eqb a b = true <-> a = b.
Proof.
  destruct a as [a1 a2], b as [b1 b2]. unfold pair_eqb. cbn [fst snd].
  rewrite andb_true_iff, !String.eqb_eq. split.
  - intros [-> ->]. reflexivity.
  - intros H. injection H as -> ->. split; reflexivity.
Qed.

Lemma fold_left_ext {A B : Type} (f g : A -> B -> A) (l : list B) (a : A) :
  (forall a' b, f a' b = g a' b) -> fold_left f l a = fold_left g l a.
Proof.
  intros Hfg. revert a. induction l as [| b l IH]; intros a; [reflexivity |].
  cbn [fold_left]. now rewrite Hfg, IH.
Qed.

Lemma fold_left_snoc {A : Type} (l acc : list A) :
  fold_left (fun rs r => (rs ++ [r])%list) l acc = (acc ++ l)%list.
Proof.
  revert acc. induction l as [| x l IH]; intros acc; cbn [fold_left].
  - now rewrite app_nil_r.
  - rewrite IH, <- app_assoc. reflexivity.
Qed.

(** The keys under which the loops file a record. *)
Definition sku_of (r : PricingRecord) : string :=
  get (rec_sku_id r) EmptyString.

Definition market_of (r : PricingRecord) : string :=
  get (rec_market_id r) EmptyString.

(** The records of a SKU, and those of a SKU in a market, in the order of the
    dataset. *)
Definition records_of (sku_id : string) (pricing_data : list PricingRecord)
  : list PricingRecord :=
  filter (fun r => String.eqb (sku_of r) sku_id) pricing_data.

Definition quotes_of (sku_id market_id : string)
  (pricing_data : list PricingRecord) : list PricingRecord :=
  filter (fun r => String.eqb (market_of r) market_id)
    (records_of sku_id pricing_data).

Lemma group_by_sku_fold (pricing_data : list PricingRecord) :
  group_by_sku pricing_data
  = group_fold String.eqb sku_of [] (fun rs r => (rs ++ [r])%list)
      pricing_data.
Proof.
  unfold group_by_sku, group_fold. apply fold_left_ext.
  intros d record. apply dict_update_kupdate.
Qed.

Lemma group_by_market_fold (records : list PricingRecord) :
  fold_left
    (fun markets r =>
       dict_update (market_of r) (fun rs => (get rs [] ++ [r])%list) markets)
    records []
  = group_fold String.eqb market_of [] (fun rs r => (rs ++ [r])%list) records.
Proof.
  unfold group_fold. apply fold_left_ext.
  intros d record. apply dict_update_kupdate.
Qed.

Lemma group_by_sku_market_fold (pricing_data : list PricingRecord) :
  group_by_sku_market pricing_data
  = group_fold String.eqb sku_of []
      (fun markets r =>
         dict_update (market_of r) (fun rs => (get rs [] ++ [r])%list)
           markets)
      pricing_data.
Proof.
  unfold group_by_sku_market, group_fold. apply fold_left_ext.
  intros d record. apply dict_update_kupdate.
Qed.

Lemma group_by_sku_spec (pricing_data : list PricingRecord) (sku_id : string)
  (records : list PricingRecord) :
  In (sku_id, records) (group_by_sku pricing_data) ->
  records = records_of sku_id pricing_data.
Proof.
  rewrite group_by_sku_fold. intros Hin.
  apply (In_group_fold _ String.eqb_eq) in Hin.
  destruct Hin as [_ ->]. now rewrite fold_left_snoc.
Qed.

Lemma group_by_sku_In (pricing_data : list PricingRecord) (sku_id : string) :
  records_of sku_id pricing_data <> [] ->
  In (sku_id, records_of sku_id pricing_data) (group_by_sku pricing_data).
Proof.
  intros Hne. rewrite group_by_sku_fold.
  pose proof (group_fold_In _ String.eqb_eq sku_of []
                (fun rs r => (rs ++ [r])%list) sku_id pricing_data Hne) as H.
  now rewrite fold_left_snoc in H.
Qed.

Lemma group_by_sku_NoDup (pricing_data : list PricingRecord) :
  NoDup (map fst (group_by_sku pricing_data)).
Proof.
  rewrite group_by_sku_fold. apply group_fold_NoDup. apply String.eqb_eq.
Qed.

Lemma group_by_sku_market_spec (pricing_data : list PricingRecord)
  (sku_id market_id : string) (markets : dict (list PricingRecord))
  (records : list PricingRecord) :
  In (sku_id, markets) (group_by_sku_market pricing_data) ->
  In (market_id, records) markets ->
  records = quotes_of sku_id market_id pricing_data.
Proof.
  rewrite group_by_sku_market_fold. intros Hsku Hmarket.
  apply (In_group_fold _ String.eqb_eq) in Hsku.
  destruct Hsku as [_ ->]. rewrite group_by_market_fold in Hmarket.
  apply (In_group_fold _ String.eqb_eq) in Hmarket.
  destruct Hmarket as [_ ->]. now rewrite fold_left_snoc.
Qed.

(** The average of a list of prices, as the loops compute it. *)
Definition average (prices : list R) : R :=
  py_sum prices / INR (List.length prices).

Lemma region_avg_In (markets : dict (list PricingRecord))
  (market_id : string) (price : R) (name : string) :
  In (market_id, (price, name)) (region_avg markets) ->
  exists records,
    In (market_id, records) markets
    /\ priced records <> []
    /\ price = average (priced records).
Proof.
  unfold region_avg. intros H. apply in_flat_map in H.
  destruct H as ([m records] & Hin & H). cbn [fst snd] in H.
  destruct (priced records) as [| p ps] eqn:Hp; [destruct H |].
  destruct records as [| first records']; [destruct H |].
  destruct H as [E | []]. injection E as <- <- <-.
  exists (first :: records'). split; [exact Hin |].
  split; [rewrite Hp; discriminate |].
  unfold average. now rewrite Hp.
Qed.

Lemma variance_of_comparison (self : VarianceDetector)
  (sku_id product_name currency base_id base_name : string) (base_price : R)
  (entry : string * (R * string)) (v : PricingVariance) :
  variance_of self sku_id product_name currency base_id base_name base_price
    entry = Ok v ->
  pv_sku_id v = sku_id
  /\ entry
     = (pv_comparison_region_id v,
        (pv_comparison_price v, pv_comparison_region_name v)).
Proof.
  unfold variance_of, fdiv.
  destruct (Reqb _ 0); cbn [bind]; [discriminate |].
  intros H. injection H as <-.
  destruct entry as [m [p name]]. split; reflexivity.
Qed.

Lemma sku_variances_comparison (self : VarianceDetector)
  (base : option string) (sku_id : string)
  (markets : dict (list PricingRecord))
  (r : option string * list PricingVariance) (v : PricingVariance) :
  sku_variances self base sku_id markets = Ok r ->
  In v (snd r) ->
  pv_sku_id v = sku_id
  /\ In (pv_comparison_region_id v,
         (pv_comparison_price v, pv_comparison_region_name v))
       (region_avg markets).
Proof.
  unfold sku_variances.
  destruct (List.length markets <? 2)%nat.
  { intros H. injection H as <-. intros []. }
  destruct markets as [| [m [| first records]] markets'] eqn:Hmarkets;
    cbn [bind]; try discriminate.
  rewrite <- Hmarkets. clear Hmarkets.
  destruct (List.length (region_avg markets) <? 2)%nat.
  { intros H. injection H as <-. intros []. }
  destruct (mapM _ _) as [variances |] eqn:Hmap; cbn [bind]; [| discriminate].
  intros H. injection H as <-. cbn [snd]. intros Hv.
  apply mapM_ok in Hmap.
  destruct (Forall2_In_r _ _ _ _ Hmap Hv) as (entry & Hentry & Hok).
  apply filter_In in Hentry. destruct Hentry as [Hentry _].
  apply variance_of_comparison in Hok. destruct Hok as [Hsku <-].
  split; assumption.
Qed.

Lemma sku_loop_comparison (self : VarianceDetector)
  (sku_prices : dict (dict (list PricingRecord))) :
  forall (base : option string) (vs : list PricingVariance)
    (v : PricingVariance),
  sku_loop self base sku_prices = Ok vs ->
  In v vs ->
  exists markets,
    In (pv_sku_id v, markets) sku_prices
    /\ In (pv_comparison_region_id v,
           (pv_comparison_price v, pv_comparison_region_name v))
         (region_avg markets).
Proof.
  induction sku_prices as [| [sku_id markets] rest IH]; intros base vs v;
    cbn [sku_loop].
  { intros H. injection H as <-. intros []. }
  destruct (sku_variances self base sku_id markets) as [r |] eqn:Hr;
    cbn [bind]; [| discriminate].
  destruct (sku_loop self (fst r) rest) as [vs' |] eqn:Hrest; cbn [bind];
    [| discriminate].
  intros H Hv. injection H as <-. apply in_app_or in Hv.
  destruct Hv as [Hv | Hv].
  - destruct (sku_variances_comparison _ _ _ _ _ _ Hr Hv) as [Hsku Hin].
    exists markets. split; [rewrite Hsku; now left | exact Hin].
  - destruct (IH _ _ _ Hrest Hv) as (markets' & Hin & Hentry).
    exists markets'. split; [now right | exact Hentry].
Qed.

(** X21 (calculate_regional_variance, comparison price): the comparison
    price of a variance returned is the average of the non-zero unit prices
    of the records of the dataset that carry its SKU and its comparison
    region, and there is at least one such price. *)
Theorem X21_comparison_price (self : VarianceDetector)
  (pricing_data : list PricingRecord) (base_region_id : option string)
  (variances : list PricingVariance) :
  calculate_regional_variance self pricing_data base_region_id = Ok variances ->
  forall v, In v variances ->
    let prices :=
      priced (quotes_of (pv_sku_id v) (pv_comparison_region_id v)
                pricing_data) in
    prices <> [] /\ pv_comparison_price v = average prices.
Proof.
  unfold calculate_regional_variance. intros Hok v Hv.
  destruct (sku_loop_comparison _ _ _ _ _ Hok Hv) as (markets & Hsku & Hentry).
  destruct (region_avg_In _ _ _ _ Hentry) as (records & Hin & Hne & Havg).
  rewrite (group_by_sku_market_spec _ _ _ _ _ Hsku Hin) in Hne, Havg.
  cbv zeta. split; assumption.
Qed.

Lemma X21_comparison_price_witness :
  average
    (priced (quotes_of "SKU-B" "MKT-1" sku_b_data))
  = 30.
Proof.
  symmetry.
  exact (proj2 (X21_comparison_price default_detector sku_b_data
                  (Some "MKT-R") _ regional_variance_sku_b _
                  (or_introl eq_refl))).
Defined.

(** ** Anomalies of single observations *)

Lemma std_dev_nonneg (prices : list R) :
  0 <= st_std_dev (calculate_statistics prices).
Proof.
  destruct prices as [| p ps]; [cbn; lra |].
  rewrite calculate_statistics_nonempty by discriminate.
  cbv zeta. cbn [st_std_dev].
  destruct (1 <? _)%nat; [apply sqrt_pos | lra].
Qed.

Lemma total_nonneg (l : list R) : Forall (fun x => 0 <= x) l -> 0 <= total l.
Proof.
  induction 1 as [| x l Hx Hl IH]; [cbn; lra |].
  cbn [total fold_right]. fold (total l). lra.
Qed.

Lemma total_nonneg_zero (l : list R) :
  Forall (fun x => 0 <= x) l -> total l = 0 -> Forall (fun x => x = 0) l.
Proof.
  induction 1 as [| x l Hx Hl IH]; [constructor |].
  cbn [total fold_right]. fold (total l). intros Hsum.
  pose proof (total_nonneg l Hl) as Hrest.
  constructor; [lra | apply IH; lra].
Qed.

(** A standard deviation of 0 over at least two prices: every price is the
    mean. *)
Lemma std_dev_zero (prices : list R) (p : R) :
  (2 <= List.length prices)%nat ->
  st_std_dev (calculate_statistics prices) = 0 ->
  In p prices ->
  p = st_mean (calculate_statistics prices).
Proof.
  intros Hlen.
  assert (Hne : prices <> [])
    by (destruct prices; [cbn in Hlen; lia | discriminate]).
  rewrite calculate_statistics_nonempty by exact Hne.
  cbv zeta. cbn [st_std_dev st_mean].
  assert (Hn : (1 <? List.length prices)%nat = true) by (apply Nat.ltb_lt; lia).
  rewrite Hn. set (mean := py_sum prices / INR (List.length prices)).
  intros Hsd Hin.
  assert (Hpos : 0 < INR (List.length prices - 1)).
  { apply lt_0_INR. lia. }
  assert (Hsq : Forall (fun x => 0 <= x) (map (fun q => (q - mean) ^ 2) prices)).
  { apply Forall_forall. intros x Hx. apply in_map_iff in Hx.
    destruct Hx as (q & <- & _). apply pow2_ge_0. }
  pose proof (total_nonneg _ Hsq) as Hsum0.
  rewrite py_sum_total in Hsd.
  assert (Hquot : total (map (fun q => (q - mean) ^ 2) prices)
                  / INR (List.length prices - 1) = 0).
  { apply sqrt_eq_0; [| exact Hsd].
    apply Rmult_le_pos; [exact Hsum0 |].
    left. now apply Rinv_0_lt_compat. }
  assert (Hzero : total (map (fun q => (q - mean) ^ 2) prices) = 0).
  { unfold Rdiv in Hquot. apply Rmult_integral in Hquot.
    destruct Hquot as [H | H]; [exact H |].
    pose proof (Rinv_0_lt_compat _ Hpos). lra. }
  pose proof (total_nonneg_zero _ Hsq Hzero) as Hall.
  rewrite Forall_forall in Hall.
  assert (Hp : (p - mean) ^ 2 = 0).
  { apply Hall. apply in_map_iff. exists p. split; [reflexivity | exact Hin]. }
  cbn [pow] in Hp. nra.
Qed.

Lemma priced_In (records : list PricingRecord) (record : PricingRecord) :
  In record records ->
  0 < get (rec_unit_price record) 0 ->
  rec_unit_price record = Some (get (rec_unit_price record) 0)
  /\ In (get (rec_unit_price record) 0) (priced records).
Proof.
  intros Hin Hpos. assert (Hsome : rec_unit_price record
                                   = Some (get (rec_unit_price record) 0)).
  { destruct (rec_unit_price record); [reflexivity | cbn in Hpos; lra]. }
  split; [exact Hsome |].
  unfold priced. apply in_map_iff. exists record. split; [reflexivity |].
  apply filter_In. split; [exact Hin |].
  unfold has_price. rewrite Hsome. unfold truthy.
  rewrite Reqb_false by lra. reflexivity.
Qed.

(** What holds of an anomaly raised on a single observation. *)
Definition observation_anomaly (self : VarianceDetector)
  (pricing_data : list PricingRecord) (a : AnomalyFlag) : Prop :=
  let prices := priced (records_of (af_sku_id a) pricing_data) in
  let stats := calculate_statistics prices in
  let z :=
    calculate_z_score (af_actual_price a) (st_mean stats) (st_std_dev stats) in
  (2 <= List.length prices)%nat
  /\ (exists record,
        In record pricing_data
        /\ sku_of record = af_sku_id a
        /\ rec_unit_price record = Some (af_actual_price a)
        /\ rec_market_id record = af_market_id a
        /\ get (rec_vendor_id record) EmptyString = af_vendor_id a)
  /\ 0 < af_actual_price a
  /\ af_expected_price a = Some (st_mean stats)
  /\ af_z_score a = Some z
  /\ (z_score_threshold self <= Rabs z
      \/ variance_threshold_pct self <= Rabs (af_variance_percentage a))
  /\ (af_anomaly_type a = PRICE_SPIKE \/ af_anomaly_type a = PRICE_DROP)
  /\ (af_anomaly_type a = PRICE_SPIKE <-> st_mean stats < af_actual_price a)
  /\ af_severity a = determine_severity (Some z) (af_variance_percentage a)
  /\ (0 < st_mean stats ->
      af_variance_percentage a
      = (af_actual_price a - st_mean stats) / st_mean stats * 100)
  /\ (st_mean stats <= 0 -> af_variance_percentage a = 0).

(** What holds of an anomaly raised on a regional variance. *)
Definition regional_anomaly (self : VarianceDetector)
  (pricing_data : list PricingRecord) (a : AnomalyFlag) : Prop :=
  exists variances v,
    calculate_regional_variance self pricing_data None = Ok variances
    /\ In v variances
    /\ pv_base_region_id v = "global_avg"
    /\ af_sku_id a = pv_sku_id v
    /\ af_market_id a = Some (pv_comparison_region_id v)
    /\ af_expected_price a = Some (pv_base_price v)
    /\ af_actual_price a = pv_comparison_price v
    /\ af_variance_percentage a = pv_percentage_variance v
    /\ af_z_score a = None
    /\ af_vendor_id a = EmptyString
    /\ af_vendor_name a = "Multiple Vendors"
    /\ af_severity a = determine_severity None (pv_percentage_variance v).

Section ObservationFacts.
Variable uuid4 : nat -> string.
Variable now : nat -> datetime.
Variable fmt : nat -> R -> string.

Lemma z_score_sign (prices : list R) (price : R) :
  (2 <= List.length prices)%nat ->
  In price prices ->
  0 < calculate_z_score price (st_mean (calculate_statistics prices))
        (st_std_dev (calculate_statistics prices))
  <-> st_mean (calculate_statistics prices) < price.
Proof.
  intros Hlen Hin. unfold calculate_z_score.
  pose proof (std_dev_nonneg prices) as Hsd.
  destruct (Reqb (st_std_dev (calculate_statistics prices)) 0) eqn:E.
  - apply Reqb_spec in E.
    pose proof (std_dev_zero prices price Hlen E Hin). lra.
  - assert (Hne : st_std_dev (calculate_statistics prices) <> 0).
    { intros H. apply Reqb_true in H. congruence. }
    assert (Hpos : 0 < st_std_dev (calculate_statistics prices)) by lra.
    pose proof (Rinv_0_lt_compat _ Hpos) as Hinv.
    unfold Rdiv. split; intros H.
    + destruct (Rlt_dec (st_mean (calculate_statistics prices)) price)
        as [Hlt | Hge]; [exact Hlt | exfalso].
      assert (price - st_mean (calculate_statistics prices) <= 0) by lra.
      assert ((price - st_mean (calculate_statistics prices))
              * / st_std_dev (calculate_statistics prices) <= 0); [| lra].
      nra.
    + apply Rmult_lt_0_compat; lra.
Qed.

Lemma observation_flag_spec (self : VarianceDetector)
  (sku_id product_name : string) (stats : Statistics) (record : PricingRecord)
  (f : pending) (n : nat) :
  In f (observation_flag uuid4 now fmt self sku_id product_name stats record) ->
  let price := get (rec_unit_price record) 0 in
  let z := calculate_z_score price (st_mean stats) (st_std_dev stats) in
  af_sku_id (f n) = sku_id
  /\ af_actual_price (f n) = price
  /\ 0 < price
  /\ af_market_id (f n) = rec_market_id record
  /\ af_vendor_id (f n) = get (rec_vendor_id record) EmptyString
  /\ af_expected_price (f n) = Some (st_mean stats)
  /\ af_z_score (f n) = Some z
  /\ (z_score_threshold self <= Rabs z
      \/ variance_threshold_pct self <= Rabs (af_variance_percentage (f n)))
  /\ (af_anomaly_type (f n) = PRICE_SPIKE /\ 0 < z
      \/ af_anomaly_type (f n) = PRICE_DROP /\ z <= 0)
  /\ af_severity (f n)
     = determine_severity (Some z) (af_variance_percentage (f n))
  /\ (0 < st_mean stats ->
      af_variance_percentage (f n)
      = (price - st_mean stats) / st_mean stats * 100)
  /\ (st_mean stats <= 0 -> af_variance_percentage (f n) = 0).
Proof.
  unfold observation_flag.
  destruct (Rleb (get (rec_unit_price record) 0) 0) eqn:Hprice; [intros [] |].
  destruct (_ || _) eqn:Hthr; [| intros []].
  intros [<- | []]. cbv zeta.
  cbn [af_sku_id af_actual_price af_market_id af_vendor_id af_expected_price
       af_z_score af_variance_percentage af_anomaly_type af_severity].
  assert (Hpos : 0 < get (rec_unit_price record) 0).
  { destruct (Rle_dec (get (rec_unit_price record) 0) 0) as [H | H];
      [| lra].
    rewrite (Rleb_true _ _ H) in Hprice. discriminate. }
  repeat split; try reflexivity; try assumption.
  - apply orb_true_iff in Hthr. unfold Rgeb in Hthr.
    destruct Hthr as [H | H]; [left | right]; now apply Rleb_spec.
  - unfold Rgtb.
    destruct (Rltb 0 (calculate_z_score _ _ _)) eqn:Hz; cbn [fst].
    + left. split; [reflexivity | now apply Rltb_spec].
    + right. split; [reflexivity |].
      destruct (Rlt_dec 0 (calculate_z_score (get (rec_unit_price record) 0)
                             (st_mean stats) (st_std_dev stats)))
        as [H | H]; [| lra].
      rewrite (Rltb_true _ _ H) in Hz. discriminate.
  - intros Hm. unfold Rgtb. now rewrite (Rltb_true _ _ Hm).
  - intros Hm. unfold Rgtb. now rewrite (Rltb_false _ _ Hm).
Qed.

Lemma sku_flags_spec (self : VarianceDetector)
  (pricing_data : list PricingRecord) (f : pending) (n : nat) :
  In f (flat_map (sku_flags uuid4 now fmt self) (group_by_sku pricing_data)) ->
  observation_anomaly self pricing_data (f n).
Proof.
  intros H. apply in_flat_map in H.
  destruct H as ([sku_id records] & Hentry & Hf).
  apply group_by_sku_spec in Hentry.
  unfold sku_flags in Hf. cbn [fst snd] in Hf.
  destruct records as [| first records'] eqn:Hrecords; [destruct Hf |].
  rewrite <- Hrecords in Hf.
  assert (Hrec : records = records_of sku_id pricing_data) by congruence.
  clear Hentry Hrecords.
  destruct (List.length (priced records) <? 2)%nat eqn:Hlen; [destruct Hf |].
  apply Nat.ltb_ge in Hlen.
  apply in_flat_map in Hf. destruct Hf as (record & Hrecord & Hf).
  pose proof (observation_flag_spec _ _ _ _ _ _ n Hf) as Hspec.
  cbv zeta in Hspec.
  destruct Hspec as (Hsku & Hact & Hpos & Hmarket & Hvendor & Hexp & Hz & Hthr
                     & Htype & Hsev & Hvar & Hvar0).
  destruct (priced_In records record Hrecord Hpos) as [Hsome Hin].
  unfold observation_anomaly. cbv zeta. rewrite Hsku, Hact, <- Hrec.
  split; [exact Hlen |]. split.
  { exists record. rewrite Hrec in Hrecord. unfold records_of in Hrecord.
    apply filter_In in Hrecord. destruct Hrecord as [Hdata Hkey].
    apply String.eqb_eq in Hkey. repeat split; auto. }
  repeat split; try assumption.
  - destruct Htype as [[H _] | [H _]]; [now left | now right].
  - intros Hspike. apply (z_score_sign _ _ Hlen Hin).
    destruct Htype as [[_ H] | [H _]]; [exact H | congruence].
  - intros Hlt. apply (z_score_sign _ _ Hlen Hin) in Hlt.
    destruct Htype as [[H _] | [_ H]]; [exact H | lra].
Qed.

Lemma regional_flag_fields (self : VarianceDetector) (v : PricingVariance)
  (f : pending) (n : nat) :
  In f (regional_flag uuid4 now fmt self v) ->
  af_anomaly_type (f n) = REGIONAL_VARIANCE
  /\ af_sku_id (f n) = pv_sku_id v
  /\ af_market_id (f n) = Some (pv_comparison_region_id v)
  /\ af_expected_price (f n) = Some (pv_base_price v)
  /\ af_actual_price (f n) = pv_comparison_price v
  /\ af_variance_percentage (f n) = pv_percentage_variance v
  /\ af_z_score (f n) = None
  /\ af_vendor_id (f n) = EmptyString
  /\ af_vendor_name (f n) = "Multiple Vendors"
  /\ af_severity (f n) = determine_severity None (pv_percentage_variance v).
Proof.
  unfold regional_flag.
  destruct (Rgeb _ _); [| intros []].
  destruct (high_or_critical _); [| intros []].
  intros [<- | []]. repeat split.
Qed.

(** Where an anomaly of the result comes from. *)
Lemma detect_anomalies_In (self : VarianceDetector)
  (pricing_data : list PricingRecord)
  (historical_data : option (list PricingRecord))
  (result : list AnomalyFlag) (a : AnomalyFlag) :
  detect_anomalies uuid4 now fmt self pricing_data historical_data
  = Ok result ->
  In a result ->
  exists variances f n,
    calculate_regional_variance self pricing_data None = Ok variances
    /\ a = f n
    /\ (In f (flat_map (sku_flags uuid4 now fmt self)
                (group_by_sku pricing_data))
        \/ exists v, In v variances
                     /\ In f (regional_flag uuid4 now fmt self v)).
Proof.
  unfold detect_anomalies, discover.
  destruct (calculate_regional_variance self pricing_data None)
    as [variances |]; cbn [bind]; [| discriminate].
  intros H Hin. injection H as <-.
  apply (Permutation_in _ (sort_perm _ _)) in Hin.
  destruct (In_issue _ _ Hin) as (f & n & Hf & ->).
  exists variances, f, n. split; [reflexivity |]. split; [reflexivity |].
  apply in_app_or in Hf. destruct Hf as [Hf | Hf]; [now left | right].
  apply in_flat_map in Hf. destruct Hf as (v & Hv & Hf). now exists v.
Qed.

(** Every flag raised is in the result. *)
Lemma detect_anomalies_issued (self : VarianceDetector)
  (pricing_data : list PricingRecord)
  (historical_data : option (list PricingRecord))
  (variances : list PricingVariance) (f : pending) :
  calculate_regional_variance self pricing_data None = Ok variances ->
  In f (flat_map (sku_flags uuid4 now fmt self) (group_by_sku pricing_data)
        ++ flat_map (regional_flag uuid4 now fmt self) variances) ->
  exists result n,
    detect_anomalies uuid4 now fmt self pricing_data historical_data
    = Ok result
    /\ In (f n) result.
Proof.
  intros Hv Hf. unfold detect_anomalies, discover. rewrite Hv. cbn [bind].
  destruct (issue_In _ _ Hf) as [n Hn].
  eexists. exists n. split; [reflexivity |].
  apply (Permutation_in _ (Permutation_sym (sort_perm _ _))). exact Hn.
Qed.

End ObservationFacts.

(** X22 (detect_anomalies, anomalies of single observations): every anomaly
    returned that is not a regional variance stems from a record of the
    dataset with a positive unit price, whose SKU has at least two non-zero
    prices in the dataset.  Its expected price is the mean of those prices,
    its z-score is that of its price against their mean and standard
    deviation, one of the two thresholds is reached, it is a price spike
    exactly when its price is above the mean and a price drop otherwise, its
    severity is [determine_severity] of its z-score and its variance
    percentage, and the variance percentage is the deviation from the mean
    in percent of the mean (0 when the mean is not positive). *)
Theorem X22_observation_anomalies (uuid4 : nat -> string)
  (now : nat -> datetime) (fmt : nat -> R -> string) (self : VarianceDetector)
  (pricing_data : list PricingRecord)
  (historical_data : option (list PricingRecord))
  (result : list AnomalyFlag) :
  detect_anomalies uuid4 now fmt self pricing_data historical_data
  = Ok result ->
  forall a, In a result -> af_anomaly_type a <> REGIONAL_VARIANCE ->
    observation_anomaly self pricing_data a.
Proof.
  intros Hresult a Hin Htype.
  destruct (detect_anomalies_In _ _ _ _ _ _ _ _ Hresult Hin)
    as (variances & f & n & _ & -> & [Hf | (v & _ & Hf)]).
  - eapply sku_flags_spec. exact Hf.
  - exfalso. apply Htype.
    exact (proj1 (regional_flag_fields _ _ _ _ _ _ n Hf)).
Qed.

(** X23 (detect_anomalies, regional anomalies): every regional-variance
    anomaly returned reports one variance of
    [calculate_regional_variance(pricing_data)], whose base region is
    "global_avg": it carries the SKU of the variance, the comparison region
    as its market, the base price as its expected price, the comparison
    price as its actual price, the percentage variance, no z-score, an empty
    vendor id and the vendor name "Multiple Vendors"; its severity is
    [determine_severity] of the percentage variance alone. *)
Theorem X23_regional_anomalies (uuid4 : nat -> string)
  (now : nat -> datetime) (fmt : nat -> R -> string) (self : VarianceDetector)
  (pricing_data : list PricingRecord)
  (historical_data : option (list PricingRecord))
  (result : list AnomalyFlag) :
  detect_anomalies uuid4 now fmt self pricing_data historical_data
  = Ok result ->
  forall a, In a result -> af_anomaly_type a = REGIONAL_VARIANCE ->
    regional_anomaly self pricing_data a.
Proof.
  intros Hresult a Hin Htype.
  destruct (detect_anomalies_In _ _ _ _ _ _ _ _ Hresult Hin)
    as (variances & f & n & Hvs & -> & [Hf | (v & Hv & Hf)]).
  - exfalso. apply in_flat_map in Hf. destruct Hf as (entry & _ & Hf).
    exact (sku_flags_type _ _ _ _ _ _ n Hf Htype).
  - exists variances, v. split; [exact Hvs |]. split; [exact Hv |].
    split.
    + pose proof Hvs as Hok. unfold calculate_regional_variance in Hok.
      apply sku_loop_ok in Hok. rewrite Forall_forall in Hok.
      destruct (Hok v Hv) as (_ & [Hid | Hid] & _);
        [discriminate | exact Hid].
    + exact (proj2 (regional_flag_fields _ _ _ _ _ _ n Hf)).
Qed.

Lemma priced_spread_data : priced spread_data = [10; 30].
Proof.
  unfold priced, spread_data, has_price, quote, truthy.
  cbn [filter rec_unit_price]. rcompare.
  cbn [negb filter map rec_unit_price get]. rcompare. reflexivity.
Qed.

Lemma mean_spread_data : st_mean (calculate_statistics [10; 30]) = 20.
Proof.
  rewrite calculate_statistics_nonempty by discriminate.
  cbv zeta. cbn [st_mean List.length]. unfold py_sum. cbn [fold_left INR].
  lra.
Qed.

Lemma observation_flag_fires (uuid4 : nat -> string) (now : nat -> datetime)
  (fmt : nat -> R -> string) (self : VarianceDetector)
  (sku_id product_name : string) (stats : Statistics)
  (record : PricingRecord) :
  0 < get (rec_unit_price record) 0 ->
  0 < st_mean stats ->
  variance_threshold_pct self
  <= Rabs ((get (rec_unit_price record) 0 - st_mean stats) / st_mean stats
           * 100) ->
  exists f,
    observation_flag uuid4 now fmt self sku_id product_name stats record
    = [f].
Proof.
  intros Hprice Hmean Hthr. unfold observation_flag.
  rewrite (Rleb_false _ 0) by lra.
  unfold Rgtb at 1. rewrite (Rltb_true _ _ Hmean).
  unfold Rgeb at 2. rewrite (Rleb_true _ _ Hthr), orb_true_r.
  eexists. reflexivity.
Qed.

Lemma spread_data_observation (uuid4 : nat -> string) (now : nat -> datetime)
  (fmt : nat -> R -> string) :
  exists f,
    In f (flat_map (sku_flags uuid4 now fmt default_detector)
            (group_by_sku spread_data)).
Proof.
  change (group_by_sku spread_data) with [("SKU-A", spread_data)].
  destruct (observation_flag_fires uuid4 now fmt default_detector "SKU-A"
              "SKU-A" (calculate_statistics [10; 30])
              (quote "SKU-A" "MKT-1" 10)) as [f Hf].
  - cbn. lra.
  - rewrite mean_spread_data. lra.
  - rewrite mean_spread_data. cbn [quote rec_unit_price get default_detector
                                   variance_threshold_pct].
    replace ((10 - 20) / 20 * 100) with (- (50)) by lra.
    rewrite Rabs_Ropp, Rabs_pos_eq; lra.
  - exists f. cbn [flat_map]. apply in_or_app. left.
    unfold sku_flags. cbn [fst snd].
    unfold spread_data at 1. fold spread_data.
    rewrite priced_spread_data. cbn [List.length Nat.ltb Nat.leb].
    cbn [get quote rec_product_name] in *.
    unfold spread_data. cbn [flat_map]. apply in_or_app. left.
    unfold quote in *. rewrite Hf. now left.
Qed.

Lemma X22_observation_anomalies_witness :
  exists result a,
    detect_anomalies (fun _ => "id") (fun _ => 0%Z) (fun _ _ => "x")
      default_detector spread_data None = Ok result
    /\ In a result
    /\ observation_anomaly default_detector spread_data a.
Proof.
  destruct (spread_data_observation (fun _ => "id") (fun _ => 0%Z)
              (fun _ _ => "x")) as [f Hf].
  destruct (detect_anomalies_issued (fun _ => "id") (fun _ => 0%Z)
              (fun _ _ => "x") default_detector spread_data None _ f
              spread_data_variances (in_or_app _ _ _ (or_introl Hf)))
    as (result & n & Hresult & Hin).
  exists result, (f n). split; [exact Hresult |]. split; [exact Hin |].
  apply (X22_observation_anomalies _ _ _ _ _ _ _ Hresult _ Hin).
  apply in_flat_map in Hf. destruct Hf as (entry & _ & Hf).
  exact (sku_flags_type _ _ _ _ _ _ n Hf).
Defined.

Lemma X23_regional_anomalies_witness :
  exists result a,
    detect_anomalies (fun _ => "id") (fun _ => 0%Z) (fun _ _ => "x")
      default_detector spread_data None = Ok result
    /\ In a result
    /\ regional_anomaly default_detector spread_data a.
Proof.
  destruct (regional_flag_spread (fun _ => "id") (fun _ => 0%Z)
              (fun _ _ => "x")) as (f & Hf & Hfn).
  assert (Hflat :
            In f (flat_map
                    (regional_flag (fun _ => "id") (fun _ => 0%Z)
                       (fun _ _ => "x") default_detector)
                    [ mkPricingVariance "SKU-A" "SKU-A" "global_avg"
                        "Global Average" 20 "USD" "MKT-1" "MKT-1" 10 (10 - 20)
                        ((10 - 20) / 20 * 100) ((10 - 20) / 20 * 100 / 1);
                      mkPricingVariance "SKU-A" "SKU-A" "global_avg"
                        "Global Average" 20 "USD" "MKT-2" "MKT-2" 30 (30 - 20)
                        ((30 - 20) / 20 * 100) ((30 - 20) / 20 * 100 / 1) ])).
  { cbn [flat_map]. apply in_or_app. right. apply in_or_app. now left. }
  destruct (detect_anomalies_issued (fun _ => "id") (fun _ => 0%Z)
              (fun _ _ => "x") default_detector spread_data None _ f
              spread_data_variances (in_or_app _ _ _ (or_intror Hflat)))
    as (result & n & Hresult & Hin).
  exists result, (f n). split; [exact Hresult |]. split; [exact Hin |].
  apply (X23_regional_anomalies _ _ _ _ _ _ _ Hresult _ Hin).
  apply Hfn.
Defined.

(** ** Suggested center locations *)

(** X24 (calculate_optimal_center_locations): whatever [num_locations]
    is, the list returned holds at most one suggestion; it is empty for an
    empty list of markets and when every market has the weight 0; a
    suggestion has rank 1, counts all the markets as [total_markets] and
    covers at most that many. *)
Theorem X24_optimal_center_locations (self : ProximityAnalyzer)
  (markets : list Market) (weights : option (list (string * R)))
  (num_locations : nat) :
  let result :=
    calculate_optimal_center_locations self markets weights num_locations in
  (List.length result <= 1)%nat
  /\ (markets = [] -> result = [])
  /\ (forall w, weights = Some w ->
        Forall (fun m => market_weight w m = 0) markets -> result = [])
  /\ (forall s, In s result ->
        sg_rank s = 1%nat
        /\ sg_total_markets s = List.length markets
        /\ (sg_markets_covered s <= sg_total_markets s)%nat).
Proof.
  cbv zeta. unfold calculate_optimal_center_locations.
  destruct markets as [| m markets'] eqn:Hmarkets.
  { split; [cbn; lia |]. split; [reflexivity |]. split; [reflexivity |].
    intros s []. }
  rewrite <- Hmarkets.
  split; [| split; [| split]].
  - match goal with
    | |- context [if ?c then _ else _] => destruct c
    end; cbn [List.length]; lia.
  - rewrite Hmarkets. discriminate.
  - intros w -> Hzero.
    assert (Hsum : py_sum (map (market_weight w) markets) = 0).
    { rewrite py_sum_total. apply total_zero. now apply Forall_map. }
    now rewrite (Reqb_true _ _ Hsum).
  - intros s Hs.
    match type of Hs with
    | context [if ?c then _ else _] => destruct c
    end; [destruct Hs |].
    destruct Hs as [<- | []].
    cbn [sg_rank sg_total_markets sg_markets_covered].
    split; [reflexivity |]. split; [reflexivity |]. apply filter_length_le.
Qed.

Lemma X24_optimal_center_locations_witness :
  calculate_optimal_center_locations default_analyzer [sample_market]
    (Some [("MKT-0", 0)]) 3
  = [].
Proof.
  destruct (X24_optimal_center_locations default_analyzer [sample_market]
              (Some [("MKT-0", 0)]) 3) as (_ & _ & Hzero & _).
  apply (Hzero [("MKT-0", 0)] eq_refl).
  constructor; [reflexivity | constructor].
Defined.

(** ** SKUs of high variance *)

Lemma flat_map_NoDup {A B C : Type} (f : A -> list B) (g : B -> C)
  (h : A -> C) (l : list A) :
  (forall x y, In y (f x) -> g y = h x) ->
  (forall x, (List.length (f x) <= 1)%nat) ->
  NoDup (map h l) -> NoDup (map g (flat_map f l)).
Proof.
  intros Hkey Hone. induction l as [| x l IH]; cbn [map flat_map];
    intros Hl; [constructor |].
  inversion Hl as [| ? ? Hnotin Hl']; subst. specialize (IH Hl').
  pose proof (Hone x) as Hlen. pose proof (Hkey x) as Hx.
  destruct (f x) as [| y [| y' ys]]; cbn [app map];
    [exact IH | | cbn in Hlen; lia].
  constructor; [| exact IH].
  intros Hin. apply in_map_iff in Hin. destruct Hin as (z & Hz & Hin).
  apply in_flat_map in Hin. destruct Hin as (x' & Hx' & Hzx').
  apply Hnotin. apply in_map_iff. exists x'. split; [| exact Hx'].
  rewrite <- (Hkey x' z Hzx'), Hz. apply Hx. now left.
Qed.

Lemma cv_positive_mean (prices : list R) :
  0 < st_cv (calculate_statistics prices) ->
  0 < st_mean (calculate_statistics prices).
Proof.
  destruct prices as [| p ps]; [cbn; lra |].
  rewrite calculate_statistics_nonempty by discriminate.
  cbv zeta. cbn [st_cv st_mean]. unfold Rgtb.
  destruct (Rltb 0 _) eqn:E; [intros _; now apply Rltb_spec | lra].
Qed.

Lemma priced_nonempty (records : list PricingRecord) :
  priced records <> [] -> records <> [].
Proof. destruct records; [intros H; exfalso; now apply H | discriminate]. Qed.

(** What an entry of [get_high_variance_skus] reports about the records of
    its SKU. *)
Definition high_variance_of (threshold_cv : R) (records : list PricingRecord)
  (e : HighVariance) : Prop :=
  let stats := calculate_statistics (priced records) in
  (2 <= List.length (priced records))%nat
  /\ threshold_cv <= st_cv stats
  /\ hv_vendor_count e = distinct (map rec_vendor_id records)
  /\ hv_region_count e = distinct (map rec_market_id records)
  /\ hv_mean_price e = py_round (st_mean stats) 2
  /\ hv_min_price e = py_round (st_min stats) 2
  /\ hv_max_price e = py_round (st_max stats) 2
  /\ hv_price_range e = py_round (st_range stats) 2
  /\ hv_coefficient_of_variation e = py_round (st_cv stats) 4
  /\ (0 < threshold_cv ->
      0 < st_mean stats
      /\ hv_price_spread_pct e
         = py_round (st_range stats / st_mean stats * 100) 2).

Lemma high_variance_entry_spec (threshold_cv : R) (sku_id : string)
  (records : list PricingRecord) (e : HighVariance) :
  In e (high_variance_entry threshold_cv (sku_id, records)) ->
  hv_sku_id e = sku_id /\ high_variance_of threshold_cv records e.
Proof.
  unfold high_variance_entry. cbn [fst snd].
  destruct (List.length (priced records) <? 2)%nat eqn:Hlen; [intros [] |].
  apply Nat.ltb_ge in Hlen.
  destruct records as [| first records'] eqn:Hrecords; [intros [] |].
  rewrite <- Hrecords in *.
  unfold Rgeb. destruct (Rleb threshold_cv _) eqn:Hcv; [| intros []].
  apply Rleb_spec in Hcv.
  intros [<- | []]. cbn [hv_sku_id]. split; [reflexivity |].
  unfold high_variance_of. cbv zeta.
  cbn [hv_vendor_count hv_region_count hv_mean_price hv_min_price
       hv_max_price hv_price_range hv_coefficient_of_variation
       hv_price_spread_pct].
  repeat split; try assumption.
  - apply cv_positive_mean. lra.
  - unfold Rgtb. rewrite Rltb_true; [reflexivity |].
    apply cv_positive_mean. lra.
Qed.

Lemma high_variance_entry_fires (threshold_cv : R) (sku_id : string)
  (records : list PricingRecord) :
  (2 <= List.length (priced records))%nat ->
  threshold_cv <= st_cv (calculate_statistics (priced records)) ->
  exists e,
    high_variance_entry threshold_cv (sku_id, records) = [e]
    /\ hv_sku_id e = sku_id.
Proof.
  intros Hlen Hcv. unfold high_variance_entry. cbn [fst snd].
  assert (Hltb : (List.length (priced records) <? 2)%nat = false)
    by (apply Nat.ltb_ge; exact Hlen).
  rewrite Hltb.
  destruct records as [| first records'] eqn:Hrecords;
    [cbn in Hlen; lia |].
  rewrite <- Hrecords in *. unfold Rgeb. rewrite (Rleb_true _ _ Hcv).
  eexists. split; reflexivity.
Qed.

Lemma high_variance_entry_length (threshold_cv : R)
  (entry : string * list PricingRecord) :
  (List.length (high_variance_entry threshold_cv entry) <= 1)%nat.
Proof.
  unfold high_variance_entry.
  destruct (_ <? 2)%nat; [cbn; lia |].
  destruct (snd entry); [cbn; lia |].
  destruct (Rgeb _ _); cbn; lia.
Qed.

(** X25 (get_high_variance_skus): the SKUs returned are exactly those with at
    least two non-zero prices in the dataset whose coefficient of variation
    reaches the threshold, each once; an entry reports the rounded
    statistics of those prices and the number of distinct vendors and
    markets of the SKU's records; with a positive threshold the mean is
    positive and the price spread is the range in percent of the mean; the
    entries are sorted by their rounded coefficient of variation, highest
    first. *)
Theorem X25_high_variance_skus (self : VarianceDetector)
  (pricing_data : list PricingRecord) (threshold_cv : R) :
  let result := get_high_variance_skus self pricing_data threshold_cv in
  (forall e, In e result ->
     high_variance_of threshold_cv (records_of (hv_sku_id e) pricing_data) e)
  /\ (forall sku_id,
        let prices := priced (records_of sku_id pricing_data) in
        (2 <= List.length prices)%nat ->
        threshold_cv <= st_cv (calculate_statistics prices) ->
        exists e, In e result /\ hv_sku_id e = sku_id)
  /\ NoDup (map hv_sku_id result)
  /\ StronglySorted
       (fun a b =>
          hv_coefficient_of_variation b <= hv_coefficient_of_variation a)
       result.
Proof.
  cbv zeta. unfold get_high_variance_skus.
  set (found := flat_map (high_variance_entry threshold_cv)
                  (group_by_sku pricing_data)).
  assert (Hperm : Permutation
                    (sort_by_key_reverse hv_coefficient_of_variation found)
                    found) by apply sort_perm.
  split; [| split; [| split]].
  - intros e He. apply (Permutation_in _ Hperm) in He.
    apply in_flat_map in He. destruct He as ([sku_id records] & Hentry & He).
    apply high_variance_entry_spec in He. destruct He as [-> He].
    now rewrite <- (group_by_sku_spec _ _ _ Hentry).
  - intros sku_id Hlen Hcv.
    assert (Hne : records_of sku_id pricing_data <> []).
    { apply priced_nonempty. intros E. rewrite E in Hlen. cbn in Hlen. lia. }
    destruct (high_variance_entry_fires threshold_cv sku_id _ Hlen Hcv)
      as (e & He & Hsku).
    exists e. split; [| exact Hsku].
    apply (Permutation_in _ (Permutation_sym Hperm)).
    apply in_flat_map. exists (sku_id, records_of sku_id pricing_data).
    split; [now apply group_by_sku_In | rewrite He; now left].
  - apply (Permutation_NoDup (Permutation_map _ (Permutation_sym Hperm))).
    apply (flat_map_NoDup _ _ fst).
    + intros [sku_id records] e He.
      apply high_variance_entry_spec in He. now destruct He.
    + apply high_variance_entry_length.
    + apply group_by_sku_NoDup.
  - apply sort_by_key_reverse_sorted.
Qed.

Lemma cv_spread_data :
  default_threshold_cv <= st_cv (calculate_statistics [10; 30]).
Proof.
  rewrite calculate_statistics_nonempty by discriminate.
  cbv zeta. cbn [st_cv List.length Nat.ltb Nat.leb Nat.sub map].
  unfold py_sum. cbn [fold_left INR].
  replace ((0 + 10 + 30) / (1 + 1)) with 20 by lra.
  replace ((0 + (10 - 20) ^ 2 + (30 - 20) ^ 2) / 1) with 200
    by (cbn [pow]; lra).
  unfold Rgtb. rewrite (Rltb_true 0 20) by lra.
  assert (H4 : 4 <= sqrt 200).
  { replace 4 with (sqrt (4 * 4)) by (apply sqrt_square; lra).
    apply sqrt_le_1_alt. lra. }
  unfold default_threshold_cv. lra.
Qed.

Lemma X25_high_variance_skus_witness :
  exists e,
    In e (get_high_variance_skus default_detector spread_data
            default_threshold_cv)
    /\ hv_sku_id e = "SKU-A".
Proof.
  destruct (X25_high_variance_skus default_detector spread_data
              default_threshold_cv) as (_ & Hcomplete & _).
  apply Hcomplete;
    change (records_of "SKU-A" spread_data) with spread_data;
    rewrite priced_spread_data.
  - cbn [List.length]. lia.
  - exact cv_spread_data.
Defined.

(** ** Regional statistics *)

Lemma filter_andb {A : Type} (p q : A -> bool) (l : list A) :
  filter (fun x => p x && q x) l = filter p (filter q l).
Proof.
  induction l as [| x l IH]; [reflexivity |].
  cbn [filter]. destruct (q x) eqn:Hq.
  - cbn [filter]. rewrite andb_true_r. destruct (p x); now rewrite IH.
  - rewrite andb_false_r. exact IH.
Qed.

Lemma group_by_market_sku_fold (pricing_data : list PricingRecord) :
  group_by_market_sku pricing_data
  = group_fold pair_eqb (fun r => (market_of r, sku_of r)) []
      (fun rs r => (rs ++ [r])%list) pricing_data.
Proof.
  unfold group_by_market_sku, group_fold. apply fold_left_ext.
  intros d record. apply pair_update_kupdate.
Qed.

Lemma quotes_of_filter (sku_id market_id : string)
  (pricing_data : list PricingRecord) :
  filter (fun r => pair_eqb (market_of r, sku_of r) (market_id, sku_id))
    pricing_data
  = quotes_of sku_id market_id pricing_data.
Proof.
  unfold quotes_of, records_of. rewrite <- filter_andb.
  apply filter_ext. intros r. reflexivity.
Qed.

Lemma group_by_market_sku_spec (pricing_data : list PricingRecord)
  (market_id sku_id : string) (records : list PricingRecord) :
  In ((market_id, sku_id), records) (group_by_market_sku pricing_data) ->
  records = quotes_of sku_id market_id pricing_data.
Proof.
  rewrite group_by_market_sku_fold. intros Hin.
  apply (In_group_fold _ pair_eqb_eq) in Hin. destruct Hin as [_ ->].
  now rewrite fold_left_snoc, quotes_of_filter.
Qed.

Lemma group_by_market_sku_In (pricing_data : list PricingRecord)
  (market_id sku_id : string) :
  quotes_of sku_id market_id pricing_data <> [] ->
  In ((market_id, sku_id), quotes_of sku_id market_id pricing_data)
    (group_by_market_sku pricing_data).
Proof.
  intros Hne. rewrite group_by_market_sku_fold.
  rewrite <- quotes_of_filter in Hne |- *.
  pose proof (group_fold_In _ pair_eqb_eq
                (fun r => (market_of r, sku_of r)) []
                (fun rs r => (rs ++ [r])%list) (market_id, sku_id)
                pricing_data Hne) as H.
  now rewrite fold_left_snoc in H.
Qed.

Lemma distinct_nonempty (l : list (option string)) :
  l <> [] -> (1 <= distinct l)%nat.
Proof.
  destruct l as [| x l]; [congruence |]. intros _. unfold distinct.
  assert (Hin : In x (nodup option_string_dec (x :: l)))
    by (apply nodup_In; now left).
  destruct (nodup option_string_dec (x :: l)); [destruct Hin | cbn; lia].
Qed.

Lemma mean_average (prices : list R) :
  prices <> [] -> st_mean (calculate_statistics prices) = average prices.
Proof.
  intros Hne. now rewrite calculate_statistics_nonempty.
Qed.

(** What a [RegionalStats] reports about the records of its market and
    SKU. *)
Definition regional_stats_of (records : list PricingRecord)
  (e : RegionalStats) : Prop :=
  let stats := calculate_statistics (priced records) in
  priced records <> []
  /\ rs_mean_price e = average (priced records)
  /\ rs_median_price e = st_median stats
  /\ rs_std_deviation e = st_std_dev stats
  /\ rs_min_price e = py_min (priced records)
  /\ rs_max_price e = py_max (priced records)
  /\ rs_price_range e = rs_max_price e - rs_min_price e
  /\ rs_coefficient_of_variation e = st_cv stats
  /\ rs_vendor_count e = distinct (map rec_vendor_id records)
  /\ (1 <= rs_vendor_count e)%nat
  /\ rs_min_price e <= rs_median_price e <= rs_max_price e
  /\ 0 <= rs_std_deviation e.

Lemma regional_stats_entry_spec (market_id sku_id : string)
  (records : list PricingRecord) (e : RegionalStats) :
  In e (regional_stats_entry ((market_id, sku_id), records)) ->
  rs_market_id e = market_id /\ rs_sku_id e = sku_id
  /\ regional_stats_of records e.
Proof.
  unfold regional_stats_entry. cbn [fst snd].
  destruct (priced records) as [| p ps] eqn:Hp; [intros [] |].
  destruct records as [| first records'] eqn:Hrecords; [intros [] |].
  rewrite <- Hrecords in *. rewrite <- Hp.
  assert (Hne : priced records <> []) by (rewrite Hp; discriminate).
  clear Hp. intros [<- | []].
  cbn [rs_market_id rs_sku_id]. split; [reflexivity |].
  split; [reflexivity |].
  unfold regional_stats_of. cbv zeta.
  cbn [rs_mean_price rs_median_price rs_std_deviation rs_min_price
       rs_max_price rs_price_range rs_coefficient_of_variation
       rs_vendor_count].
  destruct (statistics_order _ Hne) as (Hmean & Hmedian & Hsd & _).
  assert (Hmin : st_min (calculate_statistics (priced records))
                 = py_min (priced records))
    by now rewrite calculate_statistics_nonempty.
  assert (Hmax : st_max (calculate_statistics (priced records))
                 = py_max (priced records))
    by now rewrite calculate_statistics_nonempty.
  assert (Hrange : st_range (calculate_statistics (priced records))
                   = py_max (priced records) - py_min (priced records))
    by now rewrite calculate_statistics_nonempty.
  rewrite Hmin, Hmax in *. rewrite Hrange.
  repeat split; try reflexivity; try tauto;
    try (now apply mean_average).
  apply distinct_nonempty. rewrite Hrecords. discriminate.
Qed.

Lemma regional_stats_entry_fires (market_id sku_id : string)
  (records : list PricingRecord) :
  priced records <> [] ->
  exists e,
    regional_stats_entry ((market_id, sku_id), records) = [e]
    /\ rs_market_id e = market_id /\ rs_sku_id e = sku_id
    /\ rs_mean_price e = average (priced records).
Proof.
  intros Hne. unfold regional_stats_entry. cbn [fst snd].
  pose proof (priced_nonempty _ Hne) as Hrecords.
  destruct (priced records) as [| p ps] eqn:Hp; [congruence |].
  destruct records as [| first records']; [congruence |].
  eexists. split; [reflexivity |]. cbn [rs_market_id rs_sku_id rs_mean_price].
  split; [reflexivity |]. split; [reflexivity |].
  rewrite <- Hp. apply mean_average. now rewrite Hp.
Qed.

Lemma regional_stats_entry_length
  (entry : (string * string) * list PricingRecord) :
  (List.length (regional_stats_entry entry) <= 1)%nat.
Proof.
  unfold regional_stats_entry.
  destruct (priced (snd entry)); [cbn; lia |].
  destruct (snd entry); cbn; lia.
Qed.

Lemma calculate_regional_stats_In (self : VarianceDetector)
  (pricing_data : list PricingRecord) (market_id sku_id : string) :
  priced (quotes_of sku_id market_id pricing_data) <> [] ->
  exists e,
    In e (calculate_regional_stats self pricing_data)
    /\ rs_market_id e = market_id /\ rs_sku_id e = sku_id
    /\ rs_mean_price e
       = average (priced (quotes_of sku_id market_id pricing_data)).
Proof.
  intros Hne.
  destruct (regional_stats_entry_fires market_id sku_id _ Hne)
    as (e & He & Hrest).
  exists e. split; [| exact Hrest].
  unfold calculate_regional_stats. apply in_flat_map.
  exists ((market_id, sku_id), quotes_of sku_id market_id pricing_data).
  split; [| rewrite He; now left].
  apply group_by_market_sku_In. now apply priced_nonempty.
Qed.

(** X26 (calculate_regional_stats): there is exactly one entry for every
    pair of a market and a SKU that has a non-zero price in the dataset, and
    no other entry.  An entry reports the statistics of the non-zero prices
    of the records of its market and SKU: their arithmetic mean, median,
    standard deviation, least and greatest price, the range as their
    difference, the coefficient of variation, and the number of distinct
    vendor ids of those records, which is at least 1; the median lies
    between the least and the greatest price. *)
Theorem X26_calculate_regional_stats (self : VarianceDetector)
  (pricing_data : list PricingRecord) :
  let result := calculate_regional_stats self pricing_data in
  (forall e, In e result ->
     regional_stats_of
       (quotes_of (rs_sku_id e) (rs_market_id e) pricing_data) e)
  /\ (forall market_id sku_id,
        priced (quotes_of sku_id market_id pricing_data) <> [] ->
        exists e,
          In e result /\ rs_market_id e = market_id /\ rs_sku_id e = sku_id)
  /\ NoDup (map (fun e => (rs_market_id e, rs_sku_id e)) result).
Proof.
  cbv zeta. split; [| split].
  - intros e He. unfold calculate_regional_stats in He.
    apply in_flat_map in He.
    destruct He as ([[market_id sku_id] records] & Hentry & He).
    apply regional_stats_entry_spec in He. destruct He as (-> & -> & He).
    now rewrite <- (group_by_market_sku_spec _ _ _ _ Hentry).
  - intros market_id sku_id Hne.
    destruct (calculate_regional_stats_In self _ _ _ Hne)
      as (e & He & Hm & Hs & _).
    exists e. auto.
  - unfold calculate_regional_stats. apply (flat_map_NoDup _ _ fst).
    + intros [[market_id sku_id] records] e He.
      apply regional_stats_entry_spec in He.
      destruct He as (-> & -> & _). reflexivity.
    + apply regional_stats_entry_length.
    + rewrite group_by_market_sku_fold. apply group_fold_NoDup.
      apply pair_eqb_eq.
Qed.

Lemma X26_calculate_regional_stats_witness :
  exists e,
    In e (calculate_regional_stats default_detector spread_data)
    /\ rs_market_id e = "MKT-2" /\ rs_sku_id e = "SKU-A".
Proof.
  destruct (X26_calculate_regional_stats default_detector spread_data)
    as (_ & Hcomplete & _).
  apply Hcomplete.
  change (quotes_of "SKU-A" "MKT-2" spread_data)
    with [quote "SKU-A" "MKT-2" 30].
  unfold priced, has_price, quote, truthy. cbn [filter rec_unit_price].
  rcompare. cbn [negb map]. discriminate.
Defined.

(** X27 (calculate_regional_variance and calculate_regional_stats): the
    comparison price of every regional variance is the mean price that
    [calculate_regional_stats] reports for the same SKU in the comparison
    region. *)
Theorem X27_variance_agrees_with_stats (self : VarianceDetector)
  (pricing_data : list PricingRecord) (base_region_id : option string)
  (variances : list PricingVariance) :
  calculate_regional_variance self pricing_data base_region_id = Ok variances ->
  forall v, In v variances ->
    exists e,
      In e (calculate_regional_stats self pricing_data)
      /\ rs_sku_id e = pv_sku_id v
      /\ rs_market_id e = pv_comparison_region_id v
      /\ rs_mean_price e = pv_comparison_price v.
Proof.
  unfold calculate_regional_variance. intros Hok v Hv.
  destruct (sku_loop_comparison _ _ _ _ _ Hok Hv) as (markets & Hsku & Hentry).
  destruct (region_avg_In _ _ _ _ Hentry) as (records & Hin & Hne & Havg).
  rewrite (group_by_sku_market_spec _ _ _ _ _ Hsku Hin) in Hne, Havg.
  destruct (calculate_regional_stats_In self _ _ _ Hne)
    as (e & He & Hm & Hs & Hmean).
  exists e. repeat split; try assumption. congruence.
Qed.

Lemma X27_variance_agrees_with_stats_witness :
  exists e,
    In e (calculate_regional_stats default_detector sku_b_data)
    /\ rs_sku_id e = "SKU-B"
    /\ rs_market_id e = "MKT-1"
    /\ rs_mean_price e = 30.
Proof.
  exact (X27_variance_agrees_with_stats default_detector sku_b_data
           (Some "MKT-R") _ regional_variance_sku_b _ (or_introl eq_refl)).
Defined.

(** ** SKU benchmarks *)

(** The records of a SKU in a market, a record without market counting for
    the market "global". *)
Definition benchmark_quotes (sku_id market_id : string)
  (pricing_data : list PricingRecord) : list PricingRecord :=
  filter (fun r => pair_eqb (benchmark_market r, sku_of r) (market_id, sku_id))
    pricing_data.

Lemma pair_item_kitem {V : Type} (k : string * string) (d : pair_dict V) :
  pair_item k d = kitem pair_eqb k d.
Proof.
  induction d as [| [k' v] d IH]; cbn [pair_item kitem]; [reflexivity |].
  now rewrite IH.
Qed.

Lemma group_for_benchmarks_fold (pricing_data : list PricingRecord) :
  group_for_benchmarks pricing_data
  = group_fold pair_eqb (fun r => (benchmark_market r, sku_of r)) []
      (fun rs r => (rs ++ [r])%list) pricing_data.
Proof.
  unfold group_for_benchmarks, group_fold. apply fold_left_ext.
  intros d record. apply pair_update_kupdate.
Qed.

Lemma group_for_benchmarks_spec (pricing_data : list PricingRecord)
  (market_id sku_id : string) (records : list PricingRecord) :
  In ((market_id, sku_id), records) (group_for_benchmarks pricing_data) ->
  records = benchmark_quotes sku_id market_id pricing_data /\ records <> [].
Proof.
  rewrite group_for_benchmarks_fold. intros Hin.
  apply (In_group_fold _ pair_eqb_eq) in Hin. destruct Hin as [Hne ->].
  rewrite fold_left_snoc. split; [reflexivity | exact Hne].
Qed.

Lemma benchmark_quotes_In (pricing_data : list PricingRecord)
  (record : PricingRecord) :
  In record pricing_data ->
  In record
    (benchmark_quotes (sku_of record) (benchmark_market record) pricing_data).
Proof.
  intros Hin. unfold benchmark_quotes. apply filter_In.
  split; [exact Hin | now apply pair_eqb_eq].
Qed.

Lemma group_for_benchmarks_In (pricing_data : list PricingRecord)
  (market_id sku_id : string) :
  benchmark_quotes sku_id market_id pricing_data <> [] ->
  In ((market_id, sku_id), benchmark_quotes sku_id market_id pricing_data)
    (group_for_benchmarks pricing_data).
Proof.
  intros Hne. rewrite group_for_benchmarks_fold.
  pose proof (group_fold_In _ pair_eqb_eq
                (fun r => (benchmark_market r, sku_of r)) []
                (fun rs r => (rs ++ [r])%list) (market_id, sku_id)
                pricing_data Hne) as H.
  now rewrite fold_left_snoc in H.
Qed.

Lemma fold_left_priced (records : list PricingRecord) (acc : list R) :
  fold_left
    (fun prices r =>
       (prices
        ++ (if has_price r then [get (rec_unit_price r) 0] else []))%list)
    records acc
  = (acc ++ priced records)%list.
Proof.
  revert acc. induction records as [| r records IH]; intros acc;
    cbn [fold_left].
  - unfold priced. cbn. now rewrite app_nil_r.
  - rewrite IH. unfold priced. cbn [filter].
    destruct (has_price r); cbn [map]; [| now rewrite app_nil_r].
    now rewrite <- app_assoc.
Qed.

(** The historical prices of a key are the non-zero prices of the
    historical records of that market and SKU; the trend treats a missing
    entry as an empty one. *)
Lemma historical_trend (mean : R)
  (historical_data : option (list PricingRecord))
  (market_id sku_id : string) :
  price_trend mean
    (pair_item (market_id, sku_id) (group_historical historical_data))
  = price_trend mean
      (Some (priced (benchmark_quotes sku_id market_id
                       (get historical_data [])))).
Proof.
  rewrite pair_item_kitem. unfold group_historical.
  rewrite (fold_left_ext _
             (fun d x =>
                kupdate pair_eqb (benchmark_market x, sku_of x)
                  (fun v =>
                     (fun prices r =>
                        (prices
                         ++ (if has_price r
                             then [get (rec_unit_price r) 0] else []))%list)
                       (get v []) x) d))
    by (intros d record; apply pair_update_kupdate).
  change (fold_left _ (get historical_data []) [])
    with (group_fold pair_eqb (fun r => (benchmark_market r, sku_of r)) []
            (fun prices r =>
               (prices
                ++ (if has_price r
                    then [get (rec_unit_price r) 0] else []))%list)
            (get historical_data [])).
  rewrite (kitem_group_fold _ pair_eqb_eq).
  fold (benchmark_quotes sku_id market_id (get historical_data [])).
  destruct (benchmark_quotes sku_id market_id (get historical_data []))
    as [| r rs] eqn:E; [reflexivity |].
  now rewrite fold_left_priced.
Qed.

Lemma price_trend_cases (mean : R) (historical : option (list R)) :
  let trend := price_trend mean historical in
  fst trend = "increasing" /\ 2 < snd trend
  \/ fst trend = "decreasing" /\ snd trend < -2
  \/ fst trend = "stable" /\ -2 <= snd trend <= 2.
Proof.
  cbv zeta. unfold price_trend.
  destruct historical as [[| h hs] |]; cbn [fst snd];
    try (right; right; split; [reflexivity | lra]).
  destruct (Rgtb _ 0); cbn [fst snd];
    [| right; right; split; [reflexivity | lra]].
  unfold Rgtb.
  destruct (Rltb 2 _) eqn:Eup; cbn [fst snd].
  { left. split; [reflexivity | now apply Rltb_spec]. }
  destruct (Rltb _ (-2)) eqn:Edown; cbn [fst snd].
  { right. left. split; [reflexivity | now apply Rltb_spec]. }
  right. right. split; [reflexivity |].
  split.
  - match goal with
    | |- -2 <= ?x =>
        destruct (Rlt_dec x (-2)) as [H | H];
          [rewrite (Rltb_true _ _ H) in Edown; discriminate | lra]
    end.
  - match goal with
    | |- ?x <= 2 =>
        destruct (Rlt_dec 2 x) as [H | H];
          [rewrite (Rltb_true _ _ H) in Eup; discriminate | lra]
    end.
Qed.

(** What a benchmark reports about the records of its market and SKU and
    the historical prices of the same key. *)
Definition benchmark_of (self : MarketBenchmarker)
  (records : list PricingRecord) (historical : list R)
  (b : RegionalBenchmark) : Prop :=
  let prices := priced records in
  let stats := calculate_statistics prices in
  prices <> []
  /\ bm_sample_size b = List.length prices
  /\ (min_sample_size self <= Z.of_nat (bm_sample_size b))%Z
  /\ bm_avg_price b = st_mean stats
  /\ bm_median_price b = st_median stats
  /\ bm_std_deviation b = st_std_dev stats
  /\ bm_min_price b = st_min stats
  /\ bm_max_price b = st_max stats
  /\ bm_min_price b <= bm_median_price b <= bm_max_price b
  /\ 0 <= bm_std_deviation b
  /\ (bm_price_trend b, bm_trend_percentage b)
     = price_trend (bm_avg_price b) (Some historical)
  /\ (historical = [] ->
      bm_price_trend b = "stable" /\ bm_trend_percentage b = 0)
  /\ (bm_price_trend b = "increasing" /\ 2 < bm_trend_percentage b
      \/ bm_price_trend b = "decreasing" /\ bm_trend_percentage b < -2
      \/ bm_price_trend b = "stable" /\ -2 <= bm_trend_percentage b <= 2).

Section BenchmarkFacts.
Variable uuid4 : nat -> string.
Variable now : datetime.
Variable minus_days : datetime -> Z -> datetime.
Variable rec_category_id : PricingRecord -> option string.

Lemma INR_length_zero {A : Type} (l : list A) :
  Reqb (INR (List.length l)) 0 = true <-> l = [].
Proof.
  destruct l as [| x l]; split; intros H; try reflexivity; try discriminate.
  - cbn [List.length INR]. now apply Reqb_true.
  - exfalso. apply Reqb_spec in H. revert H. apply not_0_INR. discriminate.
Qed.

Lemma benchmark_entry_ok (self : MarketBenchmarker)
  (historical_data : option (list PricingRecord))
  (period_start period_end : datetime) (market_id sku_id : string)
  (records : list PricingRecord) (fs : list (nat -> RegionalBenchmark)) :
  benchmark_entry uuid4 rec_category_id self
    (group_historical historical_data) period_start period_end
    ((market_id, sku_id), records) = Ok fs ->
  (List.length fs <= 1)%nat
  /\ forall f k, In f fs ->
       bm_market_id (f k) = market_id
       /\ bm_sku_id (f k) = Some sku_id
       /\ bm_benchmark_id (f k) = uuid4 k
       /\ bm_benchmark_period_start (f k) = period_start
       /\ bm_benchmark_period_end (f k) = period_end
       /\ benchmark_of self records
            (priced (benchmark_quotes sku_id market_id
                       (get historical_data [])))
            (f k).
Proof.
  unfold benchmark_entry. cbn [fst snd].
  destruct (Z.of_nat _ <? _)%Z eqn:Hsize.
  { intros H. injection H as <-. split; [cbn; lia | intros f k []]. }
  apply Z.ltb_ge in Hsize.
  destruct records as [| first records'] eqn:Hrecords.
  { intros H. injection H as <-. split; [cbn; lia | intros f k []]. }
  rewrite <- Hrecords in *. unfold fdiv.
  destruct (Reqb (INR (List.length (priced records))) 0) eqn:Hn;
    cbn [bind]; [discriminate |].
  assert (Hne : priced records <> []).
  { intros E. apply INR_length_zero in E. congruence. }
  intros H. injection H as <-. split; [cbn; lia |].
  intros f k [<- | []].
  cbn [bm_market_id bm_sku_id bm_benchmark_id bm_benchmark_period_start
       bm_benchmark_period_end].
  repeat (split; [reflexivity |]).
  unfold benchmark_of. cbv zeta.
  cbn [bm_sample_size bm_avg_price bm_median_price bm_std_deviation
       bm_min_price bm_max_price bm_price_trend bm_trend_percentage].
  rewrite historical_trend.
  pose proof (statistics_order _ Hne) as Horder. cbv zeta in Horder.
  rewrite (calculate_statistics_nonempty _ Hne) in *. cbv zeta in *.
  cbn [st_mean st_median st_std_dev st_min st_max st_range] in *.
  destruct Horder as (Hmean & Hmedian & Hsd & _).
  split; [exact Hne |]. split; [reflexivity |]. split; [exact Hsize |].
  repeat (split; [reflexivity |]).
  split; [exact Hmedian |]. split; [exact Hsd |].
  split; [now destruct (price_trend _ _) |].
  split.
  - intros ->. split; reflexivity.
  - apply price_trend_cases.
Qed.

Lemma benchmark_entry_raises (self : MarketBenchmarker)
  (historical_prices : pair_dict (list R))
  (period_start period_end : datetime)
  (entry : (string * string) * list PricingRecord) (e : exn) :
  benchmark_entry uuid4 rec_category_id self historical_prices period_start
    period_end entry = Raise e ->
  e = ZeroDivisionError
  /\ (min_sample_size self <= 0)%Z
  /\ priced (snd entry) = [].
Proof.
  unfold benchmark_entry.
  destruct (Z.of_nat _ <? _)%Z eqn:Hsize; [discriminate |].
  apply Z.ltb_ge in Hsize.
  destruct (snd entry) as [| first records'] eqn:Hrecords; [discriminate |].
  rewrite <- Hrecords in *. unfold fdiv.
  destruct (Reqb (INR (List.length (priced (snd entry)))) 0) eqn:Hn;
    cbn [bind]; [| discriminate].
  intros H. injection H as <-. apply INR_length_zero in Hn.
  rewrite Hn in Hsize. cbn in Hsize. repeat split; assumption.
Qed.

Lemma benchmark_entry_zero (self : MarketBenchmarker)
  (historical_prices : pair_dict (list R))
  (period_start period_end : datetime)
  (entry : (string * string) * list PricingRecord) :
  (min_sample_size self <= 0)%Z ->
  snd entry <> [] ->
  priced (snd entry) = [] ->
  benchmark_entry uuid4 rec_category_id self historical_prices period_start
    period_end entry = Raise ZeroDivisionError.
Proof.
  intros Hmin Hrecords Hprices. unfold benchmark_entry.
  rewrite Hprices. cbn [List.length Z.of_nat].
  assert (Hsize : (0 <? min_sample_size self)%Z = false)
    by (apply Z.ltb_ge; exact Hmin).
  rewrite Hsize.
  destruct (snd entry) as [| first records']; [congruence |].
  unfold fdiv. cbn [INR]. rewrite (Reqb_true 0 0 eq_refl). reflexivity.
Qed.

Lemma mapM_first_raise {A B : Type} (f : A -> result B) (l : list A)
  (x : A) (e : exn) :
  (forall y e', f y = Raise e' -> e' = e) ->
  In x l -> f x = Raise e -> mapM f l = Raise e.
Proof.
  intros Hall. induction l as [| y l IH]; [intros [] |].
  intros [-> | Hin] Hx; cbn [mapM].
  - rewrite Hx. reflexivity.
  - destruct (f y) as [b |] eqn:Hy; cbn [bind].
    + rewrite (IH Hin Hx). reflexivity.
    + now rewrite (Hall _ _ Hy).
Qed.

Lemma In_number_benchmarks (created : list (nat -> RegionalBenchmark))
  (b : RegionalBenchmark) :
  In b (number_benchmarks created) -> exists f k, In f created /\ b = f k.
Proof.
  unfold number_benchmarks. intros H. apply in_map_iff in H.
  destruct H as ([k f] & <- & Hin). exists f, k.
  split; [eapply in_combine_r; eassumption | reflexivity].
Qed.

Lemma map_number_benchmarks {C : Type} (g : RegionalBenchmark -> C)
  (created : list (nat -> RegionalBenchmark)) :
  (forall f k, In f created -> g (f k) = g (f 0%nat)) ->
  map g (number_benchmarks created) = map (fun f => g (f 0%nat)) created.
Proof.
  intros Hg. unfold number_benchmarks.
  assert (H : forall start,
            map g
              (map (fun nb : nat * (nat -> RegionalBenchmark) =>
                      snd nb (fst nb))
                 (combine (seq start (List.length created)) created))
            = map (fun f => g (f 0%nat)) created); [| apply H].
  induction created as [| f created IH]; intros start; [reflexivity |].
  cbn [List.length seq combine map fst snd]. f_equal.
  - apply Hg. now left.
  - apply IH. intros f' k Hin. apply Hg. now right.
Qed.

Lemma concat_NoDup {A B C : Type} (P : A -> list B -> Prop) (g : B -> C)
  (h : A -> C) (l : list A) (created : list (list B)) :
  (forall x ys, P x ys ->
     (List.length ys <= 1)%nat /\ forall y, In y ys -> g y = h x) ->
  Forall2 P l created ->
  NoDup (map h l) -> NoDup (map g (List.concat created)).
Proof.
  intros HP H. induction H as [| x ys l created Hxy H IH];
    cbn [map List.concat]; intros Hl; [constructor |].
  inversion Hl as [| ? ? Hnotin Hl']; subst. specialize (IH Hl').
  destruct (HP _ _ Hxy) as [Hlen Hkey].
  destruct ys as [| y [| y' ys]]; cbn [app map];
    [exact IH | | cbn in Hlen; lia].
  constructor; [| exact IH].
  intros Hin. apply in_map_iff in Hin. destruct Hin as (z & Hz & Hin).
  apply in_concat in Hin. destruct Hin as (zs & Hzs & Hzin).
  destruct (Forall2_In_r _ _ _ _ H Hzs) as (x' & Hx' & Hxz).
  apply Hnotin. apply in_map_iff. exists x'. split; [| exact Hx'].
  rewrite <- (proj2 (HP _ _ Hxz) z Hzin), Hz. apply Hkey. now left.
Qed.

End BenchmarkFacts.

Section BenchmarkResults.
Variable uuid4 : nat -> string.
Variable now : datetime.
Variable minus_days : datetime -> Z -> datetime.
Variable rec_category_id : PricingRecord -> option string.

Lemma benchmark_entry_fires (self : MarketBenchmarker)
  (historical_prices : pair_dict (list R))
  (period_start period_end : datetime) (market_id sku_id : string)
  (records : list PricingRecord) :
  priced records <> [] ->
  (min_sample_size self <= Z.of_nat (List.length (priced records)))%Z ->
  exists f,
    benchmark_entry uuid4 rec_category_id self historical_prices period_start
      period_end ((market_id, sku_id), records) = Ok [f]
    /\ forall k, bm_market_id (f k) = market_id
                 /\ bm_sku_id (f k) = Some sku_id.
Proof.
  intros Hne Hsize. unfold benchmark_entry. cbn [fst snd].
  assert (Hltb : (Z.of_nat (List.length (priced records))
                  <? min_sample_size self)%Z = false)
    by (apply Z.ltb_ge; exact Hsize).
  rewrite Hltb. pose proof (priced_nonempty _ Hne) as Hrecords.
  destruct records as [| first records'] eqn:E; [congruence |].
  rewrite <- E in *. unfold fdiv.
  destruct (Reqb (INR (List.length (priced records))) 0) eqn:Hn.
  { apply INR_length_zero in Hn. congruence. }
  cbn [bind]. eexists. split; [reflexivity |]. intros k. split; reflexivity.
Qed.

Lemma create_sku_benchmarks_raises (self : MarketBenchmarker)
  (pricing_data : list PricingRecord)
  (historical_data : option (list PricingRecord))
  (period_end : option datetime) (e : exn) :
  create_sku_benchmarks uuid4 now minus_days rec_category_id self
    pricing_data historical_data period_end = Raise e ->
  e = ZeroDivisionError
  /\ (min_sample_size self <= 0)%Z
  /\ exists record,
       In record pricing_data
       /\ priced (benchmark_quotes (sku_of record) (benchmark_market record)
                    pricing_data) = [].
Proof.
  unfold create_sku_benchmarks. cbv zeta.
  destruct (mapM _ _) as [created |] eqn:Hmap; cbn [bind]; [discriminate |].
  intros H. injection H as <-.
  apply mapM_raises in Hmap.
  destruct Hmap as ([[market_id sku_id] records] & Hin & Hraise).
  apply benchmark_entry_raises in Hraise.
  destruct Hraise as (-> & Hmin & Hprices). cbn [snd] in Hprices.
  split; [reflexivity |]. split; [exact Hmin |].
  destruct (group_for_benchmarks_spec _ _ _ _ Hin) as [Hrecords Hne].
  destruct records as [| record records']; [congruence |].
  assert (Hrecord : In record
                      (benchmark_quotes sku_id market_id pricing_data))
    by (rewrite <- Hrecords; now left).
  unfold benchmark_quotes in Hrecord. apply filter_In in Hrecord.
  destruct Hrecord as [Hdata Hkey]. apply pair_eqb_eq in Hkey.
  injection Hkey as Hm Hs.
  exists record. split; [exact Hdata |].
  now rewrite Hm, Hs, <- Hrecords.
Qed.

Lemma create_sku_benchmarks_zero (self : MarketBenchmarker)
  (pricing_data : list PricingRecord)
  (historical_data : option (list PricingRecord))
  (period_end : option datetime) (record : PricingRecord) :
  (min_sample_size self <= 0)%Z ->
  In record pricing_data ->
  priced (benchmark_quotes (sku_of record) (benchmark_market record)
            pricing_data) = [] ->
  create_sku_benchmarks uuid4 now minus_days rec_category_id self
    pricing_data historical_data period_end = Raise ZeroDivisionError.
Proof.
  intros Hmin Hin Hprices. unfold create_sku_benchmarks. cbv zeta.
  pose proof (benchmark_quotes_In _ _ Hin) as Hrecord.
  assert (Hne : benchmark_quotes (sku_of record) (benchmark_market record)
                  pricing_data <> [])
    by (intros E; rewrite E in Hrecord; destruct Hrecord).
  rewrite (mapM_first_raise _ _ _ ZeroDivisionError
             ltac:(intros y e' Hy; now apply benchmark_entry_raises in Hy)
             (group_for_benchmarks_In _ _ _ Hne));
    [reflexivity |].
  now apply benchmark_entry_zero.
Qed.

Lemma create_sku_benchmarks_total (self : MarketBenchmarker)
  (pricing_data : list PricingRecord)
  (historical_data : option (list PricingRecord))
  (period_end : option datetime) :
  (1 <= min_sample_size self)%Z ->
  exists benchmarks,
    create_sku_benchmarks uuid4 now minus_days rec_category_id self
      pricing_data historical_data period_end = Ok benchmarks.
Proof.
  intros Hmin.
  destruct (create_sku_benchmarks uuid4 now minus_days rec_category_id self
              pricing_data historical_data period_end)
    as [benchmarks | e] eqn:H; [eauto |].
  apply create_sku_benchmarks_raises in H. lia.
Qed.

End BenchmarkResults.

(** X28 (create_sku_benchmarks, results): every benchmark returned stands
    for a market and a SKU whose non-zero prices in the dataset are at least
    [min_sample_size] and at least one; its sample size is their number,
    its average, median, standard deviation, least and greatest price are
    those [calculate_statistics] gives for them, and the median lies
    between the least and the greatest price; its trend compares
    the average with the mean of the non-zero historical prices of the same
    market and SKU and is "increasing" above 2 percent, "decreasing" below
    -2 percent and "stable" otherwise, and "stable" at 0 percent without
    such historical prices; its period ends at [period_end] or the clock and
    starts [default_period_days] earlier.  Every market and SKU with enough
    prices has a benchmark, and no two benchmarks share market and SKU. *)
Theorem X28_create_sku_benchmarks (uuid4 : nat -> string) (now : datetime)
  (minus_days : datetime -> Z -> datetime)
  (rec_category_id : PricingRecord -> option string)
  (self : MarketBenchmarker) (pricing_data : list PricingRecord)
  (historical_data : option (list PricingRecord))
  (period_end : option datetime) (benchmarks : list RegionalBenchmark) :
  create_sku_benchmarks uuid4 now minus_days rec_category_id self
    pricing_data historical_data period_end = Ok benchmarks ->
  (forall b, In b benchmarks ->
     exists sku_id,
       bm_sku_id b = Some sku_id
       /\ benchmark_of self
            (benchmark_quotes sku_id (bm_market_id b) pricing_data)
            (priced (benchmark_quotes sku_id (bm_market_id b)
                       (get historical_data [])))
            b
       /\ bm_benchmark_period_end b = get period_end now
       /\ bm_benchmark_period_start b
          = minus_days (get period_end now) (default_period_days self))
  /\ (forall market_id sku_id,
        let prices :=
          priced (benchmark_quotes sku_id market_id pricing_data) in
        prices <> [] ->
        (min_sample_size self <= Z.of_nat (List.length prices))%Z ->
        exists b,
          In b benchmarks
          /\ bm_market_id b = market_id /\ bm_sku_id b = Some sku_id)
  /\ NoDup (map (fun b => (bm_market_id b, bm_sku_id b)) benchmarks).
Proof.
  unfold create_sku_benchmarks. cbv zeta.
  destruct (mapM _ _) as [created |] eqn:Hmap; cbn [bind]; [| discriminate].
  intros H. injection H as <-. apply mapM_ok in Hmap.
  assert (Hentry :
            forall f, In f (List.concat created) ->
              exists market_id sku_id records fs,
                In ((market_id, sku_id), records)
                  (group_for_benchmarks pricing_data)
                /\ In f fs
                /\ benchmark_entry uuid4 rec_category_id self
                     (group_historical historical_data)
                     (minus_days (get period_end now)
                        (default_period_days self))
                     (get period_end now)
                     ((market_id, sku_id), records) = Ok fs).
  { intros f Hf. apply in_concat in Hf. destruct Hf as (fs & Hfs & Hf).
    destruct (Forall2_In_r _ _ _ _ Hmap Hfs)
      as ([[market_id sku_id] records] & Hin & Hok).
    exists market_id, sku_id, records, fs. auto. }
  split; [| split].
  - intros b Hb. apply In_number_benchmarks in Hb.
    destruct Hb as (f & k & Hf & ->).
    destruct (Hentry f Hf) as (market_id & sku_id & records & fs & Hin & Hfs
                               & Hok).
    destruct (benchmark_entry_ok _ _ _ _ _ _ _ _ _ _ Hok) as [_ Hspec].
    destruct (Hspec f k Hfs) as (Hm & Hs & _ & Hstart & Hend & Hof).
    destruct (group_for_benchmarks_spec _ _ _ _ Hin) as [Hrecords _].
    exists sku_id. rewrite Hm. split; [exact Hs |].
    split; [now rewrite <- Hrecords |]. split; assumption.
  - intros market_id sku_id Hne Hsize.
    pose proof (priced_nonempty _ Hne) as Hquotes.
    pose proof (group_for_benchmarks_In _ _ _ Hquotes) as Hin.
    destruct (Forall2_In_l _ _ _ _ Hmap Hin) as (fs & Hfs & Hok).
    destruct (benchmark_entry_fires uuid4 rec_category_id self
                (group_historical historical_data)
                (minus_days (get period_end now) (default_period_days self))
                (get period_end now) market_id sku_id _ Hne Hsize)
      as (f & Hf & Hkey).
    rewrite Hf in Hok. injection Hok as <-.
    assert (Hconcat : In f (List.concat created))
      by (apply in_concat; exists [f]; split; [exact Hfs | now left]).
    destruct (In_numbered _ _ 0 Hconcat) as [k Hk].
    exists (f k). split; [| apply Hkey].
    unfold number_benchmarks. apply in_map_iff. exists (k, f). auto.
  - rewrite map_number_benchmarks.
    + apply (concat_NoDup
               (fun x y =>
                  benchmark_entry uuid4 rec_category_id self
                    (group_historical historical_data)
                    (minus_days (get period_end now)
                       (default_period_days self))
                    (get period_end now) x = Ok y)
               _ (fun x => (fst (fst x), Some (snd (fst x))))
               (group_for_benchmarks pricing_data) created);
        [| exact Hmap |].
      * intros [[market_id sku_id] records] fs Hok.
        destruct (benchmark_entry_ok _ _ _ _ _ _ _ _ _ _ Hok) as [Hlen Hspec].
        split; [exact Hlen |]. intros f Hf.
        destruct (Hspec f 0%nat Hf) as (-> & -> & _). reflexivity.
      * rewrite <- (map_map fst (fun k => (fst k, Some (snd k)))).
        apply Finite.Injective_map_NoDup.
        -- intros [a1 a2] [b1 b2] E. cbn [fst snd] in E. congruence.
        -- rewrite group_for_benchmarks_fold. apply group_fold_NoDup.
           apply pair_eqb_eq.
    + intros f k Hf.
      destruct (Hentry f Hf) as (market_id & sku_id & records & fs & _ & Hfs
                                 & Hok).
      destruct (benchmark_entry_ok _ _ _ _ _ _ _ _ _ _ Hok) as [_ Hspec].
      destruct (Hspec f k Hfs) as (-> & -> & _).
      destruct (Hspec f 0%nat Hfs) as (-> & -> & _). reflexivity.
Qed.

(** X29 (create_sku_benchmarks, errors): with a [min_sample_size] of 0 or
    less the function does not return when some record of the dataset
    belongs to a market and SKU without any non-zero price: the sum of no
    prices is divided by their number, 0.  Hence a list of benchmarks
    returned with such a [min_sample_size] means that every record's market
    and SKU has a non-zero price. *)
Theorem X29_create_sku_benchmarks_errors (uuid4 : nat -> string)
  (now : datetime) (minus_days : datetime -> Z -> datetime)
  (rec_category_id : PricingRecord -> option string)
  (self : MarketBenchmarker) (pricing_data : list PricingRecord)
  (historical_data : option (list PricingRecord))
  (period_end : option datetime) :
  (min_sample_size self <= 0)%Z ->
  (forall record,
     In record pricing_data ->
     priced (benchmark_quotes (sku_of record) (benchmark_market record)
               pricing_data) = [] ->
     forall benchmarks,
       create_sku_benchmarks uuid4 now minus_days rec_category_id self
         pricing_data historical_data period_end <> Ok benchmarks)
  /\ (forall benchmarks,
        create_sku_benchmarks uuid4 now minus_days rec_category_id self
          pricing_data historical_data period_end = Ok benchmarks ->
        forall record,
          In record pricing_data ->
          priced (benchmark_quotes (sku_of record) (benchmark_market record)
                    pricing_data) <> []).
Proof.
  intros Hmin.
  assert (Hzero :
            forall record,
              In record pricing_data ->
              priced (benchmark_quotes (sku_of record)
                        (benchmark_market record) pricing_data) = [] ->
              create_sku_benchmarks uuid4 now minus_days rec_category_id self
                pricing_data historical_data period_end
              = Raise ZeroDivisionError).
  { intros record Hin Hprices.
    eapply create_sku_benchmarks_zero; eassumption. }
  split.
  - intros record Hin Hprices benchmarks Hok.
    rewrite (Hzero record Hin Hprices) in Hok. discriminate.
  - intros benchmarks Hok record Hin Hprices.
    rewrite (Hzero record Hin Hprices) in Hok. discriminate.
Qed.

Lemma priced_quote (sku market : string) (price : R) :
  price <> 0 -> priced [quote sku market price] = [price].
Proof.
  intros Hp. unfold priced, has_price, quote, truthy.
  cbn [filter rec_unit_price]. rewrite (Reqb_false _ _ Hp). reflexivity.
Qed.

Lemma X28_create_sku_benchmarks_witness :
  exists benchmarks b,
    create_sku_benchmarks (fun _ => "id") 0%Z (fun t _ => t) (fun _ => None)
      (mkMarketBenchmarker 30 1) spread_data None None = Ok benchmarks
    /\ In b benchmarks
    /\ bm_market_id b = "MKT-2" /\ bm_sku_id b = Some "SKU-A".
Proof.
  destruct (create_sku_benchmarks_total (fun _ => "id") 0%Z (fun t _ => t)
              (fun _ => None) (mkMarketBenchmarker 30 1) spread_data None
              None) as [benchmarks Hok]; [cbn; lia |].
  destruct (X28_create_sku_benchmarks _ _ _ _ _ _ _ _ _ Hok)
    as (_ & Hcomplete & _).
  destruct (Hcomplete "MKT-2" "SKU-A") as (b & Hb & Hkey).
  - change (benchmark_quotes "SKU-A" "MKT-2" spread_data)
      with [quote "SKU-A" "MKT-2" 30].
    rewrite priced_quote by lra. discriminate.
  - change (benchmark_quotes "SKU-A" "MKT-2" spread_data)
      with [quote "SKU-A" "MKT-2" 30].
    rewrite priced_quote by lra. cbn. lia.
  - exists benchmarks, b. auto.
Defined.

Lemma X29_create_sku_benchmarks_errors_witness :
  ~ exists benchmarks,
      create_sku_benchmarks (fun _ => "id") 0%Z (fun t _ => t)
        (fun _ => None) (mkMarketBenchmarker 30 0)
        [mkPricingRecord (Some "SKU-A") (Some "MKT-1") None None None None
           None None]
        None None
      = Ok benchmarks.
Proof.
  intros [benchmarks Hok]. revert Hok.
  apply (proj1 (X29_create_sku_benchmarks_errors (fun _ => "id") 0%Z
                  (fun t _ => t) (fun _ => None)
                  (mkMarketBenchmarker 30 0)
                  [mkPricingRecord (Some "SKU-A") (Some "MKT-1") None
                     None None None None None]
                  None None ltac:(cbn; lia))
           (mkPricingRecord (Some "SKU-A") (Some "MKT-1") None None None None
              None None)).
  - now left.
  - reflexivity.
Defined.

(** ** Comparing a dataset with its own benchmarks *)

Lemma key_eqb_eq (a b : string * string) : key_eqb a b = true <-> a = b.
Proof. exact (pair_eqb_eq a b). Qed.

Lemma lookup_set_kupdate (k : string * string) (bm : RegionalBenchmark)
  (d : list ((string * string) * RegionalBenchmark)) :
  lookup_set k bm d = kupdate key_eqb k (fun _ => bm) d.
Proof.
  induction d as [| [k' v] d IH]; cbn [lookup_set kupdate]; [reflexivity |].
  now rewrite IH.
Qed.

Lemma lookup_get_kitem (k : string * string)
  (d : list ((string * string) * RegionalBenchmark)) :
  lookup_get k d = kitem key_eqb k d.
Proof.
  induction d as [| [k' v] d IH]; cbn [lookup_get kitem]; [reflexivity |].
  now rewrite IH.
Qed.

Lemma benchmark_lookup_snoc (benchmarks : list RegionalBenchmark)
  (bm : RegionalBenchmark) :
  benchmark_lookup (benchmarks ++ [bm])
  = match bm_sku_id bm with
    | Some sku_id =>
        if String.eqb sku_id EmptyString then benchmark_lookup benchmarks
        else lookup_set (bm_market_id bm, sku_id) bm
               (benchmark_lookup benchmarks)
    | None => benchmark_lookup benchmarks
    end.
Proof.
  unfold benchmark_lookup. now rewrite fold_left_app.
Qed.

(** A benchmark found in the lookup table is one of the list, filed under
    its market and its non-empty SKU. *)
Lemma benchmark_lookup_sound (benchmarks : list RegionalBenchmark)
  (k : string * string) (b : RegionalBenchmark) :
  lookup_get k (benchmark_lookup benchmarks) = Some b ->
  In b benchmarks
  /\ exists sku_id,
       bm_sku_id b = Some sku_id /\ sku_id <> EmptyString
       /\ k = (bm_market_id b, sku_id).
Proof.
  induction benchmarks as [| bm benchmarks IH] using rev_ind;
    [discriminate |].
  rewrite benchmark_lookup_snoc.
  assert (Hold : lookup_get k (benchmark_lookup benchmarks) = Some b ->
                 In b (benchmarks ++ [bm])
                 /\ exists sku_id,
                      bm_sku_id b = Some sku_id /\ sku_id <> EmptyString
                      /\ k = (bm_market_id b, sku_id)).
  { intros H. destruct (IH H) as [Hin Hkey]. split; [| exact Hkey].
    apply in_or_app. now left. }
  destruct (bm_sku_id bm) as [sku_id |] eqn:Hsku; [| exact Hold].
  destruct (String.eqb sku_id EmptyString) eqn:Hempty; [exact Hold |].
  rewrite lookup_get_kitem, lookup_set_kupdate,
    (kitem_kupdate _ key_eqb_eq), <- lookup_get_kitem.
  destruct (key_eqb (bm_market_id bm, sku_id) k) eqn:Hk; [| exact Hold].
  intros H. injection H as <-. apply key_eqb_eq in Hk.
  split; [apply in_or_app; right; now left |].
  exists sku_id. split; [exact Hsku |].
  split; [now apply String.eqb_neq | now symmetry].
Qed.

(** Every benchmark with a non-empty SKU has an entry under its key. *)
Lemma benchmark_lookup_complete (benchmarks : list RegionalBenchmark)
  (b : RegionalBenchmark) (sku_id : string) :
  In b benchmarks ->
  bm_sku_id b = Some sku_id -> sku_id <> EmptyString ->
  exists b',
    lookup_get (bm_market_id b, sku_id) (benchmark_lookup benchmarks)
    = Some b'.
Proof.
  intros Hin Hsku Hne.
  induction benchmarks as [| bm benchmarks IH] using rev_ind;
    [destruct Hin |].
  rewrite benchmark_lookup_snoc.
  apply in_app_or in Hin. destruct Hin as [Hin | [-> | []]].
  - destruct (IH Hin) as [b' Hb'].
    destruct (bm_sku_id bm) as [sku' |]; [| eauto].
    destruct (String.eqb sku' EmptyString); [eauto |].
    rewrite lookup_get_kitem, lookup_set_kupdate,
      (kitem_kupdate _ key_eqb_eq), <- lookup_get_kitem.
    destruct (key_eqb _ _); eauto.
  - rewrite Hsku. apply String.eqb_neq in Hne. rewrite Hne.
    rewrite lookup_get_kitem, lookup_set_kupdate,
      (kitem_kupdate _ key_eqb_eq).
    rewrite (proj2 (key_eqb_eq _ _) eq_refl). eauto.
Qed.

Lemma compare_record_fields
  (lookup : list ((string * string) * RegionalBenchmark))
  (record : PricingRecord) (comparison : list VendorBenchmarkComparison)
  (c : VendorBenchmarkComparison) :
  compare_record lookup record = Ok comparison ->
  In c comparison ->
  0 < get (rec_unit_price record) 0
  /\ cmp_vendor_price c = get (rec_unit_price record) 0
  /\ cmp_market_id c = benchmark_market record
  /\ cmp_sku_id c = sku_of record
  /\ comparison_consistent c
  /\ exists b,
       lookup_get (benchmark_market record, sku_of record) lookup = Some b
       /\ cmp_benchmark_avg c = bm_avg_price b
       /\ cmp_benchmark_min c = bm_min_price b
       /\ cmp_benchmark_max c = bm_max_price b.
Proof.
  intros Hok Hc.
  destruct (compare_record_ok lookup record) as (comparison' & Hok' & _ & Hall).
  assert (comparison' = comparison) by congruence. subst comparison'.
  rewrite Forall_forall in Hall. specialize (Hall c Hc).
  revert Hok Hc. unfold compare_record.
  fold (benchmark_market record). fold (sku_of record).
  destruct (Rleb (get (rec_unit_price record) 0) 0) eqn:Hprice.
  { intros H. injection H as <-. intros []. }
  destruct (lookup_get (benchmark_market record, sku_of record) lookup)
    as [b |] eqn:Hb.
  2: { intros H. injection H as <-. intros []. }
  destruct (calculate_competitiveness_score _ _ _ _) as [score |];
    cbn [bind]; [| discriminate].
  intros H. injection H as <-. intros [<- | []].
  cbn [cmp_vendor_price cmp_market_id cmp_sku_id cmp_benchmark_avg
       cmp_benchmark_min cmp_benchmark_max].
  split.
  { destruct (Rle_or_lt (get (rec_unit_price record) 0) 0) as [H | H];
      [| exact H].
    apply Rleb_true in H. congruence. }
  repeat (split; [reflexivity || exact Hall |]).
  exists b. repeat split.
Qed.

Lemma compare_record_fires
  (lookup : list ((string * string) * RegionalBenchmark))
  (record : PricingRecord) (b : RegionalBenchmark) :
  0 < get (rec_unit_price record) 0 ->
  lookup_get (benchmark_market record, sku_of record) lookup = Some b ->
  exists c, compare_record lookup record = Ok [c].
Proof.
  intros Hpos Hb.
  destruct (compare_record_ok lookup record) as (comparison & Hok & _).
  revert Hok. unfold compare_record.
  fold (benchmark_market record). fold (sku_of record).
  rewrite (Rleb_false _ 0) by lra. rewrite Hb.
  destruct (calculate_competitiveness_score _ _ _ _) as [score |];
    cbn [bind]; [| discriminate].
  intros _. eauto.
Qed.

Lemma compare_records_In
  (lookup : list ((string * string) * RegionalBenchmark))
  (vendor_pricing : list PricingRecord)
  (comparisons : list VendorBenchmarkComparison)
  (c : VendorBenchmarkComparison) :
  compare_records lookup vendor_pricing = Ok comparisons ->
  In c comparisons ->
  exists record comparison,
    In record vendor_pricing
    /\ compare_record lookup record = Ok comparison
    /\ In c comparison.
Proof.
  revert comparisons.
  induction vendor_pricing as [| record rest IH]; intros comparisons;
    cbn [compare_records].
  { intros H. injection H as <-. intros []. }
  destruct (compare_record lookup record) as [comparison |] eqn:Hrecord;
    cbn [bind]; [| discriminate].
  destruct (compare_records lookup rest) as [cs |]; cbn [bind];
    [| discriminate].
  intros H Hc. injection H as <-. apply in_app_or in Hc.
  destruct Hc as [Hc | Hc].
  - exists record, comparison. split; [now left | auto].
  - destruct (IH cs eq_refl Hc) as (record' & comparison' & Hin & Hok & Hc').
    exists record', comparison'. split; [now right | auto].
Qed.

Lemma compare_records_incl
  (lookup : list ((string * string) * RegionalBenchmark))
  (vendor_pricing : list PricingRecord)
  (comparisons : list VendorBenchmarkComparison)
  (record : PricingRecord) (comparison : list VendorBenchmarkComparison) :
  compare_records lookup vendor_pricing = Ok comparisons ->
  In record vendor_pricing ->
  compare_record lookup record = Ok comparison ->
  incl comparison comparisons.
Proof.
  revert comparisons.
  induction vendor_pricing as [| record' rest IH]; intros comparisons;
    cbn [compare_records]; [intros _ [] |].
  destruct (compare_record lookup record') as [comparison' |] eqn:Hrecord;
    cbn [bind]; [| discriminate].
  destruct (compare_records lookup rest) as [cs |]; cbn [bind];
    [| discriminate].
  intros H [-> | Hin] Hok; injection H as <-.
  - assert (comparison' = comparison) by congruence. subst.
    now apply incl_appl, incl_refl.
  - apply incl_appr. now apply (IH cs eq_refl).
Qed.

Lemma compare_records_total
  (lookup : list ((string * string) * RegionalBenchmark))
  (vendor_pricing : list PricingRecord) :
  exists comparisons, compare_records lookup vendor_pricing = Ok comparisons.
Proof.
  induction vendor_pricing as [| record rest [cs Hcs]]; [cbn; eauto |].
  destruct (compare_record_ok lookup record) as (c & Hc & _).
  cbn [compare_records]. rewrite Hc, Hcs. cbn [bind]. eauto.
Qed.

Section OwnBenchmarks.
Variable uuid4 : nat -> string.
Variable now : datetime.
Variable minus_days : datetime -> Z -> datetime.
Variable rec_category_id : PricingRecord -> option string.

(** The benchmarks created from a dataset, seen from one of its records. *)
Lemma created_benchmark_bounds (self : MarketBenchmarker)
  (pricing_data : list PricingRecord)
  (historical_data : option (list PricingRecord))
  (period_end : option datetime) (benchmarks : list RegionalBenchmark)
  (b : RegionalBenchmark) (record : PricingRecord) :
  create_sku_benchmarks uuid4 now minus_days rec_category_id self
    pricing_data historical_data period_end = Ok benchmarks ->
  In b benchmarks ->
  In record pricing_data ->
  bm_market_id b = benchmark_market record ->
  bm_sku_id b = Some (sku_of record) ->
  0 < get (rec_unit_price record) 0 ->
  bm_min_price b <= get (rec_unit_price record) 0 <= bm_max_price b.
Proof.
  unfold create_sku_benchmarks. cbv zeta.
  destruct (mapM _ _) as [created |] eqn:Hmap; cbn [bind]; [| discriminate].
  intros H Hb Hrecord Hm Hs Hpos. injection H as <-. apply mapM_ok in Hmap.
  apply In_number_benchmarks in Hb. destruct Hb as (f & k & Hf & ->).
  apply in_concat in Hf. destruct Hf as (fs & Hfs & Hf).
  destruct (Forall2_In_r _ _ _ _ Hmap Hfs)
    as ([[market_id sku_id] records] & Hin & Hok).
  destruct (benchmark_entry_ok _ _ _ _ _ _ _ _ _ _ Hok) as [_ Hspec].
  destruct (Hspec f k Hf) as (Hm' & Hs' & _ & _ & _ & Hof).
  destruct (group_for_benchmarks_spec _ _ _ _ Hin) as [Hrecords _].
  assert (Em : market_id = benchmark_market record) by congruence.
  assert (Es : sku_id = sku_of record) by congruence.
  rewrite Em, Es in Hrecords.
  destruct Hof as (Hne & _ & _ & _ & _ & _ & Hmin & Hmax & _).
  rewrite Hmin, Hmax. rewrite (calculate_statistics_nonempty _ Hne).
  cbv zeta. cbn [st_min st_max].
  assert (Hprice : In (get (rec_unit_price record) 0) (priced records)).
  { apply priced_In; [| exact Hpos].
    rewrite Hrecords. now apply benchmark_quotes_In. }
  split; [now apply py_min_spec | now apply py_max_spec].
Qed.

Lemma created_benchmark_exists (self : MarketBenchmarker)
  (pricing_data : list PricingRecord)
  (historical_data : option (list PricingRecord))
  (period_end : option datetime) (benchmarks : list RegionalBenchmark)
  (market_id sku_id : string) :
  create_sku_benchmarks uuid4 now minus_days rec_category_id self
    pricing_data historical_data period_end = Ok benchmarks ->
  priced (benchmark_quotes sku_id market_id pricing_data) <> [] ->
  (min_sample_size self
   <= Z.of_nat
        (List.length (priced (benchmark_quotes sku_id market_id pricing_data))))%Z ->
  exists b,
    In b benchmarks /\ bm_market_id b = market_id
    /\ bm_sku_id b = Some sku_id.
Proof.
  unfold create_sku_benchmarks. cbv zeta.
  destruct (mapM _ _) as [created |] eqn:Hmap; cbn [bind]; [| discriminate].
  intros H Hne Hsize. injection H as <-. apply mapM_ok in Hmap.
  pose proof (priced_nonempty _ Hne) as Hquotes.
  pose proof (group_for_benchmarks_In _ _ _ Hquotes) as Hin.
  destruct (Forall2_In_l _ _ _ _ Hmap Hin) as (fs & Hfs & Hok).
  destruct (benchmark_entry_fires uuid4 rec_category_id self
              (group_historical historical_data)
              (minus_days (get period_end now) (default_period_days self))
              (get period_end now) market_id sku_id _ Hne Hsize)
    as (f & Hf & Hkey).
  rewrite Hf in Hok. injection Hok as <-.
  assert (Hconcat : In f (List.concat created))
    by (apply in_concat; exists [f]; split; [exact Hfs | now left]).
  destruct (In_numbered _ _ 0 Hconcat) as [k Hk].
  exists (f k). split; [| apply Hkey].
  unfold number_benchmarks. apply in_map_iff. exists (k, f). auto.
Qed.

End OwnBenchmarks.

(** X30 (create_sku_benchmarks and compare_vendor_to_benchmark): when the
    records of a dataset are compared with the benchmarks created from that
    dataset, every comparison has a non-empty SKU, a vendor price between
    the benchmark minimum and maximum, and therefore a percentile rank in
    [[0, 100]]; and every record with a positive price and a non-empty SKU
    whose market and SKU have at least [min_sample_size] non-zero prices is
    compared.  Records without SKU are never compared. *)
Theorem X30_compare_with_own_benchmarks (uuid4 : nat -> string)
  (now : datetime) (minus_days : datetime -> Z -> datetime)
  (rec_category_id : PricingRecord -> option string)
  (self : MarketBenchmarker) (pricing_data : list PricingRecord)
  (historical_data : option (list PricingRecord))
  (period_end : option datetime) (benchmarks : list RegionalBenchmark)
  (comparisons : list VendorBenchmarkComparison) :
  create_sku_benchmarks uuid4 now minus_days rec_category_id self
    pricing_data historical_data period_end = Ok benchmarks ->
  compare_vendor_to_benchmark pricing_data benchmarks = Ok comparisons ->
  (forall c, In c comparisons ->
     cmp_sku_id c <> EmptyString
     /\ cmp_benchmark_min c <= cmp_vendor_price c <= cmp_benchmark_max c
     /\ 0 <= cmp_percentile_rank c <= 100)
  /\ (forall record,
        In record pricing_data ->
        0 < get (rec_unit_price record) 0 ->
        sku_of record <> EmptyString ->
        (min_sample_size self
         <= Z.of_nat
              (List.length
                 (priced (benchmark_quotes (sku_of record)
                            (benchmark_market record) pricing_data))))%Z ->
        exists c,
          In c comparisons
          /\ cmp_market_id c = benchmark_market record
          /\ cmp_sku_id c = sku_of record
          /\ cmp_vendor_price c = get (rec_unit_price record) 0).
Proof.
  intros Hcreate Hcompare. unfold compare_vendor_to_benchmark in Hcompare.
  split.
  - intros c Hc.
    destruct (compare_records_In _ _ _ _ Hcompare Hc)
      as (record & comparison & Hrecord & Hok & Hin).
    destruct (compare_record_fields _ _ _ _ Hok Hin)
      as (Hpos & Hprice & _ & Hsku & Hcons & b & Hb & _ & Hmin & Hmax).
    destruct (benchmark_lookup_sound _ _ _ Hb)
      as (Hbin & sku_id & Hbsku & Hne & Hkey).
    injection Hkey as Hm Hs.
    assert (Hbounds : cmp_benchmark_min c <= cmp_vendor_price c
                      <= cmp_benchmark_max c).
    { rewrite Hmin, Hmax, Hprice.
      apply (created_benchmark_bounds _ _ _ _ _ _ _ _ _ _ _ Hcreate Hbin
               Hrecord); [now symmetry | congruence | exact Hpos]. }
    split; [congruence |]. split; [exact Hbounds |].
    destruct Hcons as (_ & _ & _ & Hpct & _). now apply Hpct.
  - intros record Hrecord Hpos Hsku Hsize.
    assert (Hne : priced (benchmark_quotes (sku_of record)
                            (benchmark_market record) pricing_data) <> []).
    { destruct (priced_In _ record (benchmark_quotes_In _ _ Hrecord) Hpos)
        as [_ Hin].
      intros E. rewrite E in Hin. destruct Hin. }
    destruct (created_benchmark_exists _ _ _ _ _ _ _ _ _ _ _ Hcreate Hne
                Hsize) as (b & Hb & Hm & Hs).
    destruct (benchmark_lookup_complete _ _ _ Hb Hs Hsku) as [b' Hb'].
    rewrite Hm in Hb'.
    destruct (compare_record_fires _ _ _ Hpos Hb') as [c Hc].
    exists c.
    destruct (compare_record_fields _ _ _ c Hc (or_introl eq_refl))
      as (_ & Hprice & Hmarket & Hsku' & _).
    split; [| auto].
    apply (compare_records_incl _ _ _ _ _ Hcompare Hrecord Hc). now left.
Qed.

Lemma X30_compare_with_own_benchmarks_witness :
  exists benchmarks comparisons c,
    create_sku_benchmarks (fun _ => "id") 0%Z (fun t _ => t) (fun _ => None)
      (mkMarketBenchmarker 30 1) spread_data None None = Ok benchmarks
    /\ compare_vendor_to_benchmark spread_data benchmarks = Ok comparisons
    /\ In c comparisons
    /\ cmp_market_id c = "MKT-2" /\ cmp_sku_id c = "SKU-A"
    /\ cmp_vendor_price c = 30.
Proof.
  destruct (create_sku_benchmarks_total (fun _ => "id") 0%Z (fun t _ => t)
              (fun _ => None) (mkMarketBenchmarker 30 1) spread_data None
              None) as [benchmarks Hcreate]; [cbn; lia |].
  destruct (compare_records_total (benchmark_lookup benchmarks) spread_data)
    as [comparisons Hcompare].
  destruct (X30_compare_with_own_benchmarks _ _ _ _ _ _ _ _ _ _ Hcreate
              Hcompare) as [_ Hcomplete].
  destruct (Hcomplete (quote "SKU-A" "MKT-2" 30)) as (c & Hc & Hfields).
  - right. now left.
  - cbn. lra.
  - discriminate.
  - change (benchmark_quotes (sku_of (quote "SKU-A" "MKT-2" 30))
              (benchmark_market (quote "SKU-A" "MKT-2" 30)) spread_data)
      with [quote "SKU-A" "MKT-2" 30].
    rewrite priced_quote by lra. cbn. lia.
  - exists benchmarks, comparisons, c. auto.
Defined.
